(** * Water-level task generator: a shallow embedding and its properties

    This development embeds the arithmetic core of the water-level data
    generator:

    - [src/src/config.py]      : [TaskConfig]
    - [src/src/generator.py]   : [generate_task_pair], [_generate_task_data],
                                 [_draw_container],
                                 [_draw_water_level_indicator],
                                 [_render_initial_state],
                                 [_render_final_state], [_generate_video],
                                 [_render_transfer_frame]
    - [src/src/prompts.py]     : [get_prompt], [get_all_prompts]
    - [src/core/video_utils.py]: [VideoGenerator.create_video_from_frames]

    ** Modelling conventions

    - Python [int] is [Z].
    - Python [float] is binary64 with its rounding: a float is a rational
      with 53 significant bits, and every float operation ([/] on integers,
      [*], [+], [-], [** 2], the conversion of an integer) is the exact
      result rounded to nearest, ties to even ([fl]).  [x ** 2] is taken to
      be the correctly rounded square.  The exponent range is not bounded:
      results beyond 1.8e308, on which Python raises [OverflowError] or
      yields [inf], and subnormal numbers are left out.  [int(x)] is
      truncation toward zero.
    - The process-wide pseudo-random source is an explicit tape of raw
      integers, consumed front to back.  A tape that runs out while the code
      still asks for a draw yields [Starved]: the finite tape did not supply
      enough draws for the rejection loop to leave.
    - Exceptions are values ([Raise]).
    - Raster images are kept symbolic: an image records its size and the
      container drawings asked for, not its pixels.  What the drawing
      library does with such a request, including its refusal of a box
      whose corners are in the wrong order, is in [_draw_container]; the
      renderers themselves only record the requests, so the properties of
      rendered scenes name the states whose containers can be painted. *)

From Stdlib Require Import ZArith QArith Qround Qabs Qpower List String Lia Lqa
  Bool DecimalString.
Import ListNotations.

Open Scope Z_scope.

(** ** Outcomes and the sampling monad *)

Inductive exn : Set :=
| ValueError
| ZeroDivisionError
| IndexError.

Inductive outcome (A : Type) : Type :=
| Done (a : A)
| Raise (e : exn)
| Starved.

Arguments Done {A} a.
Arguments Raise {A} e.
Arguments Starved {A}.

Definition obind {A B} (c : outcome A) (k : A -> outcome B) : outcome B :=
  match c with
  | Done a => k a
  | Raise e => Raise e
  | Starved => Starved
  end.

(** A computation that may read the random tape. *)
Definition Rand (A : Type) : Type := list Z -> outcome (A * list Z).

Definition ret {A} (a : A) : Rand A := fun tape => Done (a, tape).

Definition bind {A B} (c : Rand A) (k : A -> Rand B) : Rand B :=
  fun tape =>
    match c tape with
    | Done (a, tape') => k a tape'
    | Raise e => Raise e
    | Starved => Starved
    end.

Definition lift {A} (c : outcome A) : Rand A :=
  fun tape => obind c (fun a => Done (a, tape)).

Definition next_raw : Rand Z :=
  fun tape =>
    match tape with
    | [] => Starved
    | k :: tape' => Done (k, tape')
    end.

Declare Scope rand_scope.
Delimit Scope rand_scope with rand.
Notation "x <- c ;; k" := (bind c (fun x => k))
  (at level 61, c at next level, right associativity) : rand_scope.
Notation "' pat <- c ;; k" := (bind c (fun x => match x with pat => k end))
  (at level 61, pat pattern, c at next level, right associativity) : rand_scope.
Notation "x <-! c ;; k" := (obind c (fun x => k))
  (at level 61, c at next level, right associativity) : rand_scope.
Notation "' pat <-! c ;; k" := (obind c (fun x => match x with pat => k end))
  (at level 61, pat pattern, c at next level, right associativity) : rand_scope.
Open Scope rand_scope.

(** [while cond(s): s = body(s)].  The only loop of the programme reads the
    tape at every turn, so it cannot complete more turns than the tape has
    entries: with one more unit of fuel than that, the fuel never runs out
    before the tape does ([while_fuel_enough] below). *)
Fixpoint while_fuel {St : Type} (fuel : nat) (cond : St -> bool)
    (body : St -> Rand St) (s : St) : Rand St :=
  fun tape =>
    if cond s then
      match fuel with
      | O => Starved
      | S fuel' =>
          match body s tape with
          | Done (s', tape') => while_fuel fuel' cond body s' tape'
          | Raise e => Raise e
          | Starved => Starved
          end
      end
    else Done (s, tape).

Definition while_ {St : Type} (cond : St -> bool) (body : St -> Rand St)
    (s : St) : Rand St :=
  fun tape => while_fuel (S (List.length tape)) cond body s tape.

(** ** Binary64 arithmetic *)

Definition pow2 (e : Z) : Q := (2 ^ e)%Q.

(** Round to the nearest integer, ties to even. *)
Definition rne (s : Q) : Z :=
  let f := Qfloor s in
  match (s - inject_Z f ?= 1 # 2)%Q with
  | Lt => f
  | Gt => f + 1
  | Eq => if Z.even f then f else f + 1
  end.

(** [floor(log2 x)] for a positive [x]. *)
Definition ilog2 (x : Q) : Z :=
  let k := Z.log2 (Qnum x) - Z.log2 (Zpos (Qden x)) in
  if Qle_bool (pow2 k) x then k else k - 1.

(** Rounding to a multiple of [pow2 e]. *)
Definition rnd_at (e : Z) (x : Q) : Q :=
  (inject_Z (rne (x / pow2 e)) * pow2 e)%Q.

(** A positive rational rounded to 53 significant bits. *)
Definition round_pos (x : Q) : Q :=
  let e := ilog2 x - 52 in
  (inject_Z (rne (x / pow2 e)) * pow2 e)%Q.

(** The binary64 value nearest to [x]. *)
Definition fl (x : Q) : Q :=
  match (x ?= 0)%Q with
  | Eq => 0%Q
  | Gt => round_pos x
  | Lt => (- round_pos (- x))%Q
  end.

(** A rational is a binary64 value when it is an integer of magnitude at
    most 2^53 times a power of two. *)
Definition representable (x : Q) : Prop :=
  exists m k : Z, Z.abs m <= 2 ^ 53 /\ (x == inject_Z m * pow2 k)%Q.

(** A float field or literal: the binary64 value nearest to what was
    written ([0.3] is [of_Q (3 # 10)]). *)
Record float : Type := of_Q { raw : Q }.

Definition F2Q (f : float) : Q := fl (raw f).

Coercion F2Q : float >-> Q.

(** ** Python numerics *)

(** [float(n)], also the conversion of an integer operand that meets a
    float. *)
Definition to_float (n : Z) : Q := fl (inject_Z n).

(** [x + y], [x - y], [x * y] and [x ** 2] on floats. *)
Definition fadd (x y : Q) : Q := fl (x + y).
Definition fsub (x y : Q) : Q := fl (x - y).
Definition fmul (x y : Q) : Q := fl (x * y).
Definition fsquare (x : Q) : Q := fl (x * x).

(** [int(x)] on a float: truncation toward zero. *)
Definition int (x : Q) : Z :=
  if Qle_bool 0 x then Qfloor x else Qceiling x.

(** [x > y] between a float and a float or an integer: exact. *)
Definition Qgtb (x y : Q) : bool := negb (Qle_bool x y).

(** The float [a / b] of two integers, [b] not zero: the exact quotient,
    rounded once. *)
Definition quotient (a b : Z) : Q := fl (inject_Z a / inject_Z b).

(** [a / b] on integers: true division. *)
Definition truediv (a b : Z) : outcome Q :=
  if b =? 0 then Raise ZeroDivisionError
  else Done (quotient a b).

(** [random.randint(a, b)]: [randrange(a, b + 1)], which raises on an empty
    range and otherwise returns [a + randbelow(b + 1 - a)]. *)
Definition randint (a b : Z) : Rand Z :=
  let width := b + 1 - a in
  if 0 <? width then
    k <- next_raw ;;
    ret (a + k mod width)
  else lift (Raise ValueError).

(** [random.random()]: a multiple of 2^-53 in [0, 1). *)
Definition random : Rand Q :=
  k <- next_raw ;;
  ret ((k mod 2 ^ 53) # (2 ^ 53)).

(** [random.uniform(a, b)] is [a + (b - a) * random()]. *)
Definition uniform (a b : Q) : Rand Q :=
  u <- random ;;
  ret (fadd a (fmul (fsub b a) u)).

(** ** Configuration ([src/src/config.py]) *)

Record TaskConfig : Type := {
  domain : string;
  image_size : Z * Z;
  generate_videos : bool;
  video_fps : Z;
  min_container_width : Z;
  max_container_width : Z;
  container_height : Z;
  min_fill_ratio : float;
  max_fill_ratio : float;
  bg_color : Z * Z * Z;
  container_color : Z * Z * Z;
  water_color : Z * Z * Z * Z;
  measurement_color : Z * Z * Z
}.

(** The field defaults.  The class declares no validator and no bound on
    any field: constructing a [TaskConfig] only overrides defaults. *)
Definition default_config : TaskConfig := {|
  domain := "water_level";
  image_size := (512, 512);
  generate_videos := true;
  video_fps := 10;
  min_container_width := 60;
  max_container_width := 150;
  container_height := 200;
  min_fill_ratio := of_Q (3 # 10);
  max_fill_ratio := of_Q (8 # 10);
  bg_color := (255, 255, 255);
  container_color := (100, 100, 100);
  water_color := (50, 150, 255, 180);
  measurement_color := (200, 50, 50)
|}.

(** ** The physical model ([TaskGenerator._generate_task_data]) *)

Record TaskData : Type := {
  source_width : Z;
  source_height : Z;
  source_water_height : Z;
  target_width : Z;
  target_height : Z;
  target_water_height : Z;
  water_volume : Z;
  type : string
}.

Definition _generate_task_data (config : TaskConfig) : Rand TaskData :=
  source_width <- randint (min_container_width config)
                          (max_container_width config) ;;
  let source_height := container_height config in
  target_width <- randint (min_container_width config)
                          (max_container_width config) ;;
  target_width <-
    while_ (fun target_width => Z.abs (target_width - source_width) <? 20)
           (fun _ => randint (min_container_width config)
                             (max_container_width config))
           target_width ;;
  let target_height := container_height config in
  source_fill <- uniform (min_fill_ratio config) (max_fill_ratio config) ;;
  let source_water_height :=
    int (fmul (to_float source_height) source_fill) in
  let water_volume := source_width * source_water_height in
  target_water_height <- lift (truediv water_volume target_width) ;;
  '(target_water_height, water_volume, source_water_height) <-
    (if Qgtb target_water_height (inject_Z target_height) then
       let target_water_height := target_height in
       let water_volume := target_width * target_water_height in
       quotient <- lift (truediv water_volume source_width) ;;
       ret (inject_Z target_water_height, water_volume, int quotient)
     else
       ret (target_water_height, water_volume, source_water_height)) ;;
  let target_water_height := int target_water_height in
  ret {| source_width := source_width;
         source_height := source_height;
         source_water_height := source_water_height;
         target_width := target_width;
         target_height := target_height;
         target_water_height := target_water_height;
         water_volume := water_volume;
         type := "default" |}.

(** The two phases of [_generate_task_data], named so that statements can
    refer to the values drawn before the overflow test: lines 57-68 draw,
    lines 69-96 derive.  [_generate_task_data_phases] below shows that the
    function is their composition. *)

Record Draws : Type := {
  drawn_source_width : Z;
  drawn_target_width : Z;
  drawn_fill : Q
}.

Definition sample_draws (config : TaskConfig) : Rand Draws :=
  source_width <- randint (min_container_width config)
                          (max_container_width config) ;;
  target_width <- randint (min_container_width config)
                          (max_container_width config) ;;
  target_width <-
    while_ (fun target_width => Z.abs (target_width - source_width) <? 20)
           (fun _ => randint (min_container_width config)
                             (max_container_width config))
           target_width ;;
  source_fill <- uniform (min_fill_ratio config) (max_fill_ratio config) ;;
  ret {| drawn_source_width := source_width;
         drawn_target_width := target_width;
         drawn_fill := source_fill |}.

(** The source water height as sampled (line 69), before any clamp. *)
Definition sampled_water_height (config : TaskConfig) (d : Draws) : Z :=
  int (fmul (to_float (container_height config)) (drawn_fill d)).

(** The overflow test of line 78 on the provisional target height. *)
Definition overflows (config : TaskConfig) (d : Draws) : bool :=
  Qgtb (quotient (drawn_source_width d * sampled_water_height config d)
                 (drawn_target_width d))
       (inject_Z (container_height config)).

Definition derive_state (config : TaskConfig) (d : Draws) : outcome TaskData :=
  let source_width := drawn_source_width d in
  let target_width := drawn_target_width d in
  let source_height := container_height config in
  let target_height := container_height config in
  let source_water_height := sampled_water_height config d in
  let water_volume := source_width * source_water_height in
  target_water_height <-! truediv water_volume target_width ;;
  '(target_water_height, water_volume, source_water_height) <-!
    (if Qgtb target_water_height (inject_Z target_height) then
       let target_water_height := target_height in
       let water_volume := target_width * target_water_height in
       quotient <-! truediv water_volume source_width ;;
       Done (inject_Z target_water_height, water_volume, int quotient)
     else
       Done (target_water_height, water_volume, source_water_height)) ;;
  let target_water_height := int target_water_height in
  Done {| source_width := source_width;
          source_height := source_height;
          source_water_height := source_water_height;
          target_width := target_width;
          target_height := target_height;
          target_water_height := target_water_height;
          water_volume := water_volume;
          type := "default" |}.

(** The configurations the specification has in mind: positive widths, a
    non-negative container height, fill ratios ordered inside [0, 1]. *)
Record well_formed (config : TaskConfig) : Prop := {
  wf_width : 1 <= min_container_width config;
  wf_height : 0 <= container_height config;
  wf_fill_lo : (0 <= min_fill_ratio config)%Q;
  wf_fill_order : (min_fill_ratio config <= max_fill_ratio config)%Q;
  wf_fill_hi : (max_fill_ratio config <= 1)%Q
}.

(** ** Symbolic images *)

(** What the drawing helpers put on a canvas, in drawing order, with the
    integer geometry they were called with. *)
Inductive Drawing : Type :=
| Container (x y width height water_height : Z)
            (show_measurements : bool) (label : string)
| Arrow (x_start y x_end : Z)
| Glyph (x y : Z) (text : string)
| LevelIndicator (x y width height water_height : Z)
| Stream (x_start y_start x_end y_end : Z).

Inductive Image : Type :=
| Canvas (size : Z * Z) (drawings : list Drawing)
| Resized (img : Image) (size : Z * Z).

Definition size (img : Image) : Z * Z :=
  match img with
  | Canvas size _ => size
  | Resized _ size => size
  end.

Definition size_eqb (a b : Z * Z) : bool :=
  (fst a =? fst b) && (snd a =? snd b).

(** [img.resize(size, LANCZOS)] *)
Definition resize (img : Image) (size : Z * Z) : Image := Resized img size.

(** ** Rendering ([src/src/generator.py], lines 176-255 and 294-336) *)

Definition _render_initial_state (config : TaskConfig) (task_data : TaskData)
  : Image :=
  let '(width, height) := image_size config in
  let source_width := source_width task_data in
  let source_height := source_height task_data in
  let source_water_height := source_water_height task_data in
  let target_width := target_width task_data in
  let target_height := target_height task_data in
  let gap := 80 in
  let total_width := source_width + target_width + gap in
  let start_x := (width - total_width) / 2 in
  let container_y := (height - source_height) / 2 in
  let target_x := start_x + source_width + gap in
  let arrow_y := container_y + source_height / 2 in
  let arrow_start := start_x + source_width + 20 in
  let arrow_end := target_x - 15 in
  Canvas (width, height)
    [ Container start_x container_y source_width source_height
                source_water_height true "A (Source)";
      Container target_x container_y target_width target_height
                0 true "B (Target)";
      Arrow arrow_start arrow_y arrow_end;
      Glyph (target_x + target_width / 2 - 15)
            (container_y + target_height / 2 - 25) "?" ].

Definition _render_final_state (config : TaskConfig) (task_data : TaskData)
  : Image :=
  let '(width, height) := image_size config in
  let source_width := source_width task_data in
  let source_height := source_height task_data in
  let target_width := target_width task_data in
  let target_height := target_height task_data in
  let target_water_height := target_water_height task_data in
  let gap := 80 in
  let total_width := source_width + target_width + gap in
  let start_x := (width - total_width) / 2 in
  let container_y := (height - source_height) / 2 in
  let target_x := start_x + source_width + gap in
  Canvas (width, height)
    [ Container start_x container_y source_width source_height
                0 true "A (Empty)";
      Container target_x container_y target_width target_height
                target_water_height true "B (Filled)";
      LevelIndicator target_x container_y target_width target_height
                     target_water_height ].

Definition _render_transfer_frame (config : TaskConfig) (task_data : TaskData)
    (source_water target_water : Z) (progress : Q) : Image :=
  let '(width, height) := image_size config in
  let source_width := source_width task_data in
  let source_height := source_height task_data in
  let target_width := target_width task_data in
  let target_height := target_height task_data in
  let gap := 80 in
  let total_width := source_width + target_width + gap in
  let start_x := (width - total_width) / 2 in
  let container_y := (height - source_height) / 2 in
  let target_x := start_x + source_width + gap in
  Canvas (width, height)
    ([ Container start_x container_y source_width source_height
                 source_water false "A";
       Container target_x container_y target_width target_height
                 target_water false "B" ]
     ++ (if Qgtb progress 0 && Qgtb 1 progress then
           let stream_start_x := start_x + source_width + 10 in
           let stream_end_x := target_x - 5 in
           let stream_y_start := container_y + source_height - source_water in
           let stream_y_end := container_y + target_height - target_water in
           [ Stream stream_start_x stream_y_start stream_end_x stream_y_end ]
         else [])).

(** The water heights a rendered frame shows: those of its first and of its
    second container drawing. *)
Definition water_heights (img : Image) : option (Z * Z) :=
  match img with
  | Canvas _ (Container _ _ _ _ source_water _ _
              :: Container _ _ _ _ target_water _ _ :: _) =>
      Some (source_water, target_water)
  | _ => None
  end.

(** ** Video assembly ([src/core/video_utils.py]) *)

Record Path : Type := {
  directory : string;
  stem : string;
  suffix : string
}.

Definition with_suffix (p : Path) (ext : string) : Path :=
  {| directory := directory p; stem := stem p; suffix := ext |}.

Record VideoGenerator : Type := {
  fps : Z;
  output_format : string;
  codec : string;
  extension : string
}.


(** The file a [cv2.VideoWriter] leaves behind. *)
Record VideoFile : Type := {
  file_path : Path;
  fourcc : string;
  file_fps : Z;
  frame_size : Z * Z;
  written : list Image
}.

Definition write (writer : VideoFile) (frame : Image) : VideoFile :=
  {| file_path := file_path writer;
     fourcc := fourcc writer;
     file_fps := file_fps writer;
     frame_size := frame_size writer;
     written := written writer ++ [frame] |}.

(** [for item in items: s = body(item, s)] *)
Fixpoint for_each {A S : Type} (items : list A) (body : A -> S -> outcome S)
    (s : S) : outcome S :=
  match items with
  | [] => Done s
  | item :: rest => s' <-! body item s ;; for_each rest body s'
  end.

Definition range (n : Z) : list Z := map Z.of_nat (seq 0 (Z.to_nat n)).

Definition create_video_from_frames (self : VideoGenerator)
    (frames : list Image) (output_path : Path) (size_arg : option (Z * Z))
  : outcome VideoFile :=
  match frames with
  | [] => Raise ValueError
  | first :: _ =>
      let size_ := match size_arg with
                   | None => size first
                   | Some given => given
                   end in
      let output_path := with_suffix output_path (extension self) in
      let writer := {| file_path := output_path;
                       fourcc := codec self;
                       file_fps := fps self;
                       frame_size := size_;
                       written := [] |} in
      for_each frames
        (fun frame writer =>
           let frame := if negb (size_eqb (size frame) size_)
                        then resize frame size_
                        else frame in
           Done (write writer frame))
        writer
  end.

(** ** Animation ([TaskGenerator._generate_video]) *)

(** Lines 264-289 with the two local constants as parameters. *)
Definition video_frames (config : TaskConfig)
    (hold_frames animation_frames : Z)
    (first_image final_image : Image) (task_data : TaskData)
  : outcome (list Image) :=
  let frames := [] in
  frames <-! for_each (range hold_frames)
               (fun _ frames => Done (frames ++ [first_image])) frames ;;
  let source_water := source_water_height task_data in
  let target_water := target_water_height task_data in
  frames <-! for_each (range animation_frames)
               (fun i frames =>
                  progress <-! truediv i (animation_frames - 1) ;;
                  let progress := fsub 1 (fsquare (fsub 1 progress)) in
                  let current_source :=
                    int (fmul (to_float source_water) (fsub 1 progress)) in
                  let current_target :=
                    int (fmul (to_float target_water) progress) in
                  let frame :=
                    _render_transfer_frame config task_data
                      current_source current_target progress in
                  Done (frames ++ [frame]))
               frames ;;
  for_each (range (hold_frames * 2))
    (fun _ frames => Done (frames ++ [final_image])) frames.

Definition _generate_video (config : TaskConfig)
    (video_generator : VideoGenerator) (tempdir : string)
    (first_image final_image : Image) (task_id : string)
    (task_data : TaskData) : outcome VideoFile :=
  let temp_dir := (tempdir ++ "/" ++ domain config ++ "_videos")%string in
  let video_path := {| directory := temp_dir;
                       stem := (task_id ++ "_ground_truth")%string;
                       suffix := ".mp4" |} in
  let hold_frames := 5 in
  let animation_frames := 30 in
  frames <-! video_frames config hold_frames animation_frames
               first_image final_image task_data ;;
  create_video_from_frames video_generator frames video_path None.

(** The eased progress of transition frame [i], as the loop body computes
    it once the division has succeeded. *)
Definition eased (animation_frames i : Z) : Q :=
  fsub 1 (fsquare (fsub 1 (quotient i (animation_frames - 1)))).

(** Round-to-nearest, as the specification words the interpolation: [n] is
    a nearest integer of [x]. *)
Definition nearest_integer (n : Z) (x : Q) : Prop :=
  (Qabs (inject_Z n - x) <= 1 # 2)%Q.

(** The eased progress as the specification words it, in exact
    arithmetic: [p' = 1 - (1 - i / (n - 1))^2]. *)
Definition exact_eased (animation_frames i : Z) : Q :=
  (1 - (1 - inject_Z i / inject_Z (animation_frames - 1)) ^ 2)%Q.

(** ** Prompts ([src/src/prompts.py]) *)

Definition PROMPTS : list (string * list string) :=
  [ ("default"%string,
     [ "Pour all water from container A into container B. Show the final water level in B."%string;
       "Transfer the water from the source container to the target. What will be the water level?"%string;
       "If all water is moved from container A to B, predict and show the resulting water level."%string ]) ].

Fixpoint get {V : Type} (d : list (string * V)) (key : string) (default : V)
  : V :=
  match d with
  | [] => default
  | (k, v) :: rest => if String.eqb k key then v else get rest key default
  end.

(** [random.choice(seq)] *)
Definition choice {A : Type} (seq : list A) : Rand A :=
  match seq with
  | [] => lift (Raise IndexError)
  | x :: _ =>
      k <- next_raw ;;
      ret (nth (Z.to_nat (k mod Z.of_nat (List.length seq))) seq x)
  end.

Definition get_prompt (task_type : string) : Rand string :=
  let prompts := get PROMPTS task_type (get PROMPTS "default"%string []) in
  choice prompts.

(** ** Task assembly ([TaskGenerator.generate_task_pair]) *)





(** ** Sample runs used below *)

(** Source width 100; a first target draw of 105 is rejected, the second
    gives 65; fill ratio 0.55. *)
Definition plain_tape : list Z := [40; 45; 5; 2 ^ 52].

Definition plain_state : TaskData :=
  {| source_width := 100; source_height := 200; source_water_height := 110;
     target_width := 65; target_height := 200; target_water_height := 169;
     water_volume := 11000; type := "default" |}.

(** Source width 150, target width 60 and the largest fill ratio that can
    be drawn, 0.7999999999999999: the float product with the height 200
    rounds up to 160.0, and the provisional target height 400 exceeds the
    container height. *)
Definition overflow_tape : list Z := [90; 0; 2 ^ 53 - 1].

Definition overflow_state : TaskData :=
  {| source_width := 150; source_height := 200; source_water_height := 80;
     target_width := 60; target_height := 200; target_water_height := 200;
     water_volume := 12000; type := "default" |}.

(** The width a raw tape entry is mapped to by [randint] on the configured
    range. *)
Definition width_draw (config : TaskConfig) (k : Z) : Z :=
  min_container_width config
  + k mod (max_container_width config + 1 - min_container_width config).

(** Transition frame [i] as the loop of [_generate_video] renders it once
    its division has succeeded. *)
Definition transfer_frame (config : TaskConfig) (task_data : TaskData)
    (animation_frames i : Z) : Image :=
  let progress := eased animation_frames i in
  let current_source :=
    int (fmul (to_float (source_water_height task_data)) (fsub 1 progress)) in
  let current_target :=
    int (fmul (to_float (target_water_height task_data)) progress) in
  _render_transfer_frame config task_data
    current_source current_target progress.

(** The end images of the plain sample run. *)
Definition plain_first_image : Image :=
  _render_initial_state default_config plain_state.

Definition plain_final_image : Image :=
  _render_final_state default_config plain_state.



(** Configurations with contradictory bounds. *)
Definition with_widths (lo hi : Z) (c : TaskConfig) : TaskConfig :=
  {| domain := domain c; image_size := image_size c;
     generate_videos := generate_videos c; video_fps := video_fps c;
     min_container_width := lo; max_container_width := hi;
     container_height := container_height c;
     min_fill_ratio := min_fill_ratio c; max_fill_ratio := max_fill_ratio c;
     bg_color := bg_color c; container_color := container_color c;
     water_color := water_color c;
     measurement_color := measurement_color c |}.

Definition with_fill_ratios (lo hi : Q) (c : TaskConfig) : TaskConfig :=
  {| domain := domain c; image_size := image_size c;
     generate_videos := generate_videos c; video_fps := video_fps c;
     min_container_width := min_container_width c;
     max_container_width := max_container_width c;
     container_height := container_height c;
     min_fill_ratio := of_Q lo; max_fill_ratio := of_Q hi;
     bg_color := bg_color c; container_color := container_color c;
     water_color := water_color c;
     measurement_color := measurement_color c |}.



(** * The rest of the generator *)

(** ** Prompts, continued *)

Definition get_all_prompts (task_type : string) : list string :=
  get PROMPTS task_type (get PROMPTS "default"%string []).

(** ** What an image holds *)

(** The draw calls behind an image; resampling keeps them. *)
Fixpoint drawings_of (img : Image) : list Drawing :=
  match img with
  | Canvas _ drawings => drawings
  | Resized img _ => drawings_of img
  end.

(** Position and dimensions of the containers of a scene, in drawing
    order. *)
Definition outline (d : Drawing) : option (Z * Z * Z * Z) :=
  match d with
  | Container x y width height _ _ _ => Some (x, y, width, height)
  | _ => None
  end.

Fixpoint outlines (ds : list Drawing) : list (Z * Z * Z * Z) :=
  match ds with
  | [] => []
  | d :: rest =>
      match outline d with
      | Some o => o :: outlines rest
      | None => outlines rest
      end
  end.

Definition is_stream (d : Drawing) : bool :=
  match d with
  | Stream _ _ _ _ => true
  | _ => false
  end.

Definition has_stream (img : Image) : bool :=
  existsb is_stream (drawings_of img).

(** ** Drawing helpers ([src/src/generator.py], lines 98-174) *)

(** The calls made on the [ImageDraw] handle. *)
Inductive Shape : Type :=
| Rectangle (x0 y0 x1 y1 : Z) (fill : Z * Z * Z)
| Ellipse (x0 y0 x1 y1 : Z) (fill : Z * Z * Z)
| Line (x0 y0 x1 y1 : Z) (fill : Z * Z * Z) (width : Z)
| Polygon (points : list (Z * Z)) (fill : Z * Z * Z)
| Text (x y : Z) (text : string) (fill : Z * Z * Z).

(** [range(start, stop, step)] for a positive step. *)
Definition range_step (start stop step : Z) : list Z :=
  map (fun k => start + Z.of_nat k * step)
      (seq 0 (Z.to_nat ((stop - start + step - 1) / step))).

(** [color[:3]] *)
Definition rgb (color : Z * Z * Z * Z) : Z * Z * Z :=
  let '(r, g, b, _) := color in (r, g, b).

(** [f"{n}"] *)
Definition str (n : Z) : string := NilZero.string_of_int (Z.to_int n).

(** [draw.rectangle] and [draw.ellipse] refuse a box whose second corner
    is left of or above the first. *)
Definition rectangle (x0 y0 x1 y1 : Z) (fill : Z * Z * Z) : outcome Shape :=
  if (x1 <? x0) || (y1 <? y0) then Raise ValueError
  else Done (Rectangle x0 y0 x1 y1 fill).

Definition ellipse (x0 y0 x1 y1 : Z) (fill : Z * Z * Z) : outcome Shape :=
  if (x1 <? x0) || (y1 <? y0) then Raise ValueError
  else Done (Ellipse x0 y0 x1 y1 fill).

Section DrawingHelpers.

(** [wave i] stands for [int(3 * math.sin(i * 0.3))], and [text_width]
    for the width of a label's bounding box in the font that was
    loaded. *)
Variable wave : Z -> Z.
Variable text_width : string -> Z.

(** The shapes painted, in order; a refused box ends the call. *)
Definition _draw_container (config : TaskConfig)
    (x y width height water_height : Z)
    (show_measurements : bool) (label : string) : outcome (list Shape) :=
  let container_color := container_color config in
  let wall_thickness := 4 in
  left_wall <-! rectangle x y (x + wall_thickness)
                  (y + height + wall_thickness) container_color ;;
  right_wall <-! rectangle (x + width) y (x + width + wall_thickness)
                   (y + height + wall_thickness) container_color ;;
  bottom <-! rectangle x (y + height) (x + width + wall_thickness)
               (y + height + wall_thickness) container_color ;;
  water <-!
    (if 0 <? water_height then
       let water_y := y + height - water_height in
       let water_color := rgb (water_color config) in
       body <-! rectangle (x + wall_thickness) water_y (x + width)
                  (y + height) water_color ;;
       for_each (range_step 0 (width - wall_thickness) 10)
         (fun i shapes =>
            let wave_offset := wave i in
            ripple <-! ellipse (x + wall_thickness + i - 3)
                         (water_y + wave_offset - 3)
                         (x + wall_thickness + i + 3)
                         (water_y + wave_offset + 3)
                         water_color ;;
            Done (shapes ++ [ripple]))
         [body]
     else Done []) ;;
  let marks :=
    if show_measurements then
      let num_marks := 5 in
      map (fun i =>
             let mark_y := y + height - (i * height / num_marks) in
             let mark_length := if i mod 2 =? 0 then 15 else 8 in
             Line (x - mark_length) mark_y x mark_y (150, 150, 150) 1)
          (range (num_marks + 1))
    else [] in
  let text :=
    if String.eqb label "" then []
    else
      let text_width := text_width label in
      [ Text (x + width / 2 - text_width / 2) (y + height + 15)
             label (100, 100, 100) ] in
  Done ([left_wall; right_wall; bottom] ++ water ++ marks ++ text).

Definition _draw_water_level_indicator (config : TaskConfig)
    (x y width height water_height : Z) : list Shape :=
  let water_y := y + height - water_height in
  let arrow_x := x + width + 30 in
  [ Line arrow_x water_y (arrow_x + 30) water_y
         (measurement_color config) 2;
    Polygon [ (arrow_x, water_y);
              (arrow_x + 8, water_y - 5);
              (arrow_x + 8, water_y + 5) ]
            (measurement_color config);
    Text (arrow_x + 35) (water_y - 10) (str water_height ++ "px")
         (measurement_color config) ].

End DrawingHelpers.

(** Whether a rectangle lies inside a canvas of the given size: its
    corners are pixels, so they run from 0 to the size less one. *)
Definition rectangle_within (canvas : Z * Z) (s : Shape) : Prop :=
  match s with
  | Rectangle x0 y0 x1 y1 _ =>
      0 <= x0 <= x1 /\ x1 < fst canvas /\ 0 <= y0 <= y1 /\ y1 < snd canvas
  | _ => True
  end.


(** A configuration whose width range is narrower than the separation the
    loop asks for. *)
Definition narrow_widths : TaskConfig := with_widths 100 115 default_config.

(** The fill ratio [uniform] makes of a raw tape entry. *)
Definition fill_draw (config : TaskConfig) (k : Z) : Q :=
  fadd (min_fill_ratio config)
       (fmul (fsub (max_fill_ratio config) (min_fill_ratio config))
             ((k mod 2 ^ 53) # (2 ^ 53))).

(** Source width 60, target width 150, fill ratio 0.7999999999999999. *)
Definition wide_tape : list Z := [0; 90; 2 ^ 53 - 1].

Definition wide_state : TaskData :=
  {| source_width := 60; source_height := 200; source_water_height := 160;
     target_width := 150; target_height := 200; target_water_height := 64;
     water_volume := 9600; type := "default" |}.

Definition is_line (s : Shape) : bool :=
  match s with
  | Line _ _ _ _ _ _ => true
  | _ => false
  end.

(** ** Configurations beyond the range of exact float arithmetic *)

Definition with_height (h : Z) (c : TaskConfig) : TaskConfig :=
  {| domain := domain c; image_size := image_size c;
     generate_videos := generate_videos c; video_fps := video_fps c;
     min_container_width := min_container_width c;
     max_container_width := max_container_width c;
     container_height := h;
     min_fill_ratio := min_fill_ratio c; max_fill_ratio := max_fill_ratio c;
     bg_color := bg_color c; container_color := container_color c;
     water_color := water_color c;
     measurement_color := measurement_color c |}.

(** [TaskConfig(container_height=2**60, min_container_width=1,
    max_container_width=21)], with the draws: source width 1, target
    width 21, fill ratio 0.55. *)
Definition tall_config : TaskConfig :=
  with_widths 1 21 (with_height (2 ^ 60) default_config).

Definition tall_tape : list Z := [0; 20; 2 ^ 52].

(** [TaskConfig(min_container_width=99000000000049,
    max_container_width=200000000000099)], with the draws: source width
    the maximum, target width the minimum, fill ratio 0.55. *)
Definition broad_config : TaskConfig :=
  with_widths 99000000000049 200000000000099 default_config.

Definition broad_tape : list Z := [101000000000050; 0; 2 ^ 52].

(** [TaskConfig(container_height=2**53 + 3, min_fill_ratio=1.0,
    max_fill_ratio=1.0)], with the draws of [wide_tape]: source width 60,
    target width 150. *)
Definition brimful_config : TaskConfig :=
  with_fill_ratios 1 1 (with_height (2 ^ 53 + 3) default_config).

(** [TaskConfig(container_height=2**55 + 3)], with the draws of
    [overflow_tape]. *)
Definition towering_config : TaskConfig :=
  with_height (2 ^ 55 + 3) default_config.

(** * Properties *)

(** ** Binary64 rounding *)

Lemma pow2_pos (e : Z) : (0 < pow2 e)%Q.
Proof. apply Qpower_0_lt. reflexivity. Qed.

Lemma pow2_add (a b : Z) : (pow2 (a + b) == pow2 a * pow2 b)%Q.
Proof. apply Qpower_plus. discriminate. Qed.

Lemma pow2_le (a b : Z) : a <= b -> (pow2 a <= pow2 b)%Q.
Proof. intros H. apply Qpower_le_compat_l; [assumption | discriminate]. Qed.

Lemma pow2_lt (a b : Z) : a < b -> (pow2 a < pow2 b)%Q.
Proof. intros H. apply Qpower_lt_compat_l; [assumption | reflexivity]. Qed.

Lemma pow2_lt_inv (a b : Z) : (pow2 a < pow2 b)%Q -> a < b.
Proof. intros H. eapply Qpower_lt_compat_l_inv; [exact H | reflexivity]. Qed.

Lemma pow2_inject (e : Z) : 0 <= e -> (pow2 e == inject_Z (2 ^ e))%Q.
Proof. intros H. unfold pow2. now rewrite Zpower_Qpower. Qed.

Lemma pow2_0 : (pow2 0 == 1)%Q.
Proof. reflexivity. Qed.

Lemma pow2_succ (e : Z) : (pow2 (e + 1) == 2 * pow2 e)%Q.
Proof. rewrite pow2_add. change (pow2 1) with 2%Q. ring. Qed.

Lemma pow2_div (x : Q) (e : Z) : (x / pow2 e * pow2 e == x)%Q.
Proof. field. pose proof (pow2_pos e). intros E. rewrite E in H. now apply Qlt_irrefl in H. Qed.

(** ** Round to nearest integer, ties to even *)

Lemma rne_cases (s : Q) :
  let f := Qfloor s in
  (rne s = f /\ (s - inject_Z f <= 1 # 2)%Q) \/
  (rne s = f + 1 /\ (1 # 2 <= s - inject_Z f)%Q).
Proof.
  cbv zeta. unfold rne.
  destruct (Qcompare_spec (s - inject_Z (Qfloor s)) (1 # 2)) as [E|L|G].
  - destruct (Z.even (Qfloor s)); [left | right]; split; auto;
      rewrite E; apply Qle_refl.
  - left. split; [reflexivity | now apply Qlt_le_weak].
  - right. split; [reflexivity | now apply Qlt_le_weak].
Qed.

Lemma rne_error (s : Q) :
  (- (1 # 2) <= inject_Z (rne s) - s)%Q /\ (inject_Z (rne s) - s <= 1 # 2)%Q.
Proof.
  pose proof (Qfloor_le s) as F0. pose proof (Qlt_floor s) as F1.
  rewrite inject_Z_plus in F1. change (inject_Z 1) with 1%Q in F1.
  destruct (rne_cases s) as [[-> H]|[-> H]].
  - split; lra.
  - rewrite inject_Z_plus. change (inject_Z 1) with 1%Q. split; lra.
Qed.

Lemma rne_comp (s t : Q) : (s == t)%Q -> rne s = rne t.
Proof.
  intros E. unfold rne. rewrite (Qfloor_comp _ _ E).
  assert (C : (s - inject_Z (Qfloor t) ?= 1 # 2)%Q
              = (t - inject_Z (Qfloor t) ?= 1 # 2)%Q)
    by (now rewrite E).
  now rewrite C.
Qed.

Lemma rne_Z (n : Z) : rne (inject_Z n) = n.
Proof.
  unfold rne. rewrite Qfloor_Z.
  assert (E : (inject_Z n - inject_Z n ?= 1 # 2)%Q = Lt).
  { apply Qlt_alt. setoid_replace (inject_Z n - inject_Z n)%Q with 0%Q by ring.
    reflexivity. }
  now rewrite E.
Qed.

(** Strictly below a midpoint the rounding stays at or below the
    integer under it; strictly above, at or above the integer over it. *)
Lemma rne_below (s : Q) (n : Z) :
  (s < inject_Z n + (1 # 2))%Q -> rne s <= n.
Proof.
  intros H.
  pose proof (Qfloor_le s) as F0. pose proof (Qlt_floor s) as F1.
  rewrite inject_Z_plus in F1. change (inject_Z 1) with 1%Q in F1.
  assert (Hf : Qfloor s <= n).
  { apply Z.lt_succ_r. rewrite Zlt_Qlt. unfold Z.succ.
    rewrite inject_Z_plus. change (inject_Z 1) with 1%Q. lra. }
  destruct (rne_cases s) as [[-> _]|[-> Hh]]; [assumption|].
  destruct (Z.eq_dec (Qfloor s) n) as [E|E]; [|lia].
  rewrite E in Hh. lra.
Qed.

Lemma rne_above (s : Q) (n : Z) :
  (inject_Z n - (1 # 2) < s)%Q -> n <= rne s.
Proof.
  intros H.
  pose proof (Qfloor_le s) as F0. pose proof (Qlt_floor s) as F1.
  rewrite inject_Z_plus in F1. change (inject_Z 1) with 1%Q in F1.
  assert (Hf : n <= Qfloor s + 1).
  { apply Z.lt_succ_r. rewrite Zlt_Qlt. unfold Z.succ.
    rewrite !inject_Z_plus. change (inject_Z 1) with 1%Q. lra. }
  destruct (rne_cases s) as [[-> Hh]|[-> _]]; [|assumption].
  destruct (Z.eq_dec n (Qfloor s + 1)) as [E|E]; [|lia].
  rewrite E, inject_Z_plus in H. change (inject_Z 1) with 1%Q in H. lra.
Qed.

Lemma rne_mono (s t : Q) : (s <= t)%Q -> rne s <= rne t.
Proof.
  intros H.
  destruct (Z_le_gt_dec (rne s) (rne t)) as [L|G]; [assumption|].
  exfalso.
  pose proof (rne_error s) as [S0 S1]. pose proof (rne_error t) as [T0 T1].
  assert (G' : (inject_Z (rne t) + 1 <= inject_Z (rne s))%Q).
  { change 1%Q with (inject_Z 1). rewrite <- inject_Z_plus, <- Zle_Qle. lia. }
  assert (E : (s == t)%Q) by lra.
  apply rne_comp in E. lia.
Qed.

Lemma rne_le_Z (s : Q) (n : Z) : (s <= inject_Z n)%Q -> rne s <= n.
Proof. intros H. rewrite <- (rne_Z n). now apply rne_mono. Qed.

Lemma rne_ge_Z (s : Q) (n : Z) : (inject_Z n <= s)%Q -> n <= rne s.
Proof. intros H. rewrite <- (rne_Z n). now apply rne_mono. Qed.

(** ** The binary logarithm of a positive rational *)

Lemma Zpow2_Q_bounds (n : Z) :
  0 < n ->
  (pow2 (Z.log2 n) <= inject_Z n)%Q /\ (inject_Z n < pow2 (Z.log2 n + 1))%Q.
Proof.
  intros Hn. pose proof (Z.log2_spec n Hn) as [L U].
  pose proof (Z.log2_nonneg n) as Hl.
  rewrite !pow2_inject by lia. split.
  - now rewrite <- Zle_Qle.
  - rewrite <- Zlt_Qlt. now unfold Z.succ in U.
Qed.

Lemma ilog2_rough (x : Q) :
  (0 < x)%Q ->
  let k := Z.log2 (Qnum x) - Z.log2 (Zpos (Qden x)) in
  (pow2 (k - 1) <= x)%Q /\ (x < pow2 (k + 1))%Q.
Proof.
  intros Hx. cbv zeta.
  destruct x as [n d]. cbn [Qnum Qden].
  assert (Hn : 0 < n) by (unfold Qlt in Hx; simpl in Hx; lia).
  destruct (Zpow2_Q_bounds n Hn) as [N0 N1].
  destruct (Zpow2_Q_bounds (Zpos d) ltac:(lia)) as [D0 D1].
  set (ln := Z.log2 n) in *. set (ld := Z.log2 (Zpos d)) in *.
  assert (X : ((n # d) * inject_Z (Zpos d) == inject_Z n)%Q).
  { rewrite (Qmake_Qdiv n d). field. discriminate. }
  assert (A : (pow2 (ln - ld + 1) * pow2 ld == pow2 (ln + 1))%Q).
  { rewrite <- pow2_add. replace (ln - ld + 1 + ld) with (ln + 1) by lia.
    reflexivity. }
  assert (B : (pow2 (ln - ld - 1) * pow2 (ld + 1) == pow2 ln)%Q).
  { rewrite <- pow2_add. replace (ln - ld - 1 + (ld + 1)) with ln by lia.
    reflexivity. }
  pose proof (pow2_pos (ln - ld + 1)) as P1.
  pose proof (pow2_pos (ln - ld - 1)) as P2.
  pose proof (pow2_pos ld) as P3.
  set (x := (n # d)%Q) in *.
  set (D := inject_Z (Zpos d)) in *. set (N := inject_Z n) in *.
  set (a := pow2 (ln - ld + 1)) in *. set (b := pow2 (ln - ld - 1)) in *.
  set (pd := pow2 ld) in *. set (pd1 := pow2 (ld + 1)) in *.
  set (pn := pow2 ln) in *. set (pn1 := pow2 (ln + 1)) in *.
  split.
  - destruct (Qlt_le_dec x b) as [L|L]; [|assumption]. exfalso. nra.
  - destruct (Qlt_le_dec x a) as [L|L]; [assumption|]. exfalso. nra.
Qed.

Lemma ilog2_spec (x : Q) :
  (0 < x)%Q ->
  (pow2 (ilog2 x) <= x)%Q /\ (x < pow2 (ilog2 x + 1))%Q.
Proof.
  intros Hx. destruct (ilog2_rough x Hx) as [R0 R1]. unfold ilog2.
  set (k := Z.log2 (Qnum x) - Z.log2 (Zpos (Qden x))) in *.
  destruct (Qle_bool (pow2 k) x) eqn:E.
  - apply Qle_bool_iff in E. auto.
  - assert (L : (x < pow2 k)%Q).
    { apply Qnot_le_lt. rewrite <- Qle_bool_iff. congruence. }
    replace (k - 1 + 1) with k by lia. auto.
Qed.

Lemma ilog2_unique (x : Q) (a : Z) :
  (pow2 a <= x)%Q -> (x < pow2 (a + 1))%Q -> ilog2 x = a.
Proof.
  intros L U.
  assert (Hx : (0 < x)%Q) by (pose proof (pow2_pos a); lra).
  destruct (ilog2_spec x Hx) as [L' U'].
  assert (a < ilog2 x + 1) by (apply pow2_lt_inv; lra).
  assert (ilog2 x < a + 1) by (apply pow2_lt_inv; lra).
  lia.
Qed.

Lemma ilog2_comp (x y : Q) : (0 < x)%Q -> (x == y)%Q -> ilog2 x = ilog2 y.
Proof.
  intros Hx E. destruct (ilog2_spec x Hx) as [L U].
  symmetry. apply ilog2_unique; rewrite <- E; assumption.
Qed.

Lemma ilog2_mono (x y : Q) : (0 < x)%Q -> (x <= y)%Q -> ilog2 x <= ilog2 y.
Proof.
  intros Hx H.
  destruct (ilog2_spec x Hx) as [L _].
  destruct (ilog2_spec y ltac:(lra)) as [_ U].
  assert (ilog2 x < ilog2 y + 1) by (apply pow2_lt_inv; lra).
  lia.
Qed.

(** ** Rounding to a grid *)

Lemma pow2_nonzero (e : Z) : ~ (pow2 e == 0)%Q.
Proof. pose proof (pow2_pos e). intros E. rewrite E in H. now apply Qlt_irrefl in H. Qed.

Lemma rnd_at_comp (e : Z) (x y : Q) : (x == y)%Q -> (rnd_at e x == rnd_at e y)%Q.
Proof.
  intros E. unfold rnd_at.
  assert (R : rne (x / pow2 e) = rne (y / pow2 e)) by (apply rne_comp; now rewrite E).
  now rewrite R.
Qed.

Lemma rnd_at_mono (e : Z) (x y : Q) : (x <= y)%Q -> (rnd_at e x <= rnd_at e y)%Q.
Proof.
  intros H. unfold rnd_at. pose proof (pow2_pos e) as P.
  apply Qmult_le_compat_r; [|lra].
  rewrite <- Zle_Qle. apply rne_mono.
  apply Qmult_le_compat_r; [assumption|].
  apply Qlt_le_weak, Qinv_lt_0_compat, P.
Qed.

Lemma rnd_at_fix (e n : Z) :
  (rnd_at e (inject_Z n * pow2 e) == inject_Z n * pow2 e)%Q.
Proof.
  unfold rnd_at.
  assert (R : rne (inject_Z n * pow2 e / pow2 e) = n).
  { rewrite <- (rne_Z n) at 2. apply rne_comp. field. apply pow2_nonzero. }
  now rewrite R.
Qed.

Lemma rnd_at_error (e : Z) (x : Q) :
  (- (pow2 e / 2) <= rnd_at e x - x)%Q /\ (rnd_at e x - x <= pow2 e / 2)%Q.
Proof.
  unfold rnd_at. pose proof (pow2_pos e) as P.
  pose proof (rne_error (x / pow2 e)) as [E0 E1].
  pose proof (pow2_div x e) as D.
  set (s := (x / pow2 e)%Q) in *. set (m := inject_Z (rne s)) in *.
  set (p := pow2 e) in *.
  assert (A0 : (0 <= (m - s + (1 # 2)) * p)%Q)
    by (apply Qmult_le_0_compat; lra).
  assert (A1 : (0 <= ((1 # 2) - (m - s)) * p)%Q)
    by (apply Qmult_le_0_compat; lra).
  unfold Qdiv. change (/ 2)%Q with (1 # 2)%Q.
  split; nra.
Qed.

(** ** Rounding a positive rational to 53 significant bits *)

Lemma scaled_bounds (x : Q) :
  (0 < x)%Q ->
  (inject_Z (2 ^ 52) <= x / pow2 (ilog2 x - 52))%Q /\
  (x / pow2 (ilog2 x - 52) < inject_Z (2 ^ 53))%Q.
Proof.
  intros Hx. destruct (ilog2_spec x Hx) as [L U].
  pose proof (pow2_pos (ilog2 x - 52)) as P.
  pose proof (pow2_div x (ilog2 x - 52)) as D.
  assert (A : (pow2 (ilog2 x) == inject_Z (2 ^ 52) * pow2 (ilog2 x - 52))%Q).
  { rewrite <- pow2_inject by lia. rewrite <- pow2_add.
    replace (52 + (ilog2 x - 52)) with (ilog2 x) by lia. reflexivity. }
  assert (B : (pow2 (ilog2 x + 1) == inject_Z (2 ^ 53) * pow2 (ilog2 x - 52))%Q).
  { rewrite <- pow2_inject by lia. rewrite <- pow2_add.
    replace (53 + (ilog2 x - 52)) with (ilog2 x + 1) by lia. reflexivity. }
  set (s := (x / pow2 (ilog2 x - 52))%Q) in *.
  set (p := pow2 (ilog2 x - 52)) in *.
  set (a := inject_Z (2 ^ 52)) in *. set (b := inject_Z (2 ^ 53)) in *.
  split.
  - destruct (Qlt_le_dec s a) as [C|C]; [exfalso; nra | assumption].
  - destruct (Qlt_le_dec s b) as [C|C]; [assumption | exfalso; nra].
Qed.

Lemma mantissa_bounds (x : Q) :
  (0 < x)%Q ->
  2 ^ 52 <= rne (x / pow2 (ilog2 x - 52)) <= 2 ^ 53.
Proof.
  intros Hx. destruct (scaled_bounds x Hx) as [L U]. split.
  - now apply rne_ge_Z.
  - apply rne_le_Z. now apply Qlt_le_weak.
Qed.

Lemma round_pos_rnd_at (x : Q) : round_pos x = rnd_at (ilog2 x - 52) x.
Proof. reflexivity. Qed.

Lemma round_pos_comp (x y : Q) :
  (0 < x)%Q -> (x == y)%Q -> (round_pos x == round_pos y)%Q.
Proof.
  intros Hx E. rewrite !round_pos_rnd_at.
  rewrite (ilog2_comp x y Hx E). now apply rnd_at_comp.
Qed.

Lemma round_pos_lower (x : Q) :
  (0 < x)%Q -> (pow2 (ilog2 x) <= round_pos x)%Q.
Proof.
  intros Hx. destruct (mantissa_bounds x Hx) as [M _].
  unfold round_pos.
  pose proof (pow2_pos (ilog2 x - 52)) as P.
  assert (A : (pow2 (ilog2 x) == inject_Z (2 ^ 52) * pow2 (ilog2 x - 52))%Q).
  { rewrite <- pow2_inject by lia. rewrite <- pow2_add.
    replace (52 + (ilog2 x - 52)) with (ilog2 x) by lia. reflexivity. }
  rewrite A. apply Qmult_le_compat_r; [|lra]. now rewrite <- Zle_Qle.
Qed.

Lemma round_pos_upper (x : Q) :
  (0 < x)%Q -> (round_pos x <= pow2 (ilog2 x + 1))%Q.
Proof.
  intros Hx. destruct (mantissa_bounds x Hx) as [_ M].
  unfold round_pos.
  pose proof (pow2_pos (ilog2 x - 52)) as P.
  assert (B : (pow2 (ilog2 x + 1) == inject_Z (2 ^ 53) * pow2 (ilog2 x - 52))%Q).
  { rewrite <- pow2_inject by lia. rewrite <- pow2_add.
    replace (53 + (ilog2 x - 52)) with (ilog2 x + 1) by lia. reflexivity. }
  rewrite B. apply Qmult_le_compat_r; [|lra]. now rewrite <- Zle_Qle.
Qed.

Lemma round_pos_pos (x : Q) : (0 < x)%Q -> (0 < round_pos x)%Q.
Proof.
  intros Hx. pose proof (round_pos_lower x Hx). pose proof (pow2_pos (ilog2 x)). lra.
Qed.

Lemma round_pos_mono (x y : Q) :
  (0 < x)%Q -> (x <= y)%Q -> (round_pos x <= round_pos y)%Q.
Proof.
  intros Hx H.
  pose proof (ilog2_mono x y Hx H) as Hl.
  destruct (Z.eq_dec (ilog2 x) (ilog2 y)) as [E|E].
  - rewrite !round_pos_rnd_at, E. now apply rnd_at_mono.
  - apply Qle_trans with (pow2 (ilog2 x + 1)).
    + now apply round_pos_upper.
    + apply Qle_trans with (pow2 (ilog2 y)).
      * apply pow2_le. lia.
      * apply round_pos_lower. lra.
Qed.

Lemma round_pos_error (x : Q) :
  (0 < x)%Q ->
  (- (x * (1 # 2 ^ 53)) <= round_pos x - x)%Q /\
  (round_pos x - x <= x * (1 # 2 ^ 53))%Q.
Proof.
  intros Hx. rewrite round_pos_rnd_at.
  pose proof (rnd_at_error (ilog2 x - 52) x) as [E0 E1].
  destruct (ilog2_spec x Hx) as [L _].
  assert (A : (pow2 (ilog2 x) == inject_Z (2 ^ 52) * pow2 (ilog2 x - 52))%Q).
  { rewrite <- pow2_inject by lia. rewrite <- pow2_add.
    replace (52 + (ilog2 x - 52)) with (ilog2 x) by lia. reflexivity. }
  pose proof (pow2_pos (ilog2 x - 52)) as P.
  change (inject_Z (2 ^ 52)) with (4503599627370496%Q) in A.
  change (1 # 2 ^ 53)%Q with (1 # 9007199254740992)%Q.
  unfold Qdiv in E0, E1. change (/ 2)%Q with (1 # 2)%Q in E0, E1.
  set (r := rnd_at (ilog2 x - 52) x) in *.
  set (p := pow2 (ilog2 x - 52)) in *. set (q := pow2 (ilog2 x)) in *.
  split; lra.
Qed.

(** ** Rounding to binary64 precision *)

Lemma fl_pos (x : Q) : (0 < x)%Q -> fl x = round_pos x.
Proof.
  intros H. unfold fl. now rewrite (proj1 (Qgt_alt x 0) H).
Qed.

Lemma fl_neg (x : Q) : (x < 0)%Q -> fl x = (- round_pos (- x))%Q.
Proof.
  intros H. unfold fl. now rewrite (proj1 (Qlt_alt x 0) H).
Qed.

Lemma fl_zero (x : Q) : (x == 0)%Q -> fl x = 0%Q.
Proof.
  intros H. unfold fl. now rewrite (proj1 (Qeq_alt x 0) H).
Qed.

Lemma fl_0 : fl 0 = 0%Q.
Proof. reflexivity. Qed.

Lemma fl_comp (x y : Q) : (x == y)%Q -> (fl x == fl y)%Q.
Proof.
  intros E. destruct (Q_dec x 0) as [[L|G]|Z].
  - rewrite (fl_neg x L), (fl_neg y) by lra.
    apply Qopp_comp. apply round_pos_comp; [lra | now rewrite E].
  - rewrite (fl_pos x G), (fl_pos y) by lra. now apply round_pos_comp.
  - rewrite (fl_zero x Z), (fl_zero y) by lra. reflexivity.
Qed.

Lemma fl_opp (x : Q) : (fl (- x) == - fl x)%Q.
Proof.
  destruct (Q_dec x 0) as [[L|G]|Z].
  - rewrite (fl_neg x L), (fl_pos (- x)) by lra. ring.
  - rewrite (fl_pos x G), (fl_neg (- x)) by lra.
    setoid_replace (- round_pos (- - x))%Q with (- round_pos x)%Q; [reflexivity|].
    apply Qopp_comp. apply round_pos_comp; [lra | ring].
  - rewrite (fl_zero x Z), (fl_zero (- x)) by lra. reflexivity.
Qed.

Lemma fl_pos_pos (x : Q) : (0 < x)%Q -> (0 < fl x)%Q.
Proof. intros H. rewrite (fl_pos x H). now apply round_pos_pos. Qed.

Lemma fl_mono (x y : Q) : (x <= y)%Q -> (fl x <= fl y)%Q.
Proof.
  intros H. destruct (Q_dec x 0) as [[Lx|Gx]|Zx].
  - destruct (Q_dec y 0) as [[Ly|Gy]|Zy].
    + rewrite (fl_neg x Lx), (fl_neg y Ly).
      apply Qopp_le_compat. apply round_pos_mono; lra.
    + rewrite (fl_neg x Lx).
      pose proof (round_pos_pos (- x) ltac:(lra)).
      pose proof (fl_pos_pos y Gy). lra.
    + rewrite (fl_neg x Lx), (fl_zero y Zy).
      pose proof (round_pos_pos (- x) ltac:(lra)). lra.
  - rewrite (fl_pos x Gx), (fl_pos y) by lra. now apply round_pos_mono.
  - rewrite (fl_zero x Zx). destruct (Q_dec y 0) as [[Ly|Gy]|Zy].
    + lra.
    + pose proof (fl_pos_pos y Gy). lra.
    + rewrite (fl_zero y Zy). lra.
Qed.

Lemma fl_nonneg (x : Q) : (0 <= x)%Q -> (0 <= fl x)%Q.
Proof. intros H. rewrite <- fl_0. now apply fl_mono. Qed.

Lemma fl_error_nonneg (x : Q) :
  (0 <= x)%Q ->
  (x - x * (1 # 2 ^ 53) <= fl x)%Q /\ (fl x <= x + x * (1 # 2 ^ 53))%Q.
Proof.
  intros H. destruct (Qle_lt_or_eq _ _ H) as [P|Z].
  - rewrite (fl_pos x P). pose proof (round_pos_error x P) as [E0 E1].
    split; lra.
  - rewrite (fl_zero x) by lra. rewrite <- Z. split; lra.
Qed.

(** ** Floats are fixed points of the rounding *)

Lemma round_pos_fix (m k : Z) :
  0 < m <= 2 ^ 53 ->
  (round_pos (inject_Z m * pow2 k) == inject_Z m * pow2 k)%Q.
Proof.
  intros Hm.
  set (x := (inject_Z m * pow2 k)%Q).
  assert (Hx : (0 < x)%Q).
  { unfold x. apply Qmult_lt_0_compat; [|apply pow2_pos].
    change 0%Q with (inject_Z 0). rewrite <- Zlt_Qlt. lia. }
  rewrite round_pos_rnd_at.
  set (e := ilog2 x - 52).
  assert (N : exists n : Z, (x == inject_Z n * pow2 e)%Q).
  { destruct (Z_le_gt_dec e k) as [L|G].
    - exists (m * 2 ^ (k - e)).
      rewrite inject_Z_mult, <- pow2_inject by lia.
      unfold x. rewrite <- Qmult_assoc, <- pow2_add.
      replace (k - e + e) with k by lia. reflexivity.
    - exists (2 ^ 52).
      destruct (scaled_bounds x Hx) as [S0 _]. fold e in S0.
      pose proof (pow2_div x e) as D.
      assert (A : (pow2 e == pow2 (e - k) * pow2 k)%Q).
      { rewrite <- pow2_add. replace (e - k + k) with e by lia. reflexivity. }
      assert (B : (2 <= pow2 (e - k))%Q).
      { change 2%Q with (pow2 1). apply pow2_le. lia. }
      pose proof (pow2_pos k) as Pk. pose proof (pow2_pos e) as Pe.
      assert (M : (inject_Z m <= inject_Z (2 ^ 53))%Q)
        by (rewrite <- Zle_Qle; lia).
      change (inject_Z (2 ^ 53)) with (2 * inject_Z (2 ^ 52))%Q in M.
      unfold x in *.
      set (s := (inject_Z m * pow2 k / pow2 e)%Q) in *.
      set (mm := inject_Z m) in *. set (pk := pow2 k) in *.
      set (pe := pow2 e) in *. set (pd := pow2 (e - k)) in *.
      set (c := inject_Z (2 ^ 52)) in *.
      assert (C0 : (0 < c)%Q) by reflexivity.
      (* s * pd * pk = mm * pk, so s * pd = mm *)
      assert (E1 : (s * pd == mm)%Q).
      { apply (Qmult_inj_r _ _ pk); [lra|]. nra. }
      assert (E2 : (pd == 2)%Q) by nra.
      assert (E3 : (mm == 2 * c)%Q) by nra.
      nra. }
  destruct N as [n Hn].
  rewrite (rnd_at_comp e _ _ Hn), rnd_at_fix. symmetry. exact Hn.
Qed.

Lemma fl_fix (x : Q) : representable x -> (fl x == x)%Q.
Proof.
  intros (m & k & Hm & E). rewrite (fl_comp _ _ E), E.
  destruct (Z.lt_trichotomy m 0) as [L|[Z|G]].
  - assert (N : (inject_Z m * pow2 k == - (inject_Z (- m) * pow2 k))%Q)
      by (rewrite inject_Z_opp; ring).
    rewrite (fl_comp _ _ N), N, fl_opp.
    assert (P : (0 < inject_Z (- m) * pow2 k)%Q).
    { apply Qmult_lt_0_compat; [|apply pow2_pos].
      change 0%Q with (inject_Z 0). rewrite <- Zlt_Qlt. lia. }
    rewrite (fl_pos _ P), round_pos_fix by lia. reflexivity.
  - subst m. rewrite fl_zero; [|ring]. ring.
  - assert (P : (0 < inject_Z m * pow2 k)%Q).
    { apply Qmult_lt_0_compat; [|apply pow2_pos].
      change 0%Q with (inject_Z 0). rewrite <- Zlt_Qlt. lia. }
    rewrite (fl_pos _ P). apply round_pos_fix. lia.
Qed.

Lemma fl_representable (x : Q) : representable (fl x).
Proof.
  destruct (Q_dec x 0) as [[L|G]|Z].
  - rewrite (fl_neg x L).
    destruct (mantissa_bounds (- x) ltac:(lra)) as [M0 M1].
    exists (- rne (- x / pow2 (ilog2 (- x) - 52))), (ilog2 (- x) - 52).
    split; [lia|]. unfold round_pos. rewrite inject_Z_opp. ring.
  - rewrite (fl_pos x G).
    destruct (mantissa_bounds x G) as [M0 M1].
    exists (rne (x / pow2 (ilog2 x - 52))), (ilog2 x - 52).
    split; [lia|]. reflexivity.
  - rewrite (fl_zero x Z). exists 0, 0. split; [simpl; lia | reflexivity].
Qed.

Lemma fl_idem (x : Q) : (fl (fl x) == fl x)%Q.
Proof. apply fl_fix, fl_representable. Qed.

Lemma representable_Z (n : Z) : Z.abs n <= 2 ^ 53 -> representable (inject_Z n).
Proof.
  intros H. exists n, 0. split; [assumption|]. rewrite pow2_0. ring.
Qed.

Lemma fl_Z (n : Z) : Z.abs n <= 2 ^ 53 -> (fl (inject_Z n) == inject_Z n)%Q.
Proof. intros H. now apply fl_fix, representable_Z. Qed.

Lemma fl_1 : (fl 1 == 1)%Q.
Proof. apply (fl_Z 1). simpl. lia. Qed.

(** ** The product with a fraction below one *)

(** [fl t] scaled by a factor of at most 1 - 2^-53 and rounded again is
    at most [t]: the step that keeps [uniform] below its upper bound. *)
Lemma fl_scaled_below (t u : Q) :
  (0 < t)%Q -> (0 <= u)%Q -> (u <= 1 - (1 # 2 ^ 53))%Q ->
  (fl (fl t * u) <= t)%Q.
Proof.
  intros Ht Hu0 Hu1.
  rewrite (fl_pos t Ht).
  destruct (mantissa_bounds t Ht) as [M0 M1].
  pose proof (rne_error (t / pow2 (ilog2 t - 52))) as [_ R1].
  pose proof (pow2_div t (ilog2 t - 52)) as D.
  pose proof (pow2_pos (ilog2 t - 52)) as P.
  unfold round_pos.
  set (e := ilog2 t - 52) in *.
  set (m := rne (t / pow2 e)) in *.
  assert (Hm0 : (inject_Z (2 ^ 52) <= inject_Z m)%Q) by (now rewrite <- Zle_Qle).
  change (inject_Z (2 ^ 52)) with 4503599627370496%Q in Hm0.
  change (1 # 2 ^ 53)%Q with (1 # 9007199254740992)%Q in Hu1.
  assert (T : ((inject_Z m - (1 # 2)) * pow2 e <= t)%Q).
  { set (s := (t / pow2 e)%Q) in *. set (p := pow2 e) in *.
    set (mm := inject_Z m) in *. nra. }
  assert (Y : (inject_Z m * pow2 e * u
               <= (inject_Z m - inject_Z m * (1 # 9007199254740992))
                  * pow2 e)%Q).
  { set (p := pow2 e) in *. set (mm := inject_Z m) in *.
    assert (0 <= mm * p)%Q by nra.
    assert (0 <= mm * p * ((1 - (1 # 9007199254740992)) - u))%Q
      by (apply Qmult_le_0_compat; lra).
    nra. }
  destruct (Z.eq_dec m (2 ^ 52)) as [E|E].
  - (* the value is a power of two: the float below sits on a finer grid *)
    assert (F : (fl (inject_Z (2 ^ 53 - 1) * pow2 (e - 1))
                 == inject_Z (2 ^ 53 - 1) * pow2 (e - 1))%Q).
    { apply fl_fix. exists (2 ^ 53 - 1), (e - 1). split; [simpl; lia | reflexivity]. }
    assert (A : (pow2 e == 2 * pow2 (e - 1))%Q).
    { rewrite <- pow2_succ. replace (e - 1 + 1) with e by lia. reflexivity. }
    assert (B : (inject_Z m * pow2 e * u
                 <= inject_Z (2 ^ 53 - 1) * pow2 (e - 1))%Q).
    { rewrite E in Y. change (inject_Z (2 ^ 52)) with 4503599627370496%Q in Y.
      rewrite E. change (inject_Z (2 ^ 52)) with 4503599627370496%Q.
      change (inject_Z (2 ^ 53 - 1)) with 9007199254740991%Q.
      pose proof (pow2_pos (e - 1)) as P'.
      set (p := pow2 e) in *. set (p' := pow2 (e - 1)) in *. lra. }
    apply fl_mono in B. rewrite F in B.
    rewrite E in T. change (inject_Z (2 ^ 52)) with 4503599627370496%Q in T.
    change (inject_Z (2 ^ 53 - 1)) with 9007199254740991%Q in B.
    pose proof (pow2_pos (e - 1)) as P'.
    set (p := pow2 e) in *. set (p' := pow2 (e - 1)) in *. lra.
  - assert (Hm : 2 ^ 52 + 1 <= m) by lia.
    assert (Hm' : (4503599627370497 <= inject_Z m)%Q).
    { change 4503599627370497%Q with (inject_Z (2 ^ 52 + 1)).
      now rewrite <- Zle_Qle. }
    assert (F : (fl (inject_Z (m - 1) * pow2 e) == inject_Z (m - 1) * pow2 e)%Q).
    { apply fl_fix. exists (m - 1), e. split; [lia | reflexivity]. }
    assert (I : (inject_Z (m - 1) == inject_Z m - 1)%Q).
    { unfold Z.sub. rewrite inject_Z_plus. reflexivity. }
    destruct (Qlt_le_dec (inject_Z (m - 1) * pow2 e) (inject_Z m * pow2 e * u))
      as [G|L].
    + (* same binade as [t]: the scaled value is under the midpoint *)
      set (y := (inject_Z m * pow2 e * u)%Q) in *.
      assert (Hy : (0 < y)%Q).
      { rewrite I in G. set (p := pow2 e) in *. set (mm := inject_Z m) in *. nra. }
      assert (A : (pow2 (e + 52) == 4503599627370496 * pow2 e)%Q).
      { rewrite Z.add_comm, pow2_add. reflexivity. }
      assert (A' : (pow2 (e + 52 + 1) == 9007199254740992 * pow2 e)%Q).
      { replace (e + 52 + 1) with (53 + e) by lia. rewrite pow2_add. reflexivity. }
      assert (M1' : (inject_Z m <= 9007199254740992)%Q).
      { change 9007199254740992%Q with (inject_Z (2 ^ 53)). now rewrite <- Zle_Qle. }
      assert (Ly : ilog2 y = e + 52).
      { apply ilog2_unique.
        - rewrite A. rewrite I in G.
          set (p := pow2 e) in *. set (mm := inject_Z m) in *. nra.
        - rewrite A'.
          set (p := pow2 e) in *. set (mm := inject_Z m) in *. nra. }
      rewrite (fl_pos y Hy). unfold round_pos. rewrite Ly.
      replace (e + 52 - 52) with e by lia.
      assert (Rn : rne (y / pow2 e) <= m - 1).
      { apply rne_below. rewrite I.
        pose proof (pow2_div y e) as Dy.
        set (sy := (y / pow2 e)%Q) in *.
        set (p := pow2 e) in *. set (mm := inject_Z m) in *.
        destruct (Qlt_le_dec sy (mm - 1 + (1 # 2))) as [C|C]; [assumption|].
        exfalso.
        assert ((mm - 1 + (1 # 2)) * p <= sy * p)%Q
          by (apply Qmult_le_compat_r; lra).
        nra. }
      apply Qle_trans with (inject_Z (m - 1) * pow2 e)%Q.
      * apply Qmult_le_compat_r; [|lra]. now rewrite <- Zle_Qle.
      * rewrite I. set (p := pow2 e) in *. set (mm := inject_Z m) in *. nra.
    + apply fl_mono in L. rewrite F in L.
      rewrite I in L. set (p := pow2 e) in *. set (mm := inject_Z m) in *.
      set (f := fl (mm * p * u)) in *. nra.
Qed.

Lemma fl_scaled_bounds (t u : Q) :
  (0 <= t)%Q -> (0 <= u)%Q -> (u <= 1 - (1 # 2 ^ 53))%Q ->
  (0 <= fl (fl t * u))%Q /\ (fl (fl t * u) <= t)%Q.
Proof.
  intros Ht Hu0 Hu1. split.
  - apply fl_nonneg. pose proof (fl_nonneg t Ht). nra.
  - destruct (Qle_lt_or_eq _ _ Ht) as [P|Z].
    + now apply fl_scaled_below.
    + rewrite (fl_zero t) by (now symmetry).
      rewrite (fl_zero (0 * u)) by ring. exact Ht.
Qed.

(** Rounding does not cross a float. *)
Lemma fl_above (a x : Q) : representable a -> (a <= x)%Q -> (a <= fl x)%Q.
Proof.
  intros R H. apply Qle_trans with (fl a).
  - rewrite (fl_fix a R). apply Qle_refl.
  - now apply fl_mono.
Qed.

Lemma fl_below (x b : Q) : representable b -> (x <= b)%Q -> (fl x <= b)%Q.
Proof.
  intros R H. apply Qle_trans with (fl b).
  - now apply fl_mono.
  - rewrite (fl_fix b R). apply Qle_refl.
Qed.

Lemma to_float_exact (n : Z) :
  Z.abs n <= 2 ^ 53 -> (to_float n == inject_Z n)%Q.
Proof. apply fl_Z. Qed.

Lemma to_float_nonneg (n : Z) : 0 <= n -> (0 <= to_float n)%Q.
Proof.
  intros H. apply fl_nonneg. now rewrite <- (Zle_Qle 0).
Qed.

Lemma F2Q_representable (f : float) : representable f.
Proof. apply fl_representable. Qed.

(** ** The sampling monad *)

Lemma bind_Done {A B} (c : Rand A) (k : A -> Rand B) tape b tape'' :
  bind c k tape = Done (b, tape'') ->
  exists a tape', c tape = Done (a, tape') /\ k a tape' = Done (b, tape'').
Proof.
  unfold bind. destruct (c tape) as [[a tape']| |]; try discriminate.
  intros H. now exists a, tape'.
Qed.

Lemma lift_Done {A} (c : outcome A) tape a tape' :
  lift c tape = Done (a, tape') -> c = Done a /\ tape' = tape.
Proof.
  unfold lift, obind. destruct c; try discriminate.
  intros H. inversion H. auto.
Qed.

Lemma ret_Done {A} (a : A) tape b tape' :
  ret a tape = Done (b, tape') -> b = a /\ tape' = tape.
Proof. unfold ret. intros H. inversion H. auto. Qed.

Lemma obind_Done {A B} (c : outcome A) (k : A -> outcome B) b :
  obind c k = Done b -> exists a, c = Done a /\ k a = Done b.
Proof.
  destruct c; simpl; try discriminate. intros H. now exists a.
Qed.

(** The function is its two phases in sequence. *)
Lemma _generate_task_data_phases config tape :
  _generate_task_data config tape
  = (d <- sample_draws config ;; lift (derive_state config d)) tape.
Proof.
  unfold _generate_task_data, sample_draws, derive_state, bind.
  destruct (randint _ _ tape) as [[sw t1]| |]; try reflexivity.
  destruct (randint _ _ t1) as [[tw0 t2]| |]; try reflexivity.
  destruct (while_ _ _ tw0 t2) as [[tw t3]| |]; try reflexivity.
  destruct (uniform _ _ t3) as [[fill t4]| |]; try reflexivity.
  unfold ret, lift, sampled_water_height; cbn [drawn_source_width drawn_target_width drawn_fill obind].
  destruct (truediv _ tw) as [q| |]; cbn [obind]; try reflexivity.
  destruct (Qgtb q _); cbn [obind]; try reflexivity.
  destruct (truediv _ sw) as [q'| |]; cbn [obind]; reflexivity.
Qed.

(** ** Truncation and true division *)

Lemma int_comp (x y : Q) : (x == y)%Q -> int x = int y.
Proof.
  intros E. unfold int. rewrite E. destruct (Qle_bool 0 y).
  - now apply Qfloor_comp.
  - now apply Qceiling_comp.
Qed.

(** On non-negative values [int] rounds down. *)
Lemma int_nonneg_floor (x : Q) : (0 <= x)%Q -> int x = Qfloor x.
Proof.
  intros H. unfold int. apply Qle_bool_iff in H. now rewrite H.
Qed.

Lemma int_inject (n : Z) : int (inject_Z n) = n.
Proof.
  unfold int. destruct (Qle_bool 0 (inject_Z n)).
  - apply Qfloor_Z.
  - apply Qceiling_Z.
Qed.

(** [int] is monotone. *)
Lemma int_le (x y : Q) : (x <= y)%Q -> int x <= int y.
Proof.
  intros Hxy. unfold int.
  destruct (Qle_bool 0 x) eqn:Hx; destruct (Qle_bool 0 y) eqn:Hy.
  - now apply Qfloor_resp_le.
  - apply Qle_bool_iff in Hx.
    assert (Hy' : ~ (0 <= y)%Q) by (rewrite <- Qle_bool_iff; congruence).
    exfalso. apply Hy'. now apply Qle_trans with x.
  - assert (Hx' : ~ (0 <= x)%Q) by (rewrite <- Qle_bool_iff; congruence).
    apply Qnot_le_lt in Hx'.
    assert (Qceiling x <= 0).
    { rewrite <- (Qceiling_Z 0). apply Qceiling_resp_le. now apply Qlt_le_weak. }
    assert (0 <= Qfloor y).
    { rewrite <- (Qfloor_Z 0). apply Qfloor_resp_le. now apply Qle_bool_iff. }
    lia.
  - now apply Qceiling_resp_le.
Qed.

Lemma int_bounds (x : Q) (h : Z) :
  (0 <= x)%Q -> (x <= inject_Z h)%Q -> 0 <= int x <= h.
Proof.
  intros H0 Hh. split.
  - rewrite <- (int_inject 0). now apply int_le.
  - rewrite <- (int_inject h). now apply int_le.
Qed.

(** A value in [[n, n + 1)] truncates to [n]. *)
Lemma int_unique (x : Q) (n : Z) :
  0 <= n -> (inject_Z n <= x)%Q -> (x < inject_Z (n + 1))%Q -> int x = n.
Proof.
  intros Hn L U.
  assert (X0 : (0 <= x)%Q).
  { apply Qle_trans with (inject_Z n); [|assumption].
    now rewrite <- (Zle_Qle 0). }
  rewrite (int_nonneg_floor x X0).
  assert (A : n <= Qfloor x).
  { rewrite <- (Qfloor_Z n). now apply Qfloor_resp_le. }
  assert (B : Qfloor x < n + 1).
  { rewrite Zlt_Qlt. apply Qle_lt_trans with x; [apply Qfloor_le | assumption]. }
  lia.
Qed.

(** The exact quotient of two integers, between the floor quotient and
    its successor less [1 / b]. *)
Lemma exact_quotient_bounds (a b : Z) :
  0 < b ->
  (inject_Z (a / b) <= inject_Z a / inject_Z b)%Q /\
  (inject_Z a / inject_Z b
   <= inject_Z (a / b + 1) - 1 / inject_Z b)%Q.
Proof.
  intros Hb.
  assert (B : (0 < inject_Z b)%Q) by (now rewrite <- (Zlt_Qlt 0)).
  pose proof (Z.div_mod a b ltac:(lia)) as E.
  pose proof (Z.mod_pos_bound a b Hb) as R.
  assert (L : (inject_Z (b * (a / b)) <= inject_Z a)%Q)
    by (rewrite <- Zle_Qle; lia).
  assert (U : (inject_Z a <= inject_Z (b * (a / b + 1) - 1))%Q)
    by (rewrite <- Zle_Qle; lia).
  unfold Zminus in U.
  rewrite inject_Z_plus, inject_Z_mult in U. rewrite inject_Z_mult in L.
  change (inject_Z (- (1))) with (- (1))%Q in U.
  set (qb := inject_Z b) in *. set (qa := inject_Z a) in *.
  set (qn := inject_Z (a / b)) in *. set (qm := inject_Z (a / b + 1)) in *.
  split.
  - apply Qle_shift_div_l; [assumption|]. lra.
  - apply Qle_shift_div_r; [assumption|].
    setoid_replace ((qm - 1 / qb) * qb)%Q with (qm * qb - 1)%Q
      by (field; lra).
    lra.
Qed.

(** Below 2^53 the rounded quotient truncates to the floor quotient. *)
Lemma int_quotient (a b : Z) :
  0 <= a < 2 ^ 53 -> 0 < b -> int (quotient a b) = a / b.
Proof.
  intros Ha Hb. unfold quotient.
  assert (B : (0 < inject_Z b)%Q) by (now rewrite <- (Zlt_Qlt 0)).
  assert (A0 : (0 <= inject_Z a)%Q) by (rewrite <- (Zle_Qle 0); lia).
  assert (A1 : (inject_Z a <= inject_Z (2 ^ 53 - 1))%Q)
    by (rewrite <- Zle_Qle; lia).
  change (inject_Z (2 ^ 53 - 1)) with 9007199254740991%Q in A1.
  destruct (exact_quotient_bounds a b Hb) as [L U].
  assert (N0 : 0 <= a / b) by (apply Z.div_pos; lia).
  assert (N1 : a / b <= a) by (apply Z.div_le_upper_bound; nia).
  assert (Q0 : (0 <= inject_Z a / inject_Z b)%Q)
    by (apply Qle_shift_div_l; [assumption | lra]).
  apply int_unique; [assumption| |].
  - rewrite <- (fl_Z (a / b)) by lia. now apply fl_mono.
  - destruct (fl_error_nonneg _ Q0) as [_ E].
    change (1 # 2 ^ 53)%Q with (1 # 9007199254740992)%Q in E.
    assert (D : (inject_Z a / inject_Z b * inject_Z b == inject_Z a)%Q)
      by (field; lra).
    assert (I : (1 / inject_Z b * inject_Z b == 1)%Q) by (field; lra).
    set (q := (inject_Z a / inject_Z b)%Q) in *.
    set (r := (1 / inject_Z b)%Q) in *.
    set (qb := inject_Z b) in *. set (qa := inject_Z a) in *.
    set (f := fl q) in *. set (m := inject_Z (a / b + 1)) in *.
    assert (S : (q * (1 # 9007199254740992) < r)%Q).
    { apply (Qmult_lt_r _ _ qb B). nra. }
    lra.
Qed.

Lemma quotient_nonneg (a b : Z) : 0 <= a -> 0 < b -> (0 <= quotient a b)%Q.
Proof.
  intros Ha Hb. apply fl_nonneg.
  apply Qle_shift_div_l.
  - now rewrite <- (Zlt_Qlt 0).
  - rewrite Qmult_0_l. now rewrite <- (Zle_Qle 0).
Qed.

(** The overflow comparison, in integers. *)
Lemma Qgtb_quotient (a b t : Z) :
  0 <= a < 2 ^ 53 -> 0 < b ->
  Qgtb (quotient a b) (inject_Z t) = (t * b <? a).
Proof.
  intros Ha Hb. unfold quotient, Qgtb.
  assert (B : (0 < inject_Z b)%Q) by (now rewrite <- (Zlt_Qlt 0)).
  assert (A0 : (0 <= inject_Z a)%Q) by (rewrite <- (Zle_Qle 0); lia).
  assert (A1 : (inject_Z a <= inject_Z (2 ^ 53 - 1))%Q)
    by (rewrite <- Zle_Qle; lia).
  change (inject_Z (2 ^ 53 - 1)) with 9007199254740991%Q in A1.
  assert (Q0 : (0 <= inject_Z a / inject_Z b)%Q)
    by (apply Qle_shift_div_l; [assumption | lra]).
  assert (D : (inject_Z a / inject_Z b * inject_Z b == inject_Z a)%Q)
    by (field; lra).
  assert (I : (1 / inject_Z b * inject_Z b == 1)%Q) by (field; lra).
  destruct (t * b <? a) eqn:E.
  - apply Z.ltb_lt in E. apply negb_true_iff.
    destruct (Qle_bool _ _) eqn:C; [|reflexivity]. exfalso.
    apply Qle_bool_iff in C.
    destruct (fl_error_nonneg _ Q0) as [F _].
    change (1 # 2 ^ 53)%Q with (1 # 9007199254740992)%Q in F.
    assert (T : (inject_Z (t * b + 1) <= inject_Z a)%Q)
      by (rewrite <- Zle_Qle; lia).
    rewrite inject_Z_plus, inject_Z_mult in T.
    change (inject_Z 1) with 1%Q in T.
    set (q := (inject_Z a / inject_Z b)%Q) in *.
    set (r := (1 / inject_Z b)%Q) in *.
    set (qb := inject_Z b) in *. set (qa := inject_Z a) in *.
    set (f := fl q) in *. set (qt := inject_Z t) in *.
    assert (S : (q * (1 # 9007199254740992) < r)%Q).
    { apply (Qmult_lt_r _ _ qb B). nra. }
    assert (G : (qt + r <= q)%Q).
    { apply (Qmult_le_r _ _ qb B). nra. }
    lra.
  - apply Z.ltb_ge in E. apply negb_false_iff, Qle_bool_iff.
    assert (T : (inject_Z a <= inject_Z (t * b))%Q)
      by (rewrite <- Zle_Qle; lia).
    rewrite inject_Z_mult in T.
    assert (G : (inject_Z a / inject_Z b <= inject_Z t)%Q)
      by (apply Qle_shift_div_r; assumption).
    destruct (Z_le_gt_dec t (2 ^ 53)) as [S|S].
    + assert (T0 : 0 <= t) by nia.
      rewrite <- (fl_Z t) by lia. now apply fl_mono.
    + apply Qle_trans with (inject_Z (2 ^ 53)).
      * rewrite <- (fl_Z (2 ^ 53)) by (simpl; lia). apply fl_mono.
        apply Qle_shift_div_r; [assumption|].
        assert (B1 : (inject_Z 1 <= inject_Z b)%Q) by (rewrite <- Zle_Qle; lia).
        change (inject_Z 1) with 1%Q in B1.
        change (inject_Z (2 ^ 53)) with 9007199254740992%Q.
        set (qb := inject_Z b) in *. set (qa := inject_Z a) in *. nra.
      * rewrite <- Zle_Qle. lia.
Qed.

Lemma truediv_Done (a b : Z) (q : Q) :
  truediv a b = Done q -> b <> 0 /\ q = quotient a b.
Proof.
  unfold truediv. destruct (b =? 0) eqn:E; try discriminate.
  apply Z.eqb_neq in E. intros H. inversion H. auto.
Qed.

Lemma truediv_nonzero (a b : Z) :
  b <> 0 -> truediv a b = Done (quotient a b).
Proof.
  intros Hb. unfold truediv. apply Z.eqb_neq in Hb. now rewrite Hb.
Qed.

(** ** Draws *)

Lemma randint_Done (a b : Z) tape v tape' :
  randint a b tape = Done (v, tape') ->
  a <= v <= b /\ exists k, tape = k :: tape' /\ v = a + k mod (b + 1 - a).
Proof.
  unfold randint. destruct (0 <? b + 1 - a) eqn:W.
  - apply Z.ltb_lt in W. unfold bind, next_raw, ret.
    destruct tape as [|k rest]; try discriminate.
    intros H. inversion H; subst. split.
    + pose proof (Z.mod_pos_bound k (b + 1 - a) W). lia.
    + now exists k.
  - discriminate.
Qed.


Lemma randint_cons (a b k : Z) tape :
  a <= b -> randint a b (k :: tape) = Done (a + k mod (b + 1 - a), tape).
Proof.
  intros H. unfold randint.
  destruct (0 <? b + 1 - a) eqn:W; [reflexivity | apply Z.ltb_ge in W; lia].
Qed.

Lemma random_Done tape u tape' :
  random tape = Done (u, tape') ->
  (0 <= u)%Q /\ (u <= 1 - (1 # 2 ^ 53))%Q /\ exists k, tape = k :: tape'.
Proof.
  unfold random, bind, next_raw, ret.
  destruct tape as [|k rest]; try discriminate.
  intros H. inversion H; subst.
  assert (B : 0 <= k mod 2 ^ 53 < 2 ^ 53) by (apply Z.mod_pos_bound; lia).
  repeat split.
  - unfold Qle; simpl. lia.
  - unfold Qle, Qminus, Qplus, Qopp; simpl.
    change (Z.pow_pos 2 53) with (2 ^ 53) in *. lia.
  - now exists k.
Qed.

(** [uniform] stays between its two bounds, whichever is the larger:
    rounding the sum cannot carry it past a bound that is itself a
    float. *)
Lemma uniform_Done (a b : Q) tape x tape' :
  representable a -> representable b ->
  uniform a b tape = Done (x, tape') ->
  ((a <= b)%Q -> (a <= x)%Q /\ (x <= b)%Q) /\
  ((b <= a)%Q -> (b <= x)%Q /\ (x <= a)%Q) /\
  exists k, tape = k :: tape'.
Proof.
  unfold uniform. intros Ra Rb H. apply bind_Done in H as (u & t & Hu & H).
  apply ret_Done in H as [-> ->].
  apply random_Done in Hu as (U0 & U1 & K).
  unfold fadd, fmul, fsub.
  split; [|split; [|assumption]].
  - intros L.
    destruct (fl_scaled_bounds (b - a) u ltac:(lra) U0 U1) as [W0 W1].
    set (w := fl (fl (b - a) * u)) in *.
    split.
    + apply fl_above; [assumption | lra].
    + apply fl_below; [assumption | lra].
  - intros L.
    destruct (fl_scaled_bounds (a - b) u ltac:(lra) U0 U1) as [W0 W1].
    assert (E1 : (fl (b - a) == - fl (a - b))%Q).
    { rewrite <- fl_opp. apply fl_comp. ring. }
    assert (E2 : (fl (fl (b - a) * u) == - fl (fl (a - b) * u))%Q).
    { rewrite <- fl_opp. apply fl_comp. rewrite E1. ring. }
    assert (E3 : (fl (a + fl (fl (b - a) * u))
                  == fl (a - fl (fl (a - b) * u)))%Q).
    { apply fl_comp. rewrite E2. ring. }
    rewrite E3.
    set (w := fl (fl (a - b) * u)) in *.
    split.
    + apply fl_above; [assumption | lra].
    + apply fl_below; [assumption | lra].
Qed.

(** ** The rejection loop *)

(** Hoare rule for [while_fuel]: an invariant of the body holds on exit,
    together with the negated guard. *)
Lemma while_fuel_Done {S : Type} (I : S -> Prop) (cond : S -> bool)
    (body : S -> Rand S) :
  (forall s tape s' tape',
      I s -> cond s = true -> body s tape = Done (s', tape') -> I s') ->
  forall fuel s tape s' tape',
    I s -> while_fuel fuel cond body s tape = Done (s', tape') ->
    I s' /\ cond s' = false.
Proof.
  intros Hbody. induction fuel as [|fuel IH]; intros s tape s' tape' Hs; simpl.
  - destruct (cond s) eqn:C; try discriminate.
    intros H. inversion H; subst. auto.
  - destruct (cond s) eqn:C.
    + destruct (body s tape) as [[s1 t1]| |] eqn:B; try discriminate.
      apply IH. eapply Hbody; eauto.
    + intros H. inversion H; subst. auto.
Qed.

(** Fuel beyond the tape's length is never used by a body that reads the
    tape at every turn. *)
Lemma while_fuel_enough {St : Type} (cond : St -> bool)
    (body : St -> Rand St) :
  (forall s tape s' tape',
      body s tape = Done (s', tape') ->
      (List.length tape' < List.length tape)%nat) ->
  forall fuel1 fuel2 s tape,
    (List.length tape < fuel1)%nat -> (List.length tape < fuel2)%nat ->
    while_fuel fuel1 cond body s tape = while_fuel fuel2 cond body s tape.
Proof.
  intros Hreads. induction fuel1 as [|fuel1 IH]; intros fuel2 s tape H1 H2.
  - lia.
  - destruct fuel2 as [|fuel2]; [lia|]. simpl.
    destruct (cond s); [|reflexivity].
    destruct (body s tape) as [[s1 t1]| |] eqn:B; try reflexivity.
    apply Hreads in B. apply IH; lia.
Qed.

Lemma randint_reads (a b : Z) tape v tape' :
  randint a b tape = Done (v, tape') ->
  (List.length tape' < List.length tape)%nat.
Proof.
  intros H. apply randint_Done in H as (_ & k & -> & _). simpl. lia.
Qed.

Lemma while_Done {S : Type} (I : S -> Prop) (cond : S -> bool)
    (body : S -> Rand S) :
  (forall s tape s' tape',
      I s -> cond s = true -> body s tape = Done (s', tape') -> I s') ->
  forall s tape s' tape',
    I s -> while_ cond body s tape = Done (s', tape') ->
    I s' /\ cond s' = false.
Proof.
  intros Hbody s tape s' tape'. unfold while_. now apply while_fuel_Done.
Qed.

(** What a successful sampling phase guarantees. *)
Lemma sample_draws_Done config tape d tape' :
  sample_draws config tape = Done (d, tape') ->
  min_container_width config <= drawn_source_width d
    <= max_container_width config /\
  min_container_width config <= drawn_target_width d
    <= max_container_width config /\
  20 <= Z.abs (drawn_target_width d - drawn_source_width d) /\
  ((min_fill_ratio config <= max_fill_ratio config)%Q ->
   (min_fill_ratio config <= drawn_fill d)%Q /\
   (drawn_fill d <= max_fill_ratio config)%Q) /\
  ((max_fill_ratio config <= min_fill_ratio config)%Q ->
   (max_fill_ratio config <= drawn_fill d)%Q /\
   (drawn_fill d <= min_fill_ratio config)%Q).
Proof.
  unfold sample_draws. intros H.
  apply bind_Done in H as (sw & t1 & Hsw & H).
  apply bind_Done in H as (tw0 & t2 & Htw0 & H).
  apply bind_Done in H as (tw & t3 & Hloop & H).
  apply bind_Done in H as (fill & t4 & Hfill & H).
  apply ret_Done in H as [-> ->]. simpl.
  apply randint_Done in Hsw as [Hsw _].
  apply randint_Done in Htw0 as [Htw0 _].
  apply (while_Done
           (fun tw => min_container_width config <= tw
                      <= max_container_width config)) in Hloop as [Htw Hexit];
    [ | intros s ta s' ta' _ _ Hb; now apply randint_Done in Hb | assumption ].
  apply Z.ltb_ge in Hexit.
  apply uniform_Done in Hfill as (Hup & Hdown & _);
    [ | apply F2Q_representable | apply F2Q_representable ].
  auto.
Qed.

(** ** The derivation phase *)

Lemma _generate_task_data_Done config tape st tape' :
  _generate_task_data config tape = Done (st, tape') ->
  exists d,
    sample_draws config tape = Done (d, tape') /\
    derive_state config d = Done st.
Proof.
  rewrite _generate_task_data_phases. intros H.
  apply bind_Done in H as (d & t & Hd & H).
  apply lift_Done in H as [H ->]. now exists d.
Qed.

(** With widths that are not zero neither division fails. *)
Lemma derive_state_nonzero config d :
  drawn_source_width d <> 0 -> drawn_target_width d <> 0 ->
  derive_state config d
  = Done (if overflows config d then
            {| source_width := drawn_source_width d;
               source_height := container_height config;
               source_water_height :=
                 int (quotient (drawn_target_width d * container_height config)
                               (drawn_source_width d));
               target_width := drawn_target_width d;
               target_height := container_height config;
               target_water_height := container_height config;
               water_volume := drawn_target_width d * container_height config;
               type := "default" |}
          else
            {| source_width := drawn_source_width d;
               source_height := container_height config;
               source_water_height := sampled_water_height config d;
               target_width := drawn_target_width d;
               target_height := container_height config;
               target_water_height :=
                 int (quotient
                        (drawn_source_width d * sampled_water_height config d)
                        (drawn_target_width d));
               water_volume :=
                 drawn_source_width d * sampled_water_height config d;
               type := "default" |}).
Proof.
  intros Hsw Htw. unfold derive_state, overflows.
  rewrite truediv_nonzero by assumption. cbn [obind].
  destruct (Qgtb _ _).
  - rewrite truediv_nonzero by assumption. cbn [obind].
    now rewrite int_inject.
  - cbn [obind]. reflexivity.
Qed.

(** The sampled water height lies between 0 and the container height,
    for a height that is a float and a fill ratio in [[0, 1]]. *)
Lemma sampled_water_height_nonneg config d :
  0 <= container_height config -> (0 <= drawn_fill d)%Q ->
  0 <= sampled_water_height config d.
Proof.
  intros Hh H0. unfold sampled_water_height.
  rewrite <- (int_inject 0). apply int_le.
  change (inject_Z 0) with 0%Q. apply fl_nonneg.
  pose proof (to_float_nonneg _ Hh). nra.
Qed.

Lemma sampled_water_height_bounds config d :
  0 <= container_height config <= 2 ^ 53 ->
  (0 <= drawn_fill d)%Q -> (drawn_fill d <= 1)%Q ->
  0 <= sampled_water_height config d <= container_height config.
Proof.
  intros Hh H0 H1. split.
  - apply sampled_water_height_nonneg; [lia | assumption].
  - unfold sampled_water_height.
    rewrite <- (int_inject (container_height config)) at 2. apply int_le.
    pose proof (to_float_exact (container_height config) ltac:(lia)) as E.
    pose proof (to_float_nonneg (container_height config) ltac:(lia)) as P.
    apply fl_below; [apply representable_Z; lia | nra].
Qed.

Lemma derive_state_geometry config d st :
  derive_state config d = Done st ->
  source_width st = drawn_source_width d /\
  target_width st = drawn_target_width d /\
  source_height st = container_height config /\
  target_height st = container_height config.
Proof.
  unfold derive_state. intros H.
  apply obind_Done in H as (q & _ & H).
  apply obind_Done in H as ([[twh vol] swh] & _ & H).
  injection H as <-. cbn. auto.
Qed.

Lemma drawn_fill_bounds config tape d tape' :
  well_formed config ->
  sample_draws config tape = Done (d, tape') ->
  (0 <= drawn_fill d)%Q /\ (drawn_fill d <= 1)%Q.
Proof.
  intros [_ _ Hlo Hord Hhi] Hd.
  pose proof (sample_draws_Done _ _ _ _ Hd) as (_ & _ & _ & Hup & _).
  destruct (Hup Hord). split; lra.
Qed.

Example plain_run :
  _generate_task_data default_config plain_tape = Done (plain_state, []).
Proof. vm_compute. reflexivity. Qed.

Example overflow_run :
  _generate_task_data default_config overflow_tape = Done (overflow_state, []).
Proof. vm_compute. reflexivity. Qed.

Example wide_run :
  _generate_task_data default_config wide_tape = Done (wide_state, []).
Proof. vm_compute. reflexivity. Qed.

Lemma div_residue (a b : Z) : 0 < b -> Z.abs (a - b * (a / b)) < b.
Proof.
  intros Hb. pose proof (Z.div_mod a b ltac:(lia)) as E.
  pose proof (Z.mod_pos_bound a b Hb) as B. lia.
Qed.

(** While every product of a width and a height stays below 2^53, both
    divisions are exact enough: the truncations are floor quotients and
    the overflow test is the comparison of integers. *)
Lemma derive_state_exact config d :
  1 <= drawn_source_width d <= max_container_width config ->
  1 <= drawn_target_width d <= max_container_width config ->
  0 <= container_height config ->
  max_container_width config * container_height config < 2 ^ 53 ->
  (0 <= drawn_fill d)%Q -> (drawn_fill d <= 1)%Q ->
  0 <= sampled_water_height config d <= container_height config /\
  overflows config d
  = (container_height config * drawn_target_width d
     <? drawn_source_width d * sampled_water_height config d) /\
  derive_state config d
  = Done (if container_height config * drawn_target_width d
             <? drawn_source_width d * sampled_water_height config d
          then
            {| source_width := drawn_source_width d;
               source_height := container_height config;
               source_water_height :=
                 (drawn_target_width d * container_height config)
                 / drawn_source_width d;
               target_width := drawn_target_width d;
               target_height := container_height config;
               target_water_height := container_height config;
               water_volume := drawn_target_width d * container_height config;
               type := "default" |}
          else
            {| source_width := drawn_source_width d;
               source_height := container_height config;
               source_water_height := sampled_water_height config d;
               target_width := drawn_target_width d;
               target_height := container_height config;
               target_water_height :=
                 (drawn_source_width d * sampled_water_height config d)
                 / drawn_target_width d;
               water_volume :=
                 drawn_source_width d * sampled_water_height config d;
               type := "default" |}).
Proof.
  intros Hsw Htw Hh Hsize F0 F1.
  assert (S : 0 <= sampled_water_height config d <= container_height config)
    by (apply sampled_water_height_bounds; [nia | assumption | assumption]).
  assert (O : overflows config d
              = (container_height config * drawn_target_width d
                 <? drawn_source_width d * sampled_water_height config d)).
  { unfold overflows. apply Qgtb_quotient; [nia | lia]. }
  split; [exact S | split; [exact O|]].
  rewrite derive_state_nonzero by lia. rewrite O.
  destruct (_ <? _).
  - now rewrite int_quotient by nia.
  - now rewrite int_quotient by nia.
Qed.

(** ** The physical model *)

(** C1, as amended (volume conservation): on a well-formed configuration
    whose largest width times the container height stays below 2^53,
    every state [_generate_task_data] returns has
    [|source_width * source_water_height - target_width * target_water_height|]
    below [source_width] when the provisional target height exceeded the
    container height (the clamp fired) and below [target_width] when it
    did not: less than one unit of water height. *)
Theorem volume_conservation config tape st tape' :
  well_formed config ->
  max_container_width config * container_height config < 2 ^ 53 ->
  _generate_task_data config tape = Done (st, tape') ->
  exists d,
    sample_draws config tape = Done (d, tape') /\
    overflows config d
    = (container_height config * drawn_target_width d
       <? drawn_source_width d * sampled_water_height config d) /\
    let discrepancy :=
      Z.abs (source_width st * source_water_height st
             - target_width st * target_water_height st) in
    if container_height config * drawn_target_width d
       <? drawn_source_width d * sampled_water_height config d
    then discrepancy < source_width st
    else discrepancy < target_width st.
Proof.
  intros Hwf Hsize H.
  apply _generate_task_data_Done in H as (d & Hd & Hst).
  exists d. split; [assumption|].
  pose proof (sample_draws_Done _ _ _ _ Hd) as (Hsw & Htw & _).
  destruct (drawn_fill_bounds _ _ _ _ Hwf Hd) as [F0 F1].
  destruct Hwf as [Hmin Hh _ _ _].
  destruct (derive_state_exact config d ltac:(lia) ltac:(lia) Hh Hsize F0 F1)
    as (_ & O & E).
  split; [exact O|].
  rewrite E in Hst. injection Hst as <-.
  destruct (_ <? _); cbn.
  - pose proof (div_residue
                  (drawn_target_width d * container_height config)
                  (drawn_source_width d) ltac:(lia)).
    lia.
  - apply div_residue. lia.
Qed.

Lemma default_config_well_formed : well_formed default_config.
Proof.
  constructor; simpl; try lia; vm_compute; discriminate.
Defined.

Lemma volume_conservation_witness :
  exists d,
    sample_draws default_config overflow_tape = Done (d, []) /\
    overflows default_config d
    = (container_height default_config * drawn_target_width d
       <? drawn_source_width d * sampled_water_height default_config d) /\
    let discrepancy :=
      Z.abs (source_width overflow_state * source_water_height overflow_state
             - target_width overflow_state
               * target_water_height overflow_state) in
    if container_height default_config * drawn_target_width d
       <? drawn_source_width d * sampled_water_height default_config d
    then discrepancy < source_width overflow_state
    else discrepancy < target_width overflow_state.
Proof.
  apply (volume_conservation default_config overflow_tape overflow_state []).
  - exact default_config_well_formed.
  - simpl. lia.
  - vm_compute. reflexivity.
Defined.

(** C1 as stated fails: with a container height of 2^60 and the widths 1
    and 21, a fill ratio of 0.55 gives the source the water height
    634106827533765888 and the target, without any clamp,
    [int(634106827533765888 / 21)]: floats of that size are multiples of
    4, the quotient comes out as 30195563215893612, and the volumes
    differ by 36, more than the target width. *)
Lemma volume_drifts_beyond_width :
  well_formed tall_config /\
  exists st d,
    _generate_task_data tall_config tall_tape = Done (st, []) /\
    sample_draws tall_config tall_tape = Done (d, []) /\
    overflows tall_config d = false /\
    source_width st = 1 /\ target_width st = 21 /\
    Z.abs (source_width st * source_water_height st
           - target_width st * target_water_height st) = 36.
Proof.
  split.
  - constructor; simpl; try lia; vm_compute; discriminate.
  - eexists. eexists.
    split; [vm_compute; reflexivity|].
    split; [vm_compute; reflexivity|].
    repeat split; vm_compute; reflexivity.
Qed.

(** C2, as amended (overflow clamp re-derivation): on a well-formed
    configuration whose largest width times the container height stays
    below 2^53, when the provisional target height
    [source_width * sampled / target_width] exceeds [target_height] the
    returned state has [target_water_height] equal to [target_height],
    [water_volume] equal to [target_width * target_height] and
    [source_water_height] equal to the floor of
    [water_volume / source_width]; otherwise it keeps the sampled
    [source_water_height] and has [target_water_height] equal to the floor
    of [source_width * source_water_height / target_width].  The floors
    are integer floor divisions. *)
Theorem overflow_clamp_rederivation config tape st tape' :
  well_formed config ->
  max_container_width config * container_height config < 2 ^ 53 ->
  _generate_task_data config tape = Done (st, tape') ->
  exists d,
    sample_draws config tape = Done (d, tape') /\
    source_width st = drawn_source_width d /\
    target_width st = drawn_target_width d /\
    target_height st = container_height config /\
    let sampled :=
      int (fmul (to_float (container_height config)) (drawn_fill d)) in
    if target_height st * target_width st <? source_width st * sampled
    then
      target_water_height st = target_height st /\
      water_volume st = target_width st * target_height st /\
      source_water_height st = water_volume st / source_width st
    else
      source_water_height st = sampled /\
      water_volume st = source_width st * source_water_height st /\
      target_water_height st
      = source_width st * source_water_height st / target_width st.
Proof.
  intros Hwf Hsize H.
  apply _generate_task_data_Done in H as (d & Hd & Hst).
  exists d. split; [assumption|].
  pose proof (sample_draws_Done _ _ _ _ Hd) as (Hsw & Htw & _).
  destruct (drawn_fill_bounds _ _ _ _ Hwf Hd) as [F0 F1].
  destruct Hwf as [Hmin Hh _ _ _].
  destruct (derive_state_exact config d ltac:(lia) ltac:(lia) Hh Hsize F0 F1)
    as (_ & _ & E).
  rewrite E in Hst. injection Hst as <-.
  fold (sampled_water_height config d). cbv zeta.
  destruct (container_height config * drawn_target_width d
            <? drawn_source_width d * sampled_water_height config d) eqn:O;
    cbn [source_width source_water_height target_width target_height
         target_water_height water_volume];
    rewrite O; repeat split.
Qed.

Lemma overflow_clamp_rederivation_witness :
  (exists d,
      sample_draws default_config overflow_tape = Done (d, []) /\
      source_width overflow_state = drawn_source_width d /\
      target_width overflow_state = drawn_target_width d /\
      target_height overflow_state = container_height default_config /\
      let sampled :=
        int (fmul (to_float (container_height default_config))
                  (drawn_fill d)) in
      if target_height overflow_state * target_width overflow_state
         <? source_width overflow_state * sampled
      then
        target_water_height overflow_state = target_height overflow_state /\
        water_volume overflow_state
        = target_width overflow_state * target_height overflow_state /\
        source_water_height overflow_state
        = water_volume overflow_state / source_width overflow_state
      else
        source_water_height overflow_state = sampled /\
        water_volume overflow_state
        = source_width overflow_state * source_water_height overflow_state /\
        target_water_height overflow_state
        = source_width overflow_state * source_water_height overflow_state
          / target_width overflow_state) /\
  (exists d,
      sample_draws default_config plain_tape = Done (d, []) /\
      source_width plain_state = drawn_source_width d /\
      target_width plain_state = drawn_target_width d /\
      target_height plain_state = container_height default_config /\
      let sampled :=
        int (fmul (to_float (container_height default_config))
                  (drawn_fill d)) in
      if target_height plain_state * target_width plain_state
         <? source_width plain_state * sampled
      then
        target_water_height plain_state = target_height plain_state /\
        water_volume plain_state
        = target_width plain_state * target_height plain_state /\
        source_water_height plain_state
        = water_volume plain_state / source_width plain_state
      else
        source_water_height plain_state = sampled /\
        water_volume plain_state
        = source_width plain_state * source_water_height plain_state /\
        target_water_height plain_state
        = source_width plain_state * source_water_height plain_state
          / target_width plain_state).
Proof.
  split.
  - apply (overflow_clamp_rederivation
             default_config overflow_tape overflow_state []).
    + exact default_config_well_formed.
    + simpl. lia.
    + vm_compute. reflexivity.
  - apply (overflow_clamp_rederivation
             default_config plain_tape plain_state []).
    + exact default_config_well_formed.
    + simpl. lia.
    + vm_compute. reflexivity.
Defined.

(** C2 as stated fails: with the widths 200000000000099 and
    99000000000049 and the sampled height 110 the clamp fires, the volume
    becomes 99000000000049 * 200 = 19800000000009800, and the float
    quotient by the source width rounds up to 99.0: the source water
    height is 99, while the floor of the quotient is 98. *)
Lemma rederived_height_not_floor :
  well_formed broad_config /\
  exists st d,
    _generate_task_data broad_config broad_tape = Done (st, []) /\
    sample_draws broad_config broad_tape = Done (d, []) /\
    sampled_water_height broad_config d = 110 /\
    (inject_Z (target_height st)
     < inject_Z (source_width st * 110) / inject_Z (target_width st))%Q /\
    target_water_height st = target_height st /\
    water_volume st = target_width st * target_height st /\
    source_water_height st = 99 /\
    water_volume st / source_width st = 98 /\
    Qfloor (inject_Z (water_volume st) / inject_Z (source_width st)) = 98.
Proof.
  split.
  - constructor; simpl; try lia; vm_compute; discriminate.
  - eexists. eexists.
    split; [vm_compute; reflexivity|].
    split; [vm_compute; reflexivity|].
    repeat split; vm_compute; reflexivity.
Qed.

(** The two sample runs: without overflow the sampled height 110 is kept
    and the target gets [int(11000 / 65) = 169]; with overflow the sampled
    height 160 is discarded for [int(12000 / 150) = 80]. *)
Example plain_scenario :
  exists d,
    sample_draws default_config plain_tape = Done (d, []) /\
    sampled_water_height default_config d = 110 /\
    overflows default_config d = false /\
    derive_state default_config d = Done plain_state.
Proof.
  eexists. split; [vm_compute; reflexivity|].
  repeat split; vm_compute; reflexivity.
Qed.

Example overflow_scenario :
  exists d,
    sample_draws default_config overflow_tape = Done (d, []) /\
    sampled_water_height default_config d = 160 /\
    overflows default_config d = true /\
    derive_state default_config d = Done overflow_state.
Proof.
  eexists. split; [vm_compute; reflexivity|].
  repeat split; vm_compute; reflexivity.
Qed.

(** The levels of a generated state, for a container height that is a
    float. *)
Lemma derived_levels config tape st tape' :
  well_formed config ->
  container_height config <= 2 ^ 53 ->
  _generate_task_data config tape = Done (st, tape') ->
  source_height st = container_height config /\
  target_height st = container_height config /\
  0 <= source_water_height st <= container_height config /\
  0 <= target_water_height st <= container_height config.
Proof.
  intros Hwf Hsize H.
  apply _generate_task_data_Done in H as (d & Hd & Hst).
  pose proof (sample_draws_Done _ _ _ _ Hd) as (Hsw & Htw & _).
  destruct (drawn_fill_bounds _ _ _ _ Hwf Hd) as [F0 F1].
  destruct Hwf as [Hmin Hh _ _ _].
  assert (B : 0 <= sampled_water_height config d <= container_height config)
    by (apply sampled_water_height_bounds; [lia | assumption | assumption]).
  assert (Psw : (0 < inject_Z (drawn_source_width d))%Q)
    by (rewrite <- (Zlt_Qlt 0); lia).
  assert (Ptw : (0 < inject_Z (drawn_target_width d))%Q)
    by (rewrite <- (Zlt_Qlt 0); lia).
  assert (Rh : representable (inject_Z (container_height config)))
    by (apply representable_Z; lia).
  rewrite derive_state_nonzero in Hst by lia.
  injection Hst as <-.
  destruct (overflows config d) eqn:O; cbn;
    (split; [reflexivity|]); (split; [reflexivity|]).
  - split; [|lia].
    apply int_bounds; [apply quotient_nonneg; nia|].
    unfold overflows, Qgtb in O. apply negb_true_iff in O.
    assert (W : drawn_target_width d <= drawn_source_width d).
    { destruct (Z_le_gt_dec (drawn_target_width d) (drawn_source_width d))
        as [L|G]; [assumption|exfalso].
      assert (C : Qle_bool
                    (quotient
                       (drawn_source_width d * sampled_water_height config d)
                       (drawn_target_width d))
                    (inject_Z (container_height config)) = true);
        [|congruence].
      apply Qle_bool_iff. apply fl_below; [assumption|].
      apply Qle_shift_div_r; [assumption|].
      rewrite <- inject_Z_mult, <- Zle_Qle. nia. }
    apply fl_below; [assumption|].
    apply Qle_shift_div_r; [assumption|].
    rewrite <- inject_Z_mult, <- Zle_Qle. nia.
  - split; [lia|].
    unfold overflows, Qgtb in O. apply negb_false_iff, Qle_bool_iff in O.
    apply int_bounds; [apply quotient_nonneg; nia | exact O].
Qed.

(** C3, as amended (no overflow): on a well-formed configuration whose
    container height is at most 2^53 every returned state has
    [0 <= target_water_height <= target_height] and
    [0 <= source_water_height <= source_height]. *)
Theorem no_overflow config tape st tape' :
  well_formed config ->
  container_height config <= 2 ^ 53 ->
  _generate_task_data config tape = Done (st, tape') ->
  0 <= target_water_height st <= target_height st /\
  0 <= source_water_height st <= source_height st.
Proof.
  intros Hwf Hsize H.
  destruct (derived_levels _ _ _ _ Hwf Hsize H) as (-> & -> & Hs & Ht).
  split; assumption.
Qed.

Lemma no_overflow_witness :
  0 <= target_water_height overflow_state <= target_height overflow_state /\
  0 <= source_water_height overflow_state <= source_height overflow_state.
Proof.
  apply (no_overflow default_config overflow_tape overflow_state []).
  - exact default_config_well_formed.
  - simpl. lia.
  - vm_compute. reflexivity.
Defined.

(** C3 as stated fails: a container height of 2^53 + 3 is not a float;
    with both fill ratios 1.0 the sampled height is
    [int(float(2**53 + 3) * 1.0) = 2^53 + 4], which is kept when the
    target is the wider container, and exceeds the source height. *)
Lemma source_water_above_height :
  well_formed brimful_config /\
  exists st,
    _generate_task_data brimful_config wide_tape = Done (st, []) /\
    source_height st = 2 ^ 53 + 3 /\
    source_water_height st = 2 ^ 53 + 4 /\
    ~ source_water_height st <= source_height st.
Proof.
  split.
  - constructor; simpl; try lia; vm_compute; discriminate.
  - eexists. split; [vm_compute; reflexivity|].
    repeat split; vm_compute; intros H; apply H; reflexivity.
Qed.

(** C4 (width separation): every state [_generate_task_data] returns has
    widths at least 20 apart.  The resampling loop can only be left with
    its guard false; a run whose draws never leave it returns nothing. *)
Theorem width_separation config tape st tape' :
  _generate_task_data config tape = Done (st, tape') ->
  20 <= Z.abs (source_width st - target_width st).
Proof.
  intros H.
  apply _generate_task_data_Done in H as (d & Hd & Hst).
  pose proof (sample_draws_Done _ _ _ _ Hd) as (_ & _ & Hsep & _).
  apply derive_state_geometry in Hst as (-> & -> & _).
  lia.
Qed.

Lemma width_separation_witness :
  20 <= Z.abs (source_width plain_state - target_width plain_state).
Proof.
  apply (width_separation default_config plain_tape plain_state []).
  vm_compute. reflexivity.
Defined.

(** ** The model returns once the tape holds an accepted draw *)

Lemma while_fuel_accepts config (source_width : Z) :
  min_container_width config <= max_container_width config ->
  forall rejected fuel r k_t rest,
    (List.length rejected < fuel)%nat ->
    Z.abs (width_draw config r - source_width) < 20 ->
    Forall (fun k => Z.abs (width_draw config k - source_width) < 20)
           rejected ->
    20 <= Z.abs (width_draw config k_t - source_width) ->
    while_fuel fuel
      (fun target_width => Z.abs (target_width - source_width) <? 20)
      (fun _ => randint (min_container_width config)
                        (max_container_width config))
      (width_draw config r) (rejected ++ k_t :: rest)
    = Done (width_draw config k_t, rest).
Proof.
  intros Hrange. induction rejected as [|k ks IH];
    intros fuel r k_t rest Hfuel Hr Hrej Hacc.
  - destruct fuel as [|fuel]; [simpl in Hfuel; lia|].
    simpl. apply Z.ltb_lt in Hr. rewrite Hr.
    rewrite randint_cons by assumption. fold (width_draw config k_t).
    destruct fuel; simpl;
      (destruct (Z.abs (width_draw config k_t - source_width) <? 20) eqn:E;
       [apply Z.ltb_lt in E; lia | reflexivity]).
  - destruct fuel as [|fuel]; [simpl in Hfuel; lia|].
    simpl. apply Z.ltb_lt in Hr. rewrite Hr.
    rewrite randint_cons by assumption. fold (width_draw config k).
    inversion Hrej; subst.
    apply IH; try assumption. simpl in Hfuel. lia.
Qed.



(** ** Loops over ranges *)

Lemma range_length (n : Z) : List.length (range n) = Z.to_nat n.
Proof. unfold range. now rewrite length_map, length_seq. Qed.

Lemma range_In (n i : Z) : In i (range n) <-> 0 <= i < n.
Proof.
  unfold range. rewrite in_map_iff. split.
  - intros (k & <- & Hk). apply in_seq in Hk. lia.
  - intros Hi. exists (Z.to_nat i). split; [lia|]. apply in_seq. lia.
Qed.

Lemma range_nth_error (n i : Z) :
  0 <= i < n -> nth_error (range n) (Z.to_nat i) = Some i.
Proof.
  intros Hi. unfold range.
  rewrite nth_error_map, nth_error_seq.
  destruct (Nat.ltb_spec (Z.to_nat i) (Z.to_nat n)); [|lia].
  simpl. f_equal. lia.
Qed.

(** A loop that appends the same value at every turn. *)
Lemma for_each_append_const {A B : Type} (items : list A) (x : B) :
  forall acc,
    for_each items (fun _ frames => Done (frames ++ [x])) acc
    = Done (acc ++ repeat x (List.length items)).
Proof.
  induction items as [|item rest IH]; intros acc; simpl.
  - now rewrite app_nil_r.
  - rewrite IH, <- app_assoc. reflexivity.
Qed.

(** A loop that appends one computed value per item, when no computation
    fails. *)
Lemma for_each_append_map {A B C : Type} (items : list A)
    (step : A -> outcome C) (build : A -> C -> B) (value : A -> C) :
  (forall item, In item items -> step item = Done (value item)) ->
  forall acc,
    for_each items
      (fun item frames => y <-! step item ;; Done (frames ++ [build item y]))
      acc
    = Done (acc ++ map (fun item => build item (value item)) items).
Proof.
  induction items as [|item rest IH]; intros Hstep acc; simpl.
  - now rewrite app_nil_r.
  - rewrite (Hstep item) by now left. cbn [obind].
    rewrite IH by (intros; apply Hstep; now right).
    rewrite <- app_assoc. reflexivity.
Qed.

(** ** The animation *)

(** The three phases, for any frame counts for which no division by zero
    occurs. *)
Lemma video_frames_phases config hold_frames animation_frames
    first_image final_image task_data :
  animation_frames <> 1 ->
  video_frames config hold_frames animation_frames
    first_image final_image task_data
  = Done (repeat first_image (Z.to_nat hold_frames)
          ++ map (transfer_frame config task_data animation_frames)
                 (range animation_frames)
          ++ repeat final_image (Z.to_nat (hold_frames * 2))).
Proof.
  intros Hn. unfold video_frames.
  rewrite for_each_append_const. cbn [obind].
  rewrite (for_each_append_map (range animation_frames)
             (fun i => truediv i (animation_frames - 1))
             (fun i progress =>
                _render_transfer_frame config task_data
                  (int (fmul (to_float (source_water_height task_data))
                             (fsub 1 (fsub 1 (fsquare (fsub 1 progress))))))
                  (int (fmul (to_float (target_water_height task_data))
                             (fsub 1 (fsquare (fsub 1 progress)))))
                  (fsub 1 (fsquare (fsub 1 progress))))
             (fun i => quotient i (animation_frames - 1))).
  - cbn [obind]. rewrite for_each_append_const.
    rewrite !range_length, <- app_assoc. reflexivity.
  - intros i _. apply truediv_nonzero. lia.
Qed.

Lemma transition_frame_at {A : Type} (a b : A) (f : Z -> A) (h k : nat)
    (n i : Z) :
  0 <= i < n ->
  nth_error (repeat a h ++ map f (range n) ++ repeat b k)
            (h + Z.to_nat i)
  = Some (f i).
Proof.
  intros Hi.
  rewrite nth_error_app2 by (rewrite repeat_length; lia).
  rewrite repeat_length.
  replace (h + Z.to_nat i - h)%nat with (Z.to_nat i) by lia.
  rewrite nth_error_app1 by (rewrite length_map, range_length; lia).
  rewrite nth_error_map, range_nth_error by assumption. reflexivity.
Qed.

Lemma water_heights_render config task_data source_water target_water progress :
  water_heights
    (_render_transfer_frame config task_data source_water target_water progress)
  = Some (source_water, target_water).
Proof.
  unfold _render_transfer_frame. destruct (image_size config). reflexivity.
Qed.

Lemma eased_first (n : Z) : (eased n 0 == 0)%Q.
Proof.
  unfold eased, quotient, fsub, fsquare.
  assert (E1 : (fl (inject_Z 0 / inject_Z (n - 1)) == 0)%Q).
  { rewrite fl_zero; [reflexivity|]. unfold Qdiv.
    change (inject_Z 0) with 0%Q. ring. }
  assert (E2 : (fl (1 - fl (inject_Z 0 / inject_Z (n - 1))) == 1)%Q).
  { rewrite (fl_comp _ 1); [apply fl_1 | rewrite E1; ring]. }
  set (s := fl (1 - fl (inject_Z 0 / inject_Z (n - 1)))) in *.
  assert (E3 : (fl (s * s) == 1)%Q).
  { rewrite (fl_comp _ 1); [apply fl_1 | rewrite E2; ring]. }
  rewrite (fl_comp _ 0); [reflexivity | rewrite E3; ring].
Qed.

Lemma eased_last (n : Z) : 2 <= n -> (eased n (n - 1) == 1)%Q.
Proof.
  intros Hn. unfold eased, quotient, fsub, fsquare.
  assert (Hnz : ~ (inject_Z (n - 1) == 0)%Q).
  { change 0%Q with (inject_Z 0). rewrite inject_Z_injective. lia. }
  assert (E1 : (fl (inject_Z (n - 1) / inject_Z (n - 1)) == 1)%Q).
  { rewrite (fl_comp _ 1); [apply fl_1|].
    unfold Qdiv. now apply Qmult_inv_r. }
  assert (E2 : (fl (1 - fl (inject_Z (n - 1) / inject_Z (n - 1))) == 0)%Q).
  { rewrite (fl_comp _ 0); [reflexivity | rewrite E1; ring]. }
  set (s := fl (1 - fl (inject_Z (n - 1) / inject_Z (n - 1)))) in *.
  assert (E3 : (fl (s * s) == 0)%Q).
  { rewrite (fl_comp _ 0); [reflexivity | rewrite E2; ring]. }
  rewrite (fl_comp _ 1); [apply fl_1 | rewrite E3; ring].
Qed.

Lemma representable_1 : representable 1.
Proof. apply (representable_Z 1). simpl. lia. Qed.

Lemma linear_progress_bounds (n i j : Z) :
  2 <= n -> 0 <= i <= j -> j <= n - 1 ->
  (0 <= quotient i (n - 1))%Q /\
  (quotient i (n - 1) <= quotient j (n - 1))%Q /\
  (quotient j (n - 1) <= 1)%Q.
Proof.
  intros Hn Hij Hj.
  assert (P : (0 < inject_Z (n - 1))%Q) by (rewrite <- (Zlt_Qlt 0); lia).
  repeat split.
  - apply quotient_nonneg; lia.
  - apply fl_mono. apply Qmult_le_compat_r.
    + rewrite <- Zle_Qle. lia.
    + apply Qlt_le_weak, Qinv_lt_0_compat, P.
  - apply fl_below; [apply representable_1|].
    apply Qle_shift_div_r; [assumption|].
    rewrite Qmult_1_l, <- Zle_Qle. assumption.
Qed.

(** The ease-out curve on floats: from a progress in [[0, 1]] to an eased
    progress in [[0, 1]], monotonically, every rounding being monotone. *)
Lemma ease_out_monotone (p q : Q) :
  (0 <= p)%Q -> (p <= q)%Q -> (q <= 1)%Q ->
  (0 <= fsub 1 (fsquare (fsub 1 p)))%Q /\
  (fsub 1 (fsquare (fsub 1 p)) <= fsub 1 (fsquare (fsub 1 q)))%Q /\
  (fsub 1 (fsquare (fsub 1 q)) <= 1)%Q.
Proof.
  intros P0 PQ Q1. unfold fsub, fsquare.
  assert (S0 : (0 <= fl (1 - q))%Q) by (apply fl_nonneg; lra).
  assert (S1 : (fl (1 - q) <= fl (1 - p))%Q) by (apply fl_mono; lra).
  assert (S2 : (fl (1 - p) <= 1)%Q)
    by (apply fl_below; [apply representable_1 | lra]).
  set (s := fl (1 - p)) in *. set (t := fl (1 - q)) in *.
  assert (T0 : (0 <= fl (t * t))%Q) by (apply fl_nonneg; nra).
  assert (T1 : (fl (t * t) <= fl (s * s))%Q) by (apply fl_mono; nra).
  assert (T2 : (fl (s * s) <= 1)%Q)
    by (apply fl_below; [apply representable_1 | nra]).
  repeat split.
  - apply fl_nonneg. lra.
  - apply fl_mono. lra.
  - apply fl_below; [apply representable_1 | lra].
Qed.

(** The eased progress is monotone in the frame index and stays in
    [0, 1]. *)
Lemma eased_monotone (n i j : Z) :
  2 <= n -> 0 <= i <= j -> j <= n - 1 ->
  (0 <= eased n i)%Q /\ (eased n i <= eased n j)%Q /\ (eased n j <= 1)%Q.
Proof.
  intros Hn Hij Hj.
  destruct (linear_progress_bounds n i j Hn Hij Hj) as (X0 & XY & Y1).
  unfold eased. now apply ease_out_monotone.
Qed.

(** C7 (animation phase structure): the frames [_generate_video] hands to
    the encoder are 5 copies of the initial image, then the 30 transfer
    frames in index order, then 10 copies of the final image: 45 frames,
    that is 3 * 5 + 30. *)
Theorem animation_phase_structure config generator tempdir
    first_image final_image task_id task_data :
  let frames :=
    repeat first_image 5
    ++ map (transfer_frame config task_data 30) (range 30)
    ++ repeat final_image (2 * 5) in
  video_frames config 5 30 first_image final_image task_data = Done frames /\
  List.length frames = (3 * 5 + 30)%nat /\
  _generate_video config generator tempdir
    first_image final_image task_id task_data
  = create_video_from_frames generator frames
      {| directory := (tempdir ++ "/" ++ domain config ++ "_videos")%string;
         stem := (task_id ++ "_ground_truth")%string;
         suffix := ".mp4" |}
      None.
Proof.
  assert (F : video_frames config 5 30 first_image final_image task_data
              = Done (repeat first_image 5
                      ++ map (transfer_frame config task_data 30) (range 30)
                      ++ repeat final_image (2 * 5)))
    by (rewrite video_frames_phases by lia; reflexivity).
  cbv zeta. split; [exact F | split].
  - rewrite !length_app, !repeat_length, length_map, range_length. reflexivity.
  - unfold _generate_video. cbv zeta. rewrite F. reflexivity.
Qed.

(** The frame count for any hold and transition lengths. *)
Lemma video_frames_length config hold_frames animation_frames
    first_image final_image task_data frames :
  0 <= hold_frames -> 2 <= animation_frames ->
  video_frames config hold_frames animation_frames
    first_image final_image task_data = Done frames ->
  Z.of_nat (List.length frames) = 3 * hold_frames + animation_frames.
Proof.
  intros Hh Hn. rewrite video_frames_phases by lia.
  intros H. injection H as <-.
  rewrite !length_app, !repeat_length, length_map, range_length. lia.
Qed.

(** The heights shown when the eased progress is 0 and when it is 1, for
    a water height that is a float. *)
Lemma shown_at_start (h : Z) (p : Q) :
  Z.abs h <= 2 ^ 53 -> (p == 0)%Q ->
  int (fmul (to_float h) (fsub 1 p)) = h /\ int (fmul (to_float h) p) = 0.
Proof.
  intros Hh Hp. pose proof (to_float_exact h Hh) as E. split.
  - rewrite <- (int_inject h) at 2. apply int_comp.
    unfold fmul, fsub.
    assert (E1 : (fl (1 - p) == 1)%Q)
      by (rewrite (fl_comp _ 1); [apply fl_1 | rewrite Hp; ring]).
    rewrite (fl_comp _ (inject_Z h)); [now apply fl_Z|].
    rewrite E, E1. ring.
  - rewrite <- (int_inject 0). apply int_comp. unfold fmul.
    rewrite (fl_comp _ 0); [reflexivity | rewrite Hp; ring].
Qed.

Lemma shown_at_end (h : Z) (p : Q) :
  Z.abs h <= 2 ^ 53 -> (p == 1)%Q ->
  int (fmul (to_float h) (fsub 1 p)) = 0 /\ int (fmul (to_float h) p) = h.
Proof.
  intros Hh Hp. pose proof (to_float_exact h Hh) as E. split.
  - rewrite <- (int_inject 0). apply int_comp. unfold fmul, fsub.
    assert (E1 : (fl (1 - p) == 0)%Q)
      by (rewrite (fl_comp _ 0); [reflexivity | rewrite Hp; ring]).
    rewrite (fl_comp _ 0); [reflexivity | rewrite E1; ring].
  - rewrite <- (int_inject h) at 2. apply int_comp. unfold fmul.
    rewrite (fl_comp _ (inject_Z h)); [now apply fl_Z|].
    rewrite E, Hp. ring.
Qed.

(** C6, as amended (animation continuity): for a state whose water
    heights are at most 2^53 in magnitude and at least two transition
    frames, the first transition frame shows the state's
    [source_water_height] in the source and 0 in the target, and the last
    one shows 0 in the source and the state's [target_water_height] in the
    target, exactly. *)
Theorem animation_continuity config hold_frames animation_frames
    first_image final_image task_data :
  2 <= animation_frames ->
  Z.abs (source_water_height task_data) <= 2 ^ 53 ->
  Z.abs (target_water_height task_data) <= 2 ^ 53 ->
  exists frames first_transition last_transition,
    video_frames config hold_frames animation_frames
      first_image final_image task_data = Done frames /\
    nth_error frames (Z.to_nat hold_frames) = Some first_transition /\
    water_heights first_transition
    = Some (source_water_height task_data, 0) /\
    nth_error frames
      (Z.to_nat hold_frames + Z.to_nat (animation_frames - 1))
    = Some last_transition /\
    water_heights last_transition
    = Some (0, target_water_height task_data).
Proof.
  intros Hn Hs Ht.
  exists (repeat first_image (Z.to_nat hold_frames)
          ++ map (transfer_frame config task_data animation_frames)
                 (range animation_frames)
          ++ repeat final_image (Z.to_nat (hold_frames * 2))),
    (transfer_frame config task_data animation_frames 0),
    (transfer_frame config task_data animation_frames (animation_frames - 1)).
  split; [apply video_frames_phases; lia|].
  split.
  { rewrite <- (Nat.add_0_r (Z.to_nat hold_frames)) at 2.
    change 0%nat with (Z.to_nat 0). apply transition_frame_at. lia. }
  split.
  { unfold transfer_frame. rewrite water_heights_render. do 2 f_equal.
    - apply shown_at_start; [assumption | apply eased_first].
    - apply shown_at_start; [assumption | apply eased_first]. }
  split.
  { apply transition_frame_at. lia. }
  unfold transfer_frame. rewrite water_heights_render. do 2 f_equal.
  - apply shown_at_end; [assumption | now apply eased_last].
  - apply shown_at_end; [assumption | now apply eased_last].
Qed.

Lemma animation_continuity_witness :
  exists frames first_transition last_transition,
    video_frames default_config 5 30
      plain_first_image plain_final_image plain_state = Done frames /\
    nth_error frames (Z.to_nat 5) = Some first_transition /\
    water_heights first_transition
    = Some (source_water_height plain_state, 0) /\
    nth_error frames (Z.to_nat 5 + Z.to_nat (30 - 1)) = Some last_transition /\
    water_heights last_transition
    = Some (0, target_water_height plain_state).
Proof.
  apply (animation_continuity default_config 5 30
           plain_first_image plain_final_image plain_state);
    simpl; lia.
Defined.

(** C6 as stated fails: with a container height of 2^55 + 3 the
    overflowing sample run is clamped to the target water height
    2^55 + 3, which is not a float; the last transition frame shows
    [int(float(2**55 + 3) * 1.0) = 2^55], 3 units off. *)
Lemma last_frame_misses_target :
  exists st frames last_transition,
    _generate_task_data towering_config overflow_tape = Done (st, []) /\
    target_water_height st = 2 ^ 55 + 3 /\
    video_frames towering_config 5 30
      (_render_initial_state towering_config st)
      (_render_final_state towering_config st) st = Done frames /\
    nth_error frames (5 + 29) = Some last_transition /\
    water_heights last_transition = Some (0, 2 ^ 55) /\
    1 < Z.abs (target_water_height st - 2 ^ 55).
Proof.
  eexists. eexists. eexists.
  split; [vm_compute; reflexivity|].
  split; [vm_compute; reflexivity|].
  split; [vm_compute; reflexivity|].
  split; [vm_compute; reflexivity|].
  split; vm_compute; reflexivity.
Qed.

(** What transition frame [i] shows. *)
Lemma transition_frame_heights config hold_frames animation_frames
    first_image final_image task_data i :
  2 <= animation_frames -> 0 <= i < animation_frames ->
  exists frames frame,
    video_frames config hold_frames animation_frames
      first_image final_image task_data = Done frames /\
    nth_error frames (Z.to_nat hold_frames + Z.to_nat i) = Some frame /\
    frame = transfer_frame config task_data animation_frames i /\
    water_heights frame
    = Some (int (fmul (to_float (source_water_height task_data))
                      (fsub 1 (eased animation_frames i))),
            int (fmul (to_float (target_water_height task_data))
                      (eased animation_frames i))).
Proof.
  intros Hn Hi.
  exists (repeat first_image (Z.to_nat hold_frames)
          ++ map (transfer_frame config task_data animation_frames)
                 (range animation_frames)
          ++ repeat final_image (Z.to_nat (hold_frames * 2))),
    (transfer_frame config task_data animation_frames i).
  split; [apply video_frames_phases; lia|].
  split; [now apply transition_frame_at|].
  split; [reflexivity|].
  unfold transfer_frame. apply water_heights_render.
Qed.

(** C5, as amended (transition-frame interpolation): transition frame [i]
    of [0 .. animation_frames - 1] shows the source height
    [int(source_water_height * (1 - p'))] and the target height
    [int(target_water_height * p')] with [p' = 1 - (1 - i / (n - 1)) ** 2],
    every operation being the float one: the eased interpolants as
    binary64 computes them, truncated toward zero, not rounded to
    nearest. *)
Theorem transition_frame_interpolation config hold_frames animation_frames
    first_image final_image task_data i :
  2 <= animation_frames -> 0 <= i < animation_frames ->
  exists frames frame,
    video_frames config hold_frames animation_frames
      first_image final_image task_data = Done frames /\
    nth_error frames (Z.to_nat hold_frames + Z.to_nat i) = Some frame /\
    water_heights frame
    = Some (int (fmul (to_float (source_water_height task_data))
                      (fsub 1 (eased animation_frames i))),
            int (fmul (to_float (target_water_height task_data))
                      (eased animation_frames i))).
Proof.
  intros Hn Hi.
  destruct (transition_frame_heights config hold_frames animation_frames
              first_image final_image task_data i Hn Hi)
    as (frames & frame & F & N & _ & W).
  now exists frames, frame.
Qed.

Lemma transition_frame_interpolation_witness :
  exists frames frame,
    video_frames default_config 5 30
      plain_first_image plain_final_image plain_state = Done frames /\
    nth_error frames (Z.to_nat 5 + Z.to_nat 1) = Some frame /\
    water_heights frame
    = Some (int (fmul (to_float (source_water_height plain_state))
                      (fsub 1 (eased 30 1))),
            int (fmul (to_float (target_water_height plain_state))
                      (eased 30 1))).
Proof.
  apply (transition_frame_interpolation default_config 5 30
           plain_first_image plain_final_image plain_state 1); lia.
Defined.

(** C5 as stated fails: in the animation of the plain sample run (source
    water height 110), transition frame 1 has the interpolant
    110 * 784/841 = 102.54..., whose nearest integer is 103, and shows
    102.  That holds of the interpolant in exact arithmetic and of the
    float the code computes. *)
Lemma transition_frame_not_rounded :
  exists frames frame target_shown,
    video_frames default_config 5 30
      plain_first_image plain_final_image plain_state = Done frames /\
    nth_error frames (5 + 1) = Some frame /\
    water_heights frame = Some (102, target_shown) /\
    ~ nearest_integer 102
        (inject_Z (source_water_height plain_state)
         * (1 - exact_eased 30 1)) /\
    ~ nearest_integer 102
        (fmul (to_float (source_water_height plain_state))
              (fsub 1 (eased 30 1))).
Proof.
  eexists. eexists. eexists.
  split; [vm_compute; reflexivity|].
  split; [vm_compute; reflexivity|].
  split; [vm_compute; reflexivity|].
  split; intros H; vm_compute in H; apply H; reflexivity.
Qed.

(** The floats matter: for a source water height of 841, the interpolant
    of frame 4 of 30 is exactly 625, the float product falls just short
    of it, and the frame shows 624. *)
Example interpolant_rounded_before_truncation :
  (inject_Z 841 * (1 - exact_eased 30 4) == 625)%Q /\
  int (fmul (to_float 841) (fsub 1 (eased 30 4))) = 624.
Proof. split; vm_compute; reflexivity. Qed.

(** C10 (monotone animated heights): with non-negative water heights and
    at least two transition frames, from transition frame [i] to a later
    frame [j] the source height shown does not increase and the target
    height shown does not decrease. *)
Theorem animated_heights_monotone config hold_frames animation_frames
    first_image final_image task_data i j :
  0 <= source_water_height task_data ->
  0 <= target_water_height task_data ->
  2 <= animation_frames ->
  0 <= i <= j -> j < animation_frames ->
  exists frames frame_i frame_j source_i target_i source_j target_j,
    video_frames config hold_frames animation_frames
      first_image final_image task_data = Done frames /\
    nth_error frames (Z.to_nat hold_frames + Z.to_nat i) = Some frame_i /\
    water_heights frame_i = Some (source_i, target_i) /\
    nth_error frames (Z.to_nat hold_frames + Z.to_nat j) = Some frame_j /\
    water_heights frame_j = Some (source_j, target_j) /\
    source_j <= source_i /\ target_i <= target_j.
Proof.
  intros Hs Ht Hn Hij Hj.
  destruct (eased_monotone animation_frames i j Hn Hij ltac:(lia))
    as (E0 & Eij & E1).
  apply to_float_nonneg in Hs, Ht.
  exists (repeat first_image (Z.to_nat hold_frames)
          ++ map (transfer_frame config task_data animation_frames)
                 (range animation_frames)
          ++ repeat final_image (Z.to_nat (hold_frames * 2))),
    (transfer_frame config task_data animation_frames i),
    (transfer_frame config task_data animation_frames j).
  do 4 eexists.
  split; [apply video_frames_phases; lia|].
  split; [apply transition_frame_at; lia|].
  split; [unfold transfer_frame; apply water_heights_render|].
  split; [apply transition_frame_at; lia|].
  split; [unfold transfer_frame; apply water_heights_render|].
  assert (S : (fsub 1 (eased animation_frames j)
               <= fsub 1 (eased animation_frames i))%Q)
    by (apply fl_mono; lra).
  assert (S0 : (0 <= fsub 1 (eased animation_frames j))%Q)
    by (apply fl_nonneg; lra).
  split; apply int_le, fl_mono; nra.
Qed.

Lemma animated_heights_monotone_witness :
  exists frames frame_i frame_j source_i target_i source_j target_j,
    video_frames default_config 5 30
      plain_first_image plain_final_image plain_state = Done frames /\
    nth_error frames (Z.to_nat 5 + Z.to_nat 3) = Some frame_i /\
    water_heights frame_i = Some (source_i, target_i) /\
    nth_error frames (Z.to_nat 5 + Z.to_nat 17) = Some frame_j /\
    water_heights frame_j = Some (source_j, target_j) /\
    source_j <= source_i /\ target_i <= target_j.
Proof.
  apply (animated_heights_monotone default_config 5 30
           plain_first_image plain_final_image plain_state 3 17);
    simpl; lia.
Defined.

(** ** Video assembly *)






(** ** Configuration bounds *)





(** * Further properties *)

(** ** What the sampling phase reads *)

(** Leaving the loop: the target width kept is the first drawn one that the
    guard accepts. *)
Lemma while_fuel_randint_inv config (source_width : Z) :
  forall fuel tw0 tape tw tape',
    while_fuel fuel
      (fun target_width => Z.abs (target_width - source_width) <? 20)
      (fun _ => randint (min_container_width config)
                        (max_container_width config))
      tw0 tape
    = Done (tw, tape') ->
    20 <= Z.abs (tw - source_width) /\
    ((tw = tw0 /\ tape' = tape) \/
     (Z.abs (tw0 - source_width) < 20 /\
      exists rejected k_t,
        tape = rejected ++ k_t :: tape' /\
        Forall (fun k => Z.abs (width_draw config k - source_width) < 20)
               rejected /\
        tw = width_draw config k_t)).
Proof.
  induction fuel as [|fuel IH]; intros tw0 tape tw tape'; simpl.
  - destruct (Z.abs (tw0 - source_width) <? 20) eqn:C; try discriminate.
    apply Z.ltb_ge in C. intros H. inversion H; subst. auto.
  - destruct (Z.abs (tw0 - source_width) <? 20) eqn:C.
    + apply Z.ltb_lt in C.
      destruct (randint _ _ tape) as [[tw1 t1]| |] eqn:B; try discriminate.
      apply randint_Done in B as (_ & k & -> & ->).
      fold (width_draw config k).
      intros H. apply IH in H as [Hsep [[-> ->] | (Hrej & ks & k_t & -> & Hks & ->)]].
      * split; [assumption|]. right. split; [assumption|].
        exists [], k. auto.
      * split; [assumption|]. right. split; [assumption|].
        exists (k :: ks), k_t. repeat split; auto.
    + apply Z.ltb_ge in C. intros H. inversion H; subst. auto.
Qed.

(** The tape a successful sampling phase has read. *)
Lemma sample_draws_reads config tape d tape' :
  sample_draws config tape = Done (d, tape') ->
  exists k_s rejected k_t k_f,
    tape = k_s :: rejected ++ k_t :: k_f :: tape' /\
    min_container_width config <= max_container_width config /\
    drawn_source_width d = width_draw config k_s /\
    Forall (fun k => Z.abs (width_draw config k - width_draw config k_s) < 20)
           rejected /\
    drawn_target_width d = width_draw config k_t /\
    20 <= Z.abs (width_draw config k_t - width_draw config k_s) /\
    drawn_fill d = fill_draw config k_f.
Proof.
  unfold sample_draws. intros H.
  apply bind_Done in H as (sw & t1 & Hsw & H).
  apply bind_Done in H as (tw0 & t2 & Htw0 & H).
  apply bind_Done in H as (tw & t3 & Hloop & H).
  apply bind_Done in H as (fill & t4 & Hfill & H).
  apply ret_Done in H as [-> ->]. simpl.
  apply randint_Done in Hsw as (Hrange & k_s & -> & ->).
  apply randint_Done in Htw0 as (_ & k0 & -> & ->).
  fold (width_draw config k_s) in *. fold (width_draw config k0) in *.
  unfold uniform, random in Hfill.
  apply bind_Done in Hfill as (u & t & Hu & Hfill).
  apply bind_Done in Hu as (k_f & t' & Hk & Hu).
  apply ret_Done in Hu as [-> ->]. apply ret_Done in Hfill as [-> ->].
  unfold next_raw in Hk. destruct t3 as [|k t3']; try discriminate.
  inversion Hk; subst.
  unfold while_ in Hloop.
  apply while_fuel_randint_inv in Hloop
    as [Hsep [[-> <-] | (Hrej & ks & k_t & -> & Hks & ->)]].
  - exists k_s, [], k0, k_f. simpl. repeat split; auto; lia.
  - exists k_s, (k0 :: ks), k_t, k_f. simpl. repeat split; auto; lia.
Qed.

Lemma sample_draws_from_tape config k_s rejected k_t k_f rest :
  min_container_width config <= max_container_width config ->
  Forall (fun k => Z.abs (width_draw config k - width_draw config k_s) < 20)
         rejected ->
  20 <= Z.abs (width_draw config k_t - width_draw config k_s) ->
  sample_draws config (k_s :: rejected ++ k_t :: k_f :: rest)
  = Done ({| drawn_source_width := width_draw config k_s;
             drawn_target_width := width_draw config k_t;
             drawn_fill := fill_draw config k_f |}, rest).
Proof.
  intros Hrange Hrej Hacc.
  unfold sample_draws, bind.
  rewrite randint_cons by assumption. fold (width_draw config k_s).
  destruct rejected as [|r rs].
  - simpl app. rewrite randint_cons by assumption.
    fold (width_draw config k_t).
    unfold while_. simpl.
    destruct (Z.abs (width_draw config k_t - width_draw config k_s) <? 20)
      eqn:E; [apply Z.ltb_lt in E; lia | reflexivity].
  - simpl app. rewrite randint_cons by assumption.
    fold (width_draw config r).
    inversion Hrej; subst.
    unfold while_.
    rewrite (while_fuel_accepts config (width_draw config k_s) Hrange
               rs _ r k_t (k_f :: rest)); try assumption.
    + reflexivity.
    + rewrite length_app. simpl. lia.
Qed.

(** X1 (widths in range): both widths of a returned state lie in the
    configured range. *)
Theorem widths_in_range config tape st tape' :
  _generate_task_data config tape = Done (st, tape') ->
  min_container_width config <= source_width st <= max_container_width config /\
  min_container_width config <= target_width st <= max_container_width config.
Proof.
  intros H.
  apply _generate_task_data_Done in H as (d & Hd & Hst).
  pose proof (sample_draws_Done _ _ _ _ Hd) as (Hsw & Htw & _).
  apply derive_state_geometry in Hst as (-> & -> & _). auto.
Qed.

Lemma widths_in_range_witness :
  min_container_width default_config <= source_width plain_state
    <= max_container_width default_config /\
  min_container_width default_config <= target_width plain_state
    <= max_container_width default_config.
Proof.
  apply (widths_in_range default_config plain_tape plain_state []).
  vm_compute. reflexivity.
Defined.

(** X2 (first accepted draw): a successful run has read one source draw,
    some target draws within 20 of the source width, one target draw at
    least 20 away, and one fill draw, in this order and nothing more; the
    returned target width is that first accepted draw. *)
Theorem target_is_first_accepted_draw config tape st tape' :
  _generate_task_data config tape = Done (st, tape') ->
  exists k_s rejected k_t k_f,
    tape = k_s :: rejected ++ k_t :: k_f :: tape' /\
    source_width st = width_draw config k_s /\
    Forall (fun k => Z.abs (width_draw config k - source_width st) < 20)
           rejected /\
    target_width st = width_draw config k_t /\
    20 <= Z.abs (target_width st - source_width st).
Proof.
  intros H.
  apply _generate_task_data_Done in H as (d & Hd & Hst).
  apply sample_draws_reads in Hd
    as (k_s & rejected & k_t & k_f & -> & _ & Es & Hrej & Et & Hacc & _).
  apply derive_state_geometry in Hst as (Ws & Wt & _).
  exists k_s, rejected, k_t, k_f.
  rewrite Ws, Wt, Es, Et. auto.
Qed.

Lemma target_is_first_accepted_draw_witness :
  exists k_s rejected k_t k_f,
    plain_tape = k_s :: rejected ++ k_t :: k_f :: [] /\
    source_width plain_state = width_draw default_config k_s /\
    Forall (fun k =>
              Z.abs (width_draw default_config k - source_width plain_state)
              < 20)
           rejected /\
    target_width plain_state = width_draw default_config k_t /\
    20 <= Z.abs (target_width plain_state - source_width plain_state).
Proof.
  apply (target_is_first_accepted_draw default_config plain_tape plain_state []).
  vm_compute. reflexivity.
Defined.

(** X3 (later draws do not matter): the state returned is decided by the
    draws that were read; with anything else after them on the tape the
    same state comes back and the rest is left untouched. *)
Theorem later_draws_do_not_matter config tape st tape' :
  _generate_task_data config tape = Done (st, tape') ->
  exists used,
    tape = used ++ tape' /\
    (3 <= List.length used)%nat /\
    forall rest, _generate_task_data config (used ++ rest) = Done (st, rest).
Proof.
  intros H.
  apply _generate_task_data_Done in H as (d & Hd & Hst).
  pose proof (sample_draws_reads _ _ _ _ Hd)
    as (k_s & rejected & k_t & k_f & -> & Hrange & Es & Hrej & Et & Hacc & Ef).
  exists (k_s :: rejected ++ [k_t; k_f]).
  split; [simpl; now rewrite <- app_assoc|].
  split; [simpl; rewrite length_app; simpl; lia|].
  intros rest. simpl. rewrite <- app_assoc. simpl.
  rewrite _generate_task_data_phases. unfold bind.
  rewrite sample_draws_from_tape by assumption.
  replace {| drawn_source_width := width_draw config k_s;
             drawn_target_width := width_draw config k_t;
             drawn_fill := fill_draw config k_f |} with d
    by (destruct d; simpl in *; congruence).
  unfold lift. now rewrite Hst.
Qed.

Lemma later_draws_do_not_matter_witness :
  exists used,
    plain_tape = used ++ [] /\
    (3 <= List.length used)%nat /\
    forall rest,
      _generate_task_data default_config (used ++ rest)
      = Done (plain_state, rest).
Proof.
  apply (later_draws_do_not_matter default_config plain_tape plain_state []).
  vm_compute. reflexivity.
Defined.

(** ** Edge configurations *)

Lemma while_fuel_never_leaves config (source_width : Z) :
  min_container_width config <= max_container_width config ->
  max_container_width config - min_container_width config < 20 ->
  min_container_width config <= source_width <= max_container_width config ->
  forall fuel tw0 tape,
    min_container_width config <= tw0 <= max_container_width config ->
    while_fuel fuel
      (fun target_width => Z.abs (target_width - source_width) <? 20)
      (fun _ => randint (min_container_width config)
                        (max_container_width config))
      tw0 tape
    = Starved.
Proof.
  intros Hrange Hnarrow Hsw.
  induction fuel as [|fuel IH]; intros tw0 tape Htw0; simpl;
    (destruct (Z.abs (tw0 - source_width) <? 20) eqn:C;
     [ | apply Z.ltb_ge in C; lia ]).
  - reflexivity.
  - destruct tape as [|k rest].
    + unfold randint.
      destruct (0 <? _) eqn:W; [reflexivity | apply Z.ltb_ge in W; lia].
    + rewrite randint_cons by assumption. apply IH.
      pose proof (Z.mod_pos_bound k
                    (max_container_width config + 1
                     - min_container_width config) ltac:(lia)).
      lia.
Qed.

(** X4 (range narrower than the separation): when the configured widths
    span less than 20, no two draws are ever 20 apart and the rejection
    loop has no exit: whatever finite supply of draws it is given, the
    function uses it up without returning or raising. *)
Theorem narrow_range_never_returns config tape :
  min_container_width config <= max_container_width config ->
  max_container_width config - min_container_width config < 20 ->
  _generate_task_data config tape = Starved.
Proof.
  intros Hrange Hnarrow.
  unfold _generate_task_data, bind.
  destruct tape as [|k_s t1].
  { unfold randint.
    destruct (0 <? _) eqn:W; [reflexivity | apply Z.ltb_ge in W; lia]. }
  rewrite randint_cons by assumption.
  destruct t1 as [|k0 t2].
  { unfold randint.
    destruct (0 <? _) eqn:W; [reflexivity | apply Z.ltb_ge in W; lia]. }
  rewrite randint_cons by assumption.
  unfold while_.
  assert (B : forall k,
             min_container_width config
             <= min_container_width config
                + k mod (max_container_width config + 1
                         - min_container_width config)
             <= max_container_width config).
  { intros k.
    pose proof (Z.mod_pos_bound k
                  (max_container_width config + 1
                   - min_container_width config) ltac:(lia)).
    lia. }
  rewrite while_fuel_never_leaves; auto.
Qed.

Lemma narrow_range_never_returns_witness :
  _generate_task_data narrow_widths [3; 14; 0; 7; 15; 9; 2 ^ 52] = Starved.
Proof.
  apply (narrow_range_never_returns narrow_widths); simpl; lia.
Defined.



(** ** More on the derived state *)

Lemma sampled_water_height_le_height config d :
  0 <= container_height config <= 2 ^ 53 -> (drawn_fill d <= 1)%Q ->
  sampled_water_height config d <= container_height config.
Proof.
  intros Hh H1. unfold sampled_water_height.
  rewrite <- (int_inject (container_height config)) at 2. apply int_le.
  pose proof (to_float_exact (container_height config) ltac:(lia)) as E.
  pose proof (to_float_nonneg (container_height config) ltac:(lia)) as P.
  apply fl_below; [apply representable_Z; lia | nra].
Qed.

Lemma drawn_fill_le_1 config tape d tape' :
  (min_fill_ratio config <= 1)%Q -> (max_fill_ratio config <= 1)%Q ->
  sample_draws config tape = Done (d, tape') ->
  (drawn_fill d <= 1)%Q.
Proof.
  intros Hlo Hhi Hd.
  pose proof (sample_draws_Done _ _ _ _ Hd) as (_ & _ & _ & Hup & Hdown).
  destruct (Qlt_le_dec (max_fill_ratio config) (min_fill_ratio config)) as [L|L].
  - apply Qlt_le_weak in L. destruct (Hdown L). lra.
  - destruct (Hup L). lra.
Qed.

(** The exact quotient of two integers against an integer bound. *)
Lemma exact_quotient_le (a b c : Z) :
  0 < b -> a <= c * b -> (inject_Z a / inject_Z b <= inject_Z c)%Q.
Proof.
  intros Hb H. apply Qle_shift_div_r.
  - now rewrite <- (Zlt_Qlt 0).
  - rewrite <- inject_Z_mult, <- Zle_Qle. assumption.
Qed.

(** A float height is only exceeded by the rounded provisional height
    when the exact one exceeds it. *)
Lemma overflows_exact config d :
  0 < drawn_target_width d ->
  Z.abs (container_height config) <= 2 ^ 53 ->
  overflows config d = true ->
  container_height config * drawn_target_width d
  < drawn_source_width d * sampled_water_height config d.
Proof.
  intros Htw Hh O.
  destruct (Z_lt_le_dec
              (container_height config * drawn_target_width d)
              (drawn_source_width d * sampled_water_height config d))
    as [L|G]; [assumption|exfalso].
  unfold overflows, Qgtb in O. apply negb_true_iff in O.
  assert (C : Qle_bool
                (quotient
                   (drawn_source_width d * sampled_water_height config d)
                   (drawn_target_width d))
                (inject_Z (container_height config)) = true);
    [|congruence].
  apply Qle_bool_iff. apply fl_below; [now apply representable_Z|].
  now apply exact_quotient_le.
Qed.

(** The source height the clamp re-derives is at most the sampled one. *)
Lemma rederived_below_sampled config d :
  0 < drawn_source_width d -> 0 < drawn_target_width d ->
  0 <= container_height config <= 2 ^ 53 ->
  0 <= sampled_water_height config d <= container_height config ->
  overflows config d = true ->
  0 <= int (quotient (drawn_target_width d * container_height config)
                     (drawn_source_width d))
    <= sampled_water_height config d.
Proof.
  intros Hsw Htw Hh Hs O.
  apply overflows_exact in O; [|assumption|lia].
  apply int_bounds; [apply quotient_nonneg; nia|].
  apply fl_below; [apply representable_Z; lia|].
  apply exact_quotient_le; [assumption | nia].
Qed.

(** X6 (a wider target never overflows): with positive widths, a
    container height between 0 and 2^53 and fill ratios at most 1, a
    target at least as wide as the source takes all the sampled water:
    the clamp does not fire, the sampled source height is kept and the
    recorded volume is the source's. *)
Theorem wider_target_never_clamps config tape st tape' :
  1 <= min_container_width config ->
  0 <= container_height config <= 2 ^ 53 ->
  (min_fill_ratio config <= 1)%Q ->
  (max_fill_ratio config <= 1)%Q ->
  _generate_task_data config tape = Done (st, tape') ->
  source_width st <= target_width st ->
  exists d,
    sample_draws config tape = Done (d, tape') /\
    overflows config d = false /\
    source_water_height st = sampled_water_height config d /\
    water_volume st = source_width st * source_water_height st.
Proof.
  intros Hmin Hh Hlo Hhi H Hwide.
  apply _generate_task_data_Done in H as (d & Hd & Hst).
  exists d. split; [assumption|].
  pose proof (sample_draws_Done _ _ _ _ Hd) as (Hsw & Htw & _).
  pose proof (drawn_fill_le_1 _ _ _ _ Hlo Hhi Hd) as Hfill.
  pose proof (sampled_water_height_le_height config d Hh Hfill) as Hswh.
  pose proof (derive_state_geometry _ _ _ Hst) as (Ws & Wt & _).
  rewrite Ws, Wt in Hwide.
  assert (No : overflows config d = false).
  { destruct (overflows config d) eqn:O; [exfalso|reflexivity].
    apply overflows_exact in O; [nia | lia | lia]. }
  rewrite derive_state_nonzero in Hst by lia. rewrite No in Hst.
  injection Hst as <-. cbn. auto.
Qed.

Lemma wider_target_never_clamps_witness :
  exists d,
    sample_draws default_config wide_tape = Done (d, []) /\
    overflows default_config d = false /\
    source_water_height wide_state = sampled_water_height default_config d /\
    water_volume wide_state
    = source_width wide_state * source_water_height wide_state.
Proof.
  apply (wider_target_never_clamps default_config wide_tape wide_state []).
  - simpl. lia.
  - simpl. lia.
  - vm_compute. discriminate.
  - vm_compute. discriminate.
  - vm_compute. reflexivity.
  - simpl. lia.
Defined.

(** X7 (the clamp only lowers the source): on a well-formed configuration
    whose container height is at most 2^53, the source water height
    returned never exceeds the one sampled; it is lower only when the
    overflow clamp fired. *)
Theorem clamp_never_raises_source config tape st tape' :
  well_formed config ->
  container_height config <= 2 ^ 53 ->
  _generate_task_data config tape = Done (st, tape') ->
  exists d,
    sample_draws config tape = Done (d, tape') /\
    source_water_height st <= sampled_water_height config d /\
    (overflows config d = false ->
     source_water_height st = sampled_water_height config d).
Proof.
  intros Hwf Hsize H.
  apply _generate_task_data_Done in H as (d & Hd & Hst).
  exists d. split; [assumption|].
  pose proof (sample_draws_Done _ _ _ _ Hd) as (Hsw & Htw & _).
  destruct (drawn_fill_bounds _ _ _ _ Hwf Hd) as [F0 F1].
  destruct Hwf as [Hmin Hh _ _ _].
  assert (B : 0 <= sampled_water_height config d <= container_height config)
    by (apply sampled_water_height_bounds; [lia | assumption | assumption]).
  rewrite derive_state_nonzero in Hst by lia.
  injection Hst as <-.
  destruct (overflows config d) eqn:O; cbn.
  - split; [|discriminate].
    apply rederived_below_sampled; try assumption; lia.
  - split; [lia | reflexivity].
Qed.

Lemma clamp_never_raises_source_witness :
  exists d,
    sample_draws default_config overflow_tape = Done (d, []) /\
    source_water_height overflow_state
    <= sampled_water_height default_config d /\
    (overflows default_config d = false ->
     source_water_height overflow_state
     = sampled_water_height default_config d).
Proof.
  apply (clamp_never_raises_source default_config overflow_tape
           overflow_state []).
  - exact default_config_well_formed.
  - simpl. lia.
  - vm_compute. reflexivity.
Defined.

(** X8 (the recorded volume): on a well-formed configuration whose
    largest width times the container height stays below 2^53, the
    [water_volume] of a returned state is non-negative, is exactly what
    one of the two containers holds, and is not exceeded by what either
    holds. *)
Theorem water_volume_dominates config tape st tape' :
  well_formed config ->
  max_container_width config * container_height config < 2 ^ 53 ->
  _generate_task_data config tape = Done (st, tape') ->
  0 <= water_volume st /\
  source_width st * source_water_height st <= water_volume st /\
  target_width st * target_water_height st <= water_volume st /\
  (water_volume st = source_width st * source_water_height st \/
   water_volume st = target_width st * target_water_height st).
Proof.
  intros Hwf Hsize H.
  apply _generate_task_data_Done in H as (d & Hd & Hst).
  pose proof (sample_draws_Done _ _ _ _ Hd) as (Hsw & Htw & _).
  destruct (drawn_fill_bounds _ _ _ _ Hwf Hd) as [F0 F1].
  destruct Hwf as [Hmin Hh _ _ _].
  destruct (derive_state_exact config d ltac:(lia) ltac:(lia) Hh Hsize F0 F1)
    as (S & _ & E).
  rewrite E in Hst. injection Hst as <-.
  destruct (_ <? _); cbn.
  - pose proof (Z.div_mod
                  (drawn_target_width d * container_height config)
                  (drawn_source_width d) ltac:(lia)) as M.
    pose proof (Z.mod_pos_bound
                  (drawn_target_width d * container_height config)
                  (drawn_source_width d) ltac:(lia)) as B.
    repeat split; nia.
  - pose proof (Z.div_mod
                  (drawn_source_width d * sampled_water_height config d)
                  (drawn_target_width d) ltac:(lia)) as M.
    pose proof (Z.mod_pos_bound
                  (drawn_source_width d * sampled_water_height config d)
                  (drawn_target_width d) ltac:(lia)) as B.
    repeat split; nia.
Qed.

Lemma water_volume_dominates_witness :
  0 <= water_volume overflow_state /\
  source_width overflow_state * source_water_height overflow_state
  <= water_volume overflow_state /\
  target_width overflow_state * target_water_height overflow_state
  <= water_volume overflow_state /\
  (water_volume overflow_state
   = source_width overflow_state * source_water_height overflow_state \/
   water_volume overflow_state
   = target_width overflow_state * target_water_height overflow_state).
Proof.
  apply (water_volume_dominates default_config overflow_tape
           overflow_state []).
  - exact default_config_well_formed.
  - simpl. lia.
  - vm_compute. reflexivity.
Defined.

(** Beyond that size the recorded volume can be exceeded: in the run
    with the widths 200000000000099 and 99000000000049 the source holds
    one unit more than [water_volume]. *)
Example volume_exceeded_by_source :
  exists st,
    _generate_task_data broad_config broad_tape = Done (st, []) /\
    water_volume st = 19800000000009800 /\
    source_width st * source_water_height st = 19800000000009801.
Proof.
  eexists. split; [vm_compute; reflexivity|]. split; reflexivity.
Qed.

(** X9 (fill ceiling): on a well-formed configuration whose container
    height is at most 2^53, the source water height of a returned state
    is at most [int(container_height * max_fill_ratio)], the float
    product truncated. *)
Theorem source_water_below_fill_ceiling config tape st tape' :
  well_formed config ->
  container_height config <= 2 ^ 53 ->
  _generate_task_data config tape = Done (st, tape') ->
  source_water_height st
  <= int (fmul (to_float (container_height config)) (max_fill_ratio config)).
Proof.
  intros Hwf Hsize H.
  apply _generate_task_data_Done in H as (d & Hd & Hst).
  pose proof (sample_draws_Done _ _ _ _ Hd) as (Hsw & Htw & _ & Hup & _).
  destruct (drawn_fill_bounds _ _ _ _ Hwf Hd) as [F0 F1].
  destruct Hwf as [Hmin Hh _ Hord _].
  destruct (Hup Hord) as [_ Fmax].
  assert (B : 0 <= sampled_water_height config d <= container_height config)
    by (apply sampled_water_height_bounds; [lia | assumption | assumption]).
  assert (S0 : sampled_water_height config d
               <= int (fmul (to_float (container_height config))
                            (max_fill_ratio config))).
  { unfold sampled_water_height. apply int_le, fl_mono.
    pose proof (to_float_nonneg _ Hh). nra. }
  rewrite derive_state_nonzero in Hst by lia.
  injection Hst as <-.
  destruct (overflows config d) eqn:O; cbn.
  - apply Z.le_trans with (sampled_water_height config d); [|assumption].
    apply rederived_below_sampled; try assumption; lia.
  - assumption.
Qed.

Lemma source_water_below_fill_ceiling_witness :
  source_water_height plain_state
  <= int (fmul (to_float (container_height default_config))
               (max_fill_ratio default_config)).
Proof.
  apply (source_water_below_fill_ceiling default_config plain_tape
           plain_state []).
  - exact default_config_well_formed.
  - simpl. lia.
  - vm_compute. reflexivity.
Defined.

(** ** The fill draw *)



(** ** Scenes *)




(** X10 (shared layout): the initial image, the final image and every
    transfer frame of a state draw their two containers at the same
    positions with the same dimensions: both at the same height on the
    canvas, the target 80 to the right of the source's right edge. *)
Theorem layout_is_shared config task_data source_water target_water progress :
  let start_x :=
    (fst (image_size config)
     - (source_width task_data + target_width task_data + 80)) / 2 in
  let container_y :=
    (snd (image_size config) - source_height task_data) / 2 in
  let layout :=
    [ (start_x, container_y,
       source_width task_data, source_height task_data);
      (start_x + source_width task_data + 80, container_y,
       target_width task_data, target_height task_data) ] in
  outlines (drawings_of (_render_initial_state config task_data)) = layout /\
  outlines (drawings_of (_render_final_state config task_data)) = layout /\
  outlines (drawings_of (_render_transfer_frame config task_data
                           source_water target_water progress))
  = layout.
Proof.
  unfold _render_initial_state, _render_final_state, _render_transfer_frame.
  destruct (image_size config) as [width height]. cbn [fst snd].
  repeat split.
  destruct (Qgtb progress 0 && Qgtb 1 progress); reflexivity.
Qed.

(** ** Assembly of frames of one size *)






(** ** More on the animation *)

Lemma linear_progress_interior (n i : Z) :
  2 <= n <= 2 ^ 26 + 1 -> 0 < i < n - 1 ->
  (1 # 2 ^ 26 <= quotient i (n - 1))%Q /\
  (quotient i (n - 1) <= 1 - (1 # 2 ^ 26))%Q.
Proof.
  intros Hn Hi. unfold quotient.
  assert (P : (0 < inject_Z (n - 1))%Q) by (rewrite <- (Zlt_Qlt 0); lia).
  assert (N : (inject_Z (n - 1) <= inject_Z (2 ^ 26))%Q)
    by (rewrite <- Zle_Qle; lia).
  assert (I0 : (inject_Z 1 <= inject_Z i)%Q) by (rewrite <- Zle_Qle; lia).
  assert (I1 : (inject_Z i <= inject_Z (n - 1) - inject_Z 1)%Q).
  { unfold Qminus. rewrite <- inject_Z_opp, <- inject_Z_plus, <- Zle_Qle. lia. }
  change (inject_Z 1) with 1%Q in *.
  change (inject_Z (2 ^ 26)) with 67108864%Q in N.
  change (1 # 2 ^ 26)%Q with (1 # 67108864)%Q.
  set (qn := inject_Z (n - 1)) in *. set (qi := inject_Z i) in *.
  split.
  - apply fl_above.
    + exists 1, (-26). split; [simpl; lia | vm_compute; reflexivity].
    + apply Qle_shift_div_l; [assumption|]. lra.
  - apply fl_below.
    + exists (2 ^ 26 - 1), (-26).
      split; [simpl; lia | vm_compute; reflexivity].
    + apply Qle_shift_div_r; [assumption|]. nra.
Qed.

(** Away from both ends by 2^-26, the eased progress is strictly inside
    (0, 1): no rounding carries it onto an end. *)
Lemma ease_out_interior (p : Q) :
  (1 # 2 ^ 26 <= p)%Q -> (p <= 1 - (1 # 2 ^ 26))%Q ->
  (0 < fsub 1 (fsquare (fsub 1 p)))%Q /\
  (fsub 1 (fsquare (fsub 1 p)) < 1)%Q.
Proof.
  intros P0 P1. unfold fsub, fsquare.
  change (1 # 2 ^ 26)%Q with (1 # 67108864)%Q in *.
  assert (S0 : (1 # 67108864 <= fl (1 - p))%Q).
  { apply fl_above; [|lra].
    exists 1, (-26). split; [simpl; lia | vm_compute; reflexivity]. }
  assert (S1 : (fl (1 - p) <= 67108863 # 67108864)%Q).
  { apply fl_below; [|lra].
    exists (2 ^ 26 - 1), (-26).
    split; [simpl; lia | vm_compute; reflexivity]. }
  set (s := fl (1 - p)) in *.
  assert (T0 : (1 # 4503599627370496 <= fl (s * s))%Q).
  { apply fl_above; [|nra].
    exists 1, (-52). split; [simpl; lia | vm_compute; reflexivity]. }
  assert (T1 : (fl (s * s) <= 4503599493152769 # 4503599627370496)%Q).
  { apply fl_below; [|nra].
    exists ((2 ^ 26 - 1) * (2 ^ 26 - 1)), (-52).
    split; [simpl; lia | vm_compute; reflexivity]. }
  set (t := fl (s * s)) in *.
  split.
  - apply Qlt_le_trans with (134217727 # 4503599627370496)%Q;
      [reflexivity|].
    apply fl_above; [|lra].
    exists (2 ^ 27 - 1), (-52).
    split; [simpl; lia | vm_compute; reflexivity].
  - apply Qle_lt_trans with (4503599627370495 # 4503599627370496)%Q;
      [|reflexivity].
    apply fl_below; [|lra].
    exists (2 ^ 52 - 1), (-52).
    split; [simpl; lia | vm_compute; reflexivity].
Qed.

Lemma eased_strict (n i : Z) :
  2 <= n <= 2 ^ 26 + 1 -> 0 <= i < n ->
  Qgtb (eased n i) 0 && Qgtb 1 (eased n i) = (0 <? i) && (i <? n - 1).
Proof.
  intros Hn Hi. unfold Qgtb.
  destruct (Z.eq_dec i 0) as [->|Hi0].
  { pose proof (eased_first n) as E.
    assert (L : Qle_bool (eased n 0) 0 = true)
      by (apply Qle_bool_iff; rewrite E; apply Qle_refl).
    rewrite L. reflexivity. }
  destruct (Z.eq_dec i (n - 1)) as [->|Hi1].
  { pose proof (eased_last n ltac:(lia)) as E.
    assert (L : Qle_bool 1 (eased n (n - 1)) = true)
      by (apply Qle_bool_iff; rewrite E; apply Qle_refl).
    rewrite L, Z.ltb_irrefl, !andb_false_r. reflexivity. }
  destruct (linear_progress_interior n i Hn ltac:(lia)) as [P0 P1].
  destruct (ease_out_interior _ P0 P1) as [E0 E1]. fold (eased n i) in E0, E1.
  assert (A : Qle_bool (eased n i) 0 = false).
  { apply not_true_is_false. rewrite Qle_bool_iff. lra. }
  assert (B : Qle_bool 1 (eased n i) = false).
  { apply not_true_is_false. rewrite Qle_bool_iff. lra. }
  rewrite A, B.
  assert (C : (0 <? i) = true) by (apply Z.ltb_lt; lia).
  assert (D : (i <? n - 1) = true) by (apply Z.ltb_lt; lia).
  now rewrite C, D.
Qed.

Lemma has_stream_render config task_data s t p :
  has_stream (_render_transfer_frame config task_data s t p)
  = Qgtb p 0 && Qgtb 1 p.
Proof.
  unfold _render_transfer_frame, has_stream.
  destruct (image_size config).
  destruct (Qgtb p 0 && Qgtb 1 p); reflexivity.
Qed.

(** X13 (the pouring stream): with at least two and at most 2^26 + 1
    transition frames, the stream between the containers is drawn on
    every transition frame but the first and the last. *)
Theorem stream_only_in_between config hold_frames animation_frames
    first_image final_image task_data i :
  2 <= animation_frames <= 2 ^ 26 + 1 -> 0 <= i < animation_frames ->
  exists frames frame,
    video_frames config hold_frames animation_frames
      first_image final_image task_data = Done frames /\
    nth_error frames (Z.to_nat hold_frames + Z.to_nat i) = Some frame /\
    has_stream frame = (0 <? i) && (i <? animation_frames - 1).
Proof.
  intros Hn Hi.
  destruct (transition_frame_heights config hold_frames animation_frames
              first_image final_image task_data i ltac:(lia) Hi)
    as (frames & frame & F & N & -> & _).
  exists frames, (transfer_frame config task_data animation_frames i).
  split; [assumption|]. split; [assumption|].
  unfold transfer_frame. rewrite has_stream_render.
  now apply eased_strict.
Qed.

Lemma stream_only_in_between_witness :
  exists frames frame,
    video_frames default_config 5 30
      plain_first_image plain_final_image plain_state = Done frames /\
    nth_error frames (Z.to_nat 5 + Z.to_nat 29) = Some frame /\
    has_stream frame = (0 <? 29) && (29 <? 30 - 1).
Proof.
  apply (stream_only_in_between default_config 5 30
           plain_first_image plain_final_image plain_state 29); simpl; lia.
Defined.

(** The bound matters: in a transition of 2^28 + 1 frames the float
    progress of the frame before the last is so close to 1 that its
    eased progress rounds to 1.0, and that frame has no stream. *)
Example stream_missing_in_long_transition :
  (eased (2 ^ 28 + 1) (2 ^ 28 - 1) == 1)%Q /\
  has_stream (transfer_frame default_config plain_state
                (2 ^ 28 + 1) (2 ^ 28 - 1)) = false.
Proof. split; vm_compute; reflexivity. Qed.

Lemma transfer_frame_first config task_data n :
  Z.abs (source_water_height task_data) <= 2 ^ 53 ->
  water_heights (transfer_frame config task_data n 0)
  = Some (source_water_height task_data, 0).
Proof.
  intros Hs. unfold transfer_frame. rewrite water_heights_render.
  do 2 f_equal.
  - apply shown_at_start; [assumption | apply eased_first].
  - rewrite <- (int_inject 0). apply int_comp. unfold fmul.
    rewrite (fl_comp _ 0); [reflexivity | rewrite eased_first; ring].
Qed.

Lemma transfer_frame_last config task_data n :
  2 <= n ->
  Z.abs (target_water_height task_data) <= 2 ^ 53 ->
  water_heights (transfer_frame config task_data n (n - 1))
  = Some (0, target_water_height task_data).
Proof.
  intros Hn Ht. unfold transfer_frame. rewrite water_heights_render.
  do 2 f_equal.
  - rewrite <- (int_inject 0). apply int_comp. unfold fmul, fsub.
    assert (E1 : (fl (1 - eased n (n - 1)) == 0)%Q)
      by (rewrite (fl_comp _ 0); [reflexivity
                                 | rewrite (eased_last n Hn); ring]).
    rewrite (fl_comp _ 0); [reflexivity | rewrite E1; ring].
  - apply shown_at_end; [assumption | now apply eased_last].
Qed.

(** X14 (the animation joins the end images): between the images rendered
    from a state whose water heights are at most 2^53 in magnitude, the
    first transition frame shows the water heights and the container
    layout of the initial image, and the last those of the final
    image. *)
Theorem transition_joins_end_images config hold_frames animation_frames
    task_data :
  2 <= animation_frames ->
  Z.abs (source_water_height task_data) <= 2 ^ 53 ->
  Z.abs (target_water_height task_data) <= 2 ^ 53 ->
  exists frames first_transition last_transition,
    video_frames config hold_frames animation_frames
      (_render_initial_state config task_data)
      (_render_final_state config task_data) task_data = Done frames /\
    nth_error frames (Z.to_nat hold_frames) = Some first_transition /\
    water_heights first_transition
    = water_heights (_render_initial_state config task_data) /\
    outlines (drawings_of first_transition)
    = outlines (drawings_of (_render_initial_state config task_data)) /\
    nth_error frames
      (Z.to_nat hold_frames + Z.to_nat (animation_frames - 1))
    = Some last_transition /\
    water_heights last_transition
    = water_heights (_render_final_state config task_data) /\
    outlines (drawings_of last_transition)
    = outlines (drawings_of (_render_final_state config task_data)).
Proof.
  intros Hn Hs Ht.
  exists (repeat (_render_initial_state config task_data)
                 (Z.to_nat hold_frames)
          ++ map (transfer_frame config task_data animation_frames)
                 (range animation_frames)
          ++ repeat (_render_final_state config task_data)
                    (Z.to_nat (hold_frames * 2))),
    (transfer_frame config task_data animation_frames 0),
    (transfer_frame config task_data animation_frames (animation_frames - 1)).
  assert (L : forall i,
             outlines (drawings_of
                         (transfer_frame config task_data animation_frames i))
             = outlines (drawings_of (_render_initial_state config task_data))
             /\ outlines (drawings_of
                            (transfer_frame config task_data
                               animation_frames i))
                = outlines (drawings_of
                              (_render_final_state config task_data))).
  { intros i. unfold transfer_frame, _render_initial_state,
      _render_final_state, _render_transfer_frame.
    destruct (image_size config).
    destruct (Qgtb _ 0 && Qgtb 1 _); split; reflexivity. }
  split; [apply video_frames_phases; lia|].
  split.
  { rewrite <- (Nat.add_0_r (Z.to_nat hold_frames)) at 2.
    change 0%nat with (Z.to_nat 0). apply transition_frame_at. lia. }
  split.
  { rewrite transfer_frame_first by assumption. unfold _render_initial_state.
    now destruct (image_size config). }
  split; [apply L|].
  split; [apply transition_frame_at; lia|].
  split.
  { rewrite transfer_frame_last by assumption. unfold _render_final_state.
    now destruct (image_size config). }
  apply L.
Qed.

Lemma transition_joins_end_images_witness :
  exists frames first_transition last_transition,
    video_frames default_config 5 30
      (_render_initial_state default_config plain_state)
      (_render_final_state default_config plain_state) plain_state
    = Done frames /\
    nth_error frames (Z.to_nat 5) = Some first_transition /\
    water_heights first_transition
    = water_heights (_render_initial_state default_config plain_state) /\
    outlines (drawings_of first_transition)
    = outlines (drawings_of (_render_initial_state default_config plain_state))
    /\
    nth_error frames (Z.to_nat 5 + Z.to_nat (30 - 1))
    = Some last_transition /\
    water_heights last_transition
    = water_heights (_render_final_state default_config plain_state) /\
    outlines (drawings_of last_transition)
    = outlines (drawings_of (_render_final_state default_config plain_state)).
Proof.
  apply (transition_joins_end_images default_config 5 30 plain_state);
    simpl; lia.
Defined.

(** X15 (animated heights stay within the end levels): with water
    heights between 0 and 2^53, every transition frame shows a source
    height between 0 and the state's [source_water_height] and a target
    height between 0 and the state's [target_water_height]. *)
Theorem animated_heights_bounded config hold_frames animation_frames
    first_image final_image task_data i :
  0 <= source_water_height task_data <= 2 ^ 53 ->
  0 <= target_water_height task_data <= 2 ^ 53 ->
  2 <= animation_frames -> 0 <= i < animation_frames ->
  exists frames frame source_shown target_shown,
    video_frames config hold_frames animation_frames
      first_image final_image task_data = Done frames /\
    nth_error frames (Z.to_nat hold_frames + Z.to_nat i) = Some frame /\
    water_heights frame = Some (source_shown, target_shown) /\
    0 <= source_shown <= source_water_height task_data /\
    0 <= target_shown <= target_water_height task_data.
Proof.
  intros Hs Ht Hn Hi.
  destruct (transition_frame_heights config hold_frames animation_frames
              first_image final_image task_data i Hn Hi)
    as (frames & frame & F & N & _ & W).
  destruct (eased_monotone animation_frames i i Hn ltac:(lia) ltac:(lia))
    as (E0 & _ & E1).
  exists frames, frame. do 2 eexists.
  split; [exact F|]. split; [exact N|]. split; [exact W|].
  pose proof (to_float_exact (source_water_height task_data) ltac:(lia)) as Es.
  pose proof (to_float_exact (target_water_height task_data) ltac:(lia)) as Et.
  pose proof (to_float_nonneg (source_water_height task_data) ltac:(lia)) as Ps.
  pose proof (to_float_nonneg (target_water_height task_data) ltac:(lia)) as Pt.
  assert (S0 : (0 <= fsub 1 (eased animation_frames i))%Q)
    by (apply fl_nonneg; lra).
  assert (S1 : (fsub 1 (eased animation_frames i) <= 1)%Q)
    by (apply fl_below; [apply representable_1 | lra]).
  split; (apply int_bounds;
          [ apply fl_nonneg; nra
          | apply fl_below; [apply representable_Z; lia | nra] ]).
Qed.

Lemma animated_heights_bounded_witness :
  exists frames frame source_shown target_shown,
    video_frames default_config 5 30
      plain_first_image plain_final_image plain_state = Done frames /\
    nth_error frames (Z.to_nat 5 + Z.to_nat 12) = Some frame /\
    water_heights frame = Some (source_shown, target_shown) /\
    0 <= source_shown <= source_water_height plain_state /\
    0 <= target_shown <= target_water_height plain_state.
Proof.
  apply (animated_heights_bounded default_config 5 30
           plain_first_image plain_final_image plain_state 12);
    simpl; lia.
Defined.

(** ** Prompts *)

Lemma get_all_prompts_any task_type :
  get_all_prompts task_type = get_all_prompts "default".
Proof.
  unfold get_all_prompts, PROMPTS. cbn [get].
  destruct (String.eqb "default" task_type); reflexivity.
Qed.

Lemma get_prompt_cons task_type k tape :
  exists p,
    get_prompt task_type (k :: tape) = Done (p, tape) /\
    In p (get_all_prompts "default").
Proof.
  unfold get_prompt. fold (get_all_prompts task_type).
  rewrite get_all_prompts_any.
  cbv [get_all_prompts PROMPTS get String.eqb Ascii.eqb Bool.eqb choice].
  unfold bind, next_raw, ret. eexists. split; [reflexivity|].
  set (n := Z.to_nat (k mod Z.of_nat _)).
  assert (Hn : (n < 3)%nat).
  { subst n. pose proof (Z.mod_pos_bound k 3 ltac:(lia)). simpl. lia. }
  destruct n as [|[|[|n]]]; simpl; auto. lia.
Qed.

(** X17 (prompt fallback): whatever the task type, known or not, the pool
    is the one stored under ["default"]; [get_prompt] never raises, reads
    one draw and returns a member of that pool, and only an exhausted tape
    keeps it from returning. *)
Theorem get_prompt_falls_back task_type k tape :
  get_all_prompts task_type = get_all_prompts "default" /\
  get_prompt task_type [] = Starved /\
  exists p,
    get_prompt task_type (k :: tape) = Done (p, tape) /\
    In p (get_all_prompts task_type).
Proof.
  split; [apply get_all_prompts_any|]. split.
  - unfold get_prompt. fold (get_all_prompts task_type).
    rewrite get_all_prompts_any. reflexivity.
  - rewrite get_all_prompts_any. apply get_prompt_cons.
Qed.

(** ** Drawing a container *)

Lemma range_step_In (stop i : Z) :
  In i (range_step 0 stop 10) -> 0 <= i < stop /\ i mod 10 = 0.
Proof.
  unfold range_step. rewrite in_map_iff.
  intros (k & <- & Hk). apply in_seq in Hk.
  replace (stop - 0 + 10 - 1) with (stop + 9) in Hk by lia.
  assert (Hq : Z.of_nat k < (stop + 9) / 10) by lia.
  pose proof (Z.div_mod (stop + 9) 10 ltac:(lia)) as E.
  pose proof (Z.mod_pos_bound (stop + 9) 10 ltac:(lia)) as B.
  split; [lia|].
  rewrite Z.add_0_l. apply Z.mod_mul. lia.
Qed.

Section Painting.

Variable wave : Z -> Z.
Variable text_width : string -> Z.

(** The whole of [_draw_container]: it is refused exactly when the height
    or the width is below -4, or water is to be drawn in a container
    narrower than its wall; otherwise it paints the three walls, the
    water with its ripples, the marks and the label, in this order. *)
Lemma _draw_container_spec config x y width height water_height
    show_measurements label :
  _draw_container wave text_width config x y width height water_height
    show_measurements label
  = if (height <? -4) || (width <? -4)
       || ((0 <? water_height) && (width <? 4))
    then Raise ValueError
    else
      Done
        ([ Rectangle x y (x + 4) (y + height + 4) (container_color config);
           Rectangle (x + width) y (x + width + 4) (y + height + 4)
                     (container_color config);
           Rectangle x (y + height) (x + width + 4) (y + height + 4)
                     (container_color config) ]
         ++ (if 0 <? water_height then
               Rectangle (x + 4) (y + height - water_height) (x + width)
                         (y + height) (rgb (water_color config))
               :: map (fun i =>
                         Ellipse (x + 4 + i - 3)
                                 (y + height - water_height + wave i - 3)
                                 (x + 4 + i + 3)
                                 (y + height - water_height + wave i + 3)
                                 (rgb (water_color config)))
                      (range_step 0 (width - 4) 10)
             else [])
         ++ (if show_measurements then
               map (fun i =>
                      Line (x - (if i mod 2 =? 0 then 15 else 8))
                           (y + height - i * height / 5) x
                           (y + height - i * height / 5) (150, 150, 150) 1)
                   (range (5 + 1))
             else [])
         ++ (if String.eqb label "" then []
             else [ Text (x + width / 2 - text_width label / 2)
                         (y + height + 15) label (100, 100, 100) ])).
Proof.
  unfold _draw_container. cbv zeta. unfold rectangle.
  assert (T1 : (x + 4 <? x) = false) by (apply Z.ltb_ge; lia).
  assert (T2 : (y + height + 4 <? y) = (height <? -4))
    by (destruct (Z.ltb_spec (y + height + 4) y),
                 (Z.ltb_spec height (-4)); (reflexivity || lia)).
  assert (T3 : (x + width + 4 <? x + width) = false)
    by (apply Z.ltb_ge; lia).
  assert (T4 : (x + width + 4 <? x) = (width <? -4))
    by (destruct (Z.ltb_spec (x + width + 4) x),
                 (Z.ltb_spec width (-4)); (reflexivity || lia)).
  assert (T5 : (y + height + 4 <? y + height) = false)
    by (apply Z.ltb_ge; lia).
  assert (T6 : (x + width <? x + 4) = (width <? 4))
    by (destruct (Z.ltb_spec (x + width) (x + 4)),
                 (Z.ltb_spec width 4); (reflexivity || lia)).
  rewrite T1, T2, T3, T4, T5, T6. cbn [orb].
  destruct (height <? -4); [reflexivity|]. cbn [obind orb].
  rewrite orb_false_r.
  destruct (width <? -4); [reflexivity|]. cbn [obind orb].
  destruct (0 <? water_height) eqn:W; cbn [andb]; [|reflexivity].
  apply Z.ltb_lt in W.
  assert (T7 : (y + height <? y + height - water_height) = false)
    by (apply Z.ltb_ge; lia).
  rewrite T7, orb_false_r.
  destruct (width <? 4); [reflexivity|]. cbn [obind].
  rewrite (for_each_append_map (range_step 0 (width - 4) 10)
             (fun i =>
                ellipse (x + 4 + i - 3)
                        (y + height - water_height + wave i - 3)
                        (x + 4 + i + 3)
                        (y + height - water_height + wave i + 3)
                        (rgb (water_color config)))
             (fun _ ripple => ripple)
             (fun i =>
                Ellipse (x + 4 + i - 3)
                        (y + height - water_height + wave i - 3)
                        (x + 4 + i + 3)
                        (y + height - water_height + wave i + 3)
                        (rgb (water_color config)))).
  - reflexivity.
  - intros i _. unfold ellipse.
    assert (E1 : (x + 4 + i + 3 <? x + 4 + i - 3) = false)
      by (apply Z.ltb_ge; lia).
    assert (E2 : (y + height - water_height + wave i + 3
                  <? y + height - water_height + wave i - 3) = false)
      by (apply Z.ltb_ge; lia).
    now rewrite E1, E2.
Qed.

(** X25 (when a container is refused): [_draw_container] raises
    [ValueError] exactly when the height or the width is below -4, or
    water is to be drawn in a container narrower than 4; in every other
    case it paints, the three walls first. *)
Theorem container_refused_iff config x y width height water_height
    show_measurements label :
  (_draw_container wave text_width config x y width height water_height
     show_measurements label = Raise ValueError
   <-> height < -4 \/ width < -4 \/ (0 < water_height /\ width < 4)) /\
  (-4 <= height -> -4 <= width -> water_height <= 0 \/ 4 <= width ->
   exists shapes,
     _draw_container wave text_width config x y width height water_height
       show_measurements label
     = Done ([ Rectangle x y (x + 4) (y + height + 4)
                         (container_color config);
               Rectangle (x + width) y (x + width + 4) (y + height + 4)
                         (container_color config);
               Rectangle x (y + height) (x + width + 4) (y + height + 4)
                         (container_color config) ] ++ shapes)).
Proof.
  rewrite _draw_container_spec.
  destruct (Z.ltb_spec height (-4)) as [H1|H1];
    destruct (Z.ltb_spec width (-4)) as [H2|H2];
    destruct (Z.ltb_spec 0 water_height) as [H3|H3];
    destruct (Z.ltb_spec width 4) as [H4|H4];
    cbn [orb andb];
    (split;
     [ split;
       [ intros E; (lia || discriminate E)
       | intros C; (reflexivity || (exfalso; lia)) ]
     | intros A B C; ((exfalso; lia) || (eexists; reflexivity)) ]).
Qed.

(** X19 (measurement marks): when asked for, a container of non-negative
    height that can be painted gets six horizontal tick marks ending at
    its left wall, 15 or 8 long, all between its rim and its bottom, the
    lowest on the bottom line and the highest on the rim; when not asked
    for, no line is drawn at all. *)
Theorem measurement_marks config x y width height water_height label :
  0 <= height -> -4 <= width -> water_height <= 0 \/ 4 <= width ->
  exists marked unmarked,
    _draw_container wave text_width config x y width height water_height
      true label = Done marked /\
    _draw_container wave text_width config x y width height water_height
      false label = Done unmarked /\
    List.length (filter is_line marked) = 6%nat /\
    (forall x0 y0 x1 y1 fill thickness,
        In (Line x0 y0 x1 y1 fill thickness) marked ->
        y0 = y1 /\ x1 = x /\ (x0 = x - 15 \/ x0 = x - 8) /\
        y <= y0 <= y + height) /\
    In (Line (x - 15) (y + height) x (y + height) (150, 150, 150) 1) marked /\
    In (Line (x - 8) y x y (150, 150, 150) 1) marked /\
    filter is_line unmarked = [].
Proof.
  intros Hh Hw Hwater.
  assert (C : (height <? -4) || (width <? -4)
              || ((0 <? water_height) && (width <? 4)) = false).
  { destruct (Z.ltb_spec height (-4)); [lia|].
    destruct (Z.ltb_spec width (-4)); [lia|].
    destruct (Z.ltb_spec 0 water_height), (Z.ltb_spec width 4);
      (reflexivity || lia). }
  rewrite !_draw_container_spec, C.
  eexists. eexists. split; [reflexivity|]. split; [reflexivity|].
  assert (Hwater' : forall ws : list Z,
             filter is_line
               (if 0 <? water_height
                then Rectangle (x + 4) (y + height - water_height)
                       (x + width) (y + height) (rgb (water_color config))
                     :: map (fun i =>
                               Ellipse (x + 4 + i - 3)
                                 (y + height - water_height + wave i - 3)
                                 (x + 4 + i + 3)
                                 (y + height - water_height + wave i + 3)
                                 (rgb (water_color config))) ws
                else [])
             = []).
  { intros ws. destruct (0 <? water_height); [|reflexivity].
    simpl. induction ws; simpl; auto. }
  assert (Hlabel :
           filter is_line
             (if String.eqb label ""
              then []
              else [Text (x + width / 2 - text_width label / 2)
                         (y + height + 15) label (100, 100, 100)])
           = [])
    by (destruct (String.eqb label ""); reflexivity).
  assert (B : forall i, 0 <= i < 5 + 1 -> 0 <= i * height / 5 <= height).
  { intros i Hi. split.
    - apply Z.div_pos; nia.
    - apply Z.div_le_upper_bound; nia. }
  split.
  { rewrite !filter_app, Hwater', Hlabel. reflexivity. }
  split.
  { intros x0 y0 x1 y1 fill thickness Hin.
    rewrite !in_app_iff in Hin.
    destruct Hin as [Hin | [Hin | [Hin | Hin]]].
    - cbn [In] in Hin. intuition discriminate.
    - destruct (0 <? water_height); [|contradiction].
      destruct Hin as [Hin|Hin]; [discriminate|].
      apply in_map_iff in Hin as (i & Hi & _). discriminate.
    - apply in_map_iff in Hin as (i & E & Hi).
      apply range_In in Hi. specialize (B i Hi).
      injection E as <- <- <- <- _ _.
      split; [reflexivity|]. split; [reflexivity|].
      split; [destruct (i mod 2 =? 0); auto | lia].
    - destruct (String.eqb label ""); [contradiction|].
      destruct Hin as [Hin|[]]. discriminate. }
  split.
  { rewrite !in_app_iff. right. right. left.
    apply in_map_iff. exists 0. split; [|apply range_In; lia].
    rewrite Z.mul_0_l. change (0 / 5) with 0. rewrite Z.sub_0_r.
    reflexivity. }
  split.
  { rewrite !in_app_iff. right. right. left.
    apply in_map_iff. exists 5. split; [|apply range_In; lia].
    replace (5 * height / 5) with height
      by (rewrite Z.mul_comm, Z.div_mul; lia).
    replace (y + height - height) with y by lia. reflexivity. }
  rewrite !filter_app, Hwater', Hlabel. reflexivity.
Qed.

(** X20 (water is drawn for positive heights only): a water height of
    zero or less does exactly what an empty container does.  A positive
    one in a container narrower than 4 is refused with [ValueError]: the
    water rectangle would end left of where it starts.  In a container
    at least 4 wide (and at least -4 high) it adds the water rectangle,
    from the waterline down to the bottom between the walls, and ripples
    that are 6 wide, 6 high and stay between the outer faces of the two
    walls. *)
Theorem water_only_when_positive config x y width height water_height
    show_measurements label :
  (water_height <= 0 ->
   _draw_container wave text_width config x y width height water_height
     show_measurements label
   = _draw_container wave text_width config x y width height 0
       show_measurements label) /\
  (0 < water_height -> width < 4 ->
   _draw_container wave text_width config x y width height water_height
     show_measurements label
   = Raise ValueError) /\
  (0 < water_height -> 4 <= width -> -4 <= height ->
   exists shapes,
     _draw_container wave text_width config x y width height water_height
       show_measurements label
     = Done shapes /\
     In (Rectangle (x + 4) (y + height - water_height) (x + width)
                   (y + height) (rgb (water_color config)))
        shapes /\
     forall x0 y0 x1 y1 fill,
       In (Ellipse x0 y0 x1 y1 fill) shapes ->
       x < x0 /\ x1 < x + width + 4 /\ x1 = x0 + 6 /\ y1 = y0 + 6).
Proof.
  rewrite !_draw_container_spec. split; [|split].
  - intros Hw.
    assert (E : (0 <? water_height) = false) by (apply Z.ltb_ge; lia).
    rewrite E. reflexivity.
  - intros Hw Hn.
    assert (E : (0 <? water_height) = true) by (apply Z.ltb_lt; lia).
    assert (F : (width <? 4) = true) by (apply Z.ltb_lt; lia).
    rewrite E, F. cbn [andb]. now rewrite orb_true_r.
  - intros Hw Hn Hh.
    assert (E : (0 <? water_height) = true) by (apply Z.ltb_lt; lia).
    assert (F : (width <? 4) = false) by (apply Z.ltb_ge; lia).
    assert (G : (width <? -4) = false) by (apply Z.ltb_ge; lia).
    assert (K : (height <? -4) = false) by (apply Z.ltb_ge; lia).
    rewrite E, F, G, K. cbn [andb orb].
    eexists. split; [reflexivity|]. split.
    + rewrite !in_app_iff. right. left. now left.
    + intros x0 y0 x1 y1 fill Hin.
      rewrite !in_app_iff in Hin.
      destruct Hin as [Hin | [Hin | [Hin | Hin]]].
      * cbn [In] in Hin. intuition discriminate.
      * destruct Hin as [Hin|Hin]; [discriminate|].
        apply in_map_iff in Hin as (i & Hi & Hr).
        apply range_step_In in Hr as [Hr _].
        injection Hi as <- <- <- <- _. lia.
      * destruct show_measurements; [|contradiction].
        apply in_map_iff in Hin as (i & Hi & _). discriminate.
      * destruct (String.eqb label ""); [contradiction|].
        destruct Hin as [Hin|[]]. discriminate.
Qed.

(** A container that keeps clear of the canvas edges is painted, walls
    and water inside the canvas. *)
Lemma container_within (canvas_width canvas_height : Z) config
    x y width height water_height show_measurements label :
  0 <= x -> x + width + 4 < canvas_width ->
  0 <= y -> y + height + 4 < canvas_height ->
  4 <= width -> 0 <= height -> water_height <= height ->
  exists shapes,
    _draw_container wave text_width config x y width height
      water_height show_measurements label = Done shapes /\
    Forall (rectangle_within (canvas_width, canvas_height)) shapes.
Proof.
  intros Hx Hxw Hy Hyh Hw Hh Hwh.
  rewrite _draw_container_spec.
  assert (F : (width <? 4) = false) by (apply Z.ltb_ge; lia).
  assert (G : (width <? -4) = false) by (apply Z.ltb_ge; lia).
  assert (K : (height <? -4) = false) by (apply Z.ltb_ge; lia).
  rewrite F, G, K, andb_false_r. cbn [orb].
  eexists. split; [reflexivity|].
  apply Forall_forall. intros s Hin.
  rewrite !in_app_iff in Hin.
  destruct Hin as [Hin | [Hin | [Hin | Hin]]].
  - cbn [In] in Hin.
    destruct Hin as [<- | [<- | [<- | []]]]; cbn; lia.
  - destruct (0 <? water_height) eqn:E; [|contradiction].
    apply Z.ltb_lt in E.
    destruct Hin as [<-|Hin]; [cbn; lia|].
    apply in_map_iff in Hin as (i & <- & _). exact I.
  - destruct show_measurements; [|contradiction].
    apply in_map_iff in Hin as (i & <- & _). exact I.
  - destruct (String.eqb label ""); [contradiction|].
    destruct Hin as [<-|[]]. exact I.
Qed.


(** X21 (the scene fits the canvas): when the two widths and the gap
    leave 10 to spare across the canvas and the height leaves 10 to
    spare down it, with widths of at least 4 and water no higher than
    its container, every container of the initial and of the final image
    is painted without refusal, and each of its walls and its water
    rectangle lies inside the canvas. *)
Theorem scene_fits_canvas config task_data
    x y width height water_height show_measurements label :
  4 <= source_width task_data ->
  4 <= target_width task_data ->
  0 <= source_water_height task_data <= source_height task_data ->
  0 <= target_water_height task_data <= target_height task_data ->
  target_height task_data <= source_height task_data ->
  source_width task_data + target_width task_data + 90
    <= fst (image_size config) ->
  source_height task_data + 10 <= snd (image_size config) ->
  In (Container x y width height water_height show_measurements label)
     (drawings_of (_render_initial_state config task_data)
      ++ drawings_of (_render_final_state config task_data)) ->
  exists shapes,
    _draw_container wave text_width config x y width height
      water_height show_measurements label = Done shapes /\
    Forall (rectangle_within (image_size config)) shapes.
Proof.
  intros Hsw Htw Hs Ht Hth Hacross Hdown Hc.
  unfold _render_initial_state, _render_final_state in Hc.
  destruct (image_size config) as [W H]. cbn [fst snd] in *.
  pose proof (Z.div_mod
                (W - (source_width task_data + target_width task_data + 80))
                2 ltac:(lia)) as Ex.
  pose proof (Z.mod_pos_bound
                (W - (source_width task_data + target_width task_data + 80))
                2 ltac:(lia)) as Bx.
  pose proof (Z.div_mod (H - source_height task_data) 2 ltac:(lia)) as Ey.
  pose proof (Z.mod_pos_bound (H - source_height task_data) 2 ltac:(lia))
    as By.
  apply in_app_iff in Hc. cbn [drawings_of In] in Hc.
  destruct Hc as [[Hc | [Hc | [Hc | [Hc | []]]]]
                 | [Hc | [Hc | [Hc | []]]]];
    try discriminate;
    injection Hc as <- <- <- <- <- _ _;
    (apply container_within; lia).
Qed.

(** X22 (the readout sits on the waterline): in the final image of a
    state with water in a target at least 4 wide, the level indicator is
    drawn for the very container that holds the water; its arrow lies on
    the top edge of the water rectangle, 30 to the right of the
    container, and its text is the state's [target_water_height]
    followed by ["px"]. *)
Theorem readout_on_waterline config task_data :
  0 < target_water_height task_data ->
  4 <= target_width task_data ->
  0 <= target_height task_data ->
  exists x y shapes,
    let width := target_width task_data in
    let height := target_height task_data in
    let level := target_water_height task_data in
    let waterline := y + height - level in
    In (Container x y width height level true "B (Filled)")
       (drawings_of (_render_final_state config task_data)) /\
    In (LevelIndicator x y width height level)
       (drawings_of (_render_final_state config task_data)) /\
    _draw_container wave text_width config x y width height level
      true "B (Filled)" = Done shapes /\
    In (Rectangle (x + 4) waterline (x + width) (y + height)
                  (rgb (water_color config)))
       shapes /\
    In (Line (x + width + 30) waterline (x + width + 60) waterline
             (measurement_color config) 2)
       (_draw_water_level_indicator config x y width height level) /\
    In (Text (x + width + 65) (waterline - 10) (str level ++ "px")
             (measurement_color config))
       (_draw_water_level_indicator config x y width height level).
Proof.
  intros Hpos Hw Hh.
  unfold _render_final_state. destruct (image_size config) as [W H].
  eexists. eexists. eexists. cbv zeta. cbn [drawings_of].
  split; [right; left; reflexivity|].
  split; [right; right; left; reflexivity|].
  split.
  { rewrite _draw_container_spec.
    assert (F : (target_width task_data <? 4) = false)
      by (apply Z.ltb_ge; lia).
    assert (G : (target_width task_data <? -4) = false)
      by (apply Z.ltb_ge; lia).
    assert (K : (target_height task_data <? -4) = false)
      by (apply Z.ltb_ge; lia).
    rewrite F, G, K, andb_false_r. cbn [orb]. reflexivity. }
  split.
  { apply Z.ltb_lt in Hpos. rewrite Hpos.
    rewrite !in_app_iff. right. left. now left. }
  unfold _draw_water_level_indicator. split.
  - left. f_equal; lia.
  - right. right. left. f_equal; lia.
Qed.

End Painting.

Lemma measurement_marks_witness :
  exists marked unmarked,
    _draw_container (fun _ => 0) (fun _ => 70) default_config
      66 156 100 200 110 true "A (Source)" = Done marked /\
    _draw_container (fun _ => 0) (fun _ => 70) default_config
      66 156 100 200 110 false "A (Source)" = Done unmarked /\
    List.length (filter is_line marked) = 6%nat /\
    (forall x0 y0 x1 y1 fill thickness,
        In (Line x0 y0 x1 y1 fill thickness) marked ->
        y0 = y1 /\ x1 = 66 /\ (x0 = 66 - 15 \/ x0 = 66 - 8) /\
        156 <= y0 <= 156 + 200) /\
    In (Line (66 - 15) (156 + 200) 66 (156 + 200) (150, 150, 150) 1) marked /\
    In (Line (66 - 8) 156 66 156 (150, 150, 150) 1) marked /\
    filter is_line unmarked = [].
Proof.
  apply (measurement_marks (fun _ => 0) (fun _ => 70) default_config
           66 156 100 200 110 "A (Source)"); lia.
Defined.

(** The refusal, on a container 3 wide with water in it. *)
Example narrow_container_refused :
  _draw_container (fun _ => 0) (fun _ => 70) default_config
    66 156 3 200 110 true "A (Source)" = Raise ValueError.
Proof. reflexivity. Qed.

Lemma scene_fits_canvas_witness :
  exists shapes,
    _draw_container (fun _ => 0) (fun _ => 70) default_config
      133 156 100 200 110 true "A (Source)" = Done shapes /\
    Forall (rectangle_within (image_size default_config)) shapes.
Proof.
  apply (scene_fits_canvas (fun _ => 0) (fun _ => 70)
           default_config plain_state
           133 156 100 200 110 true "A (Source)");
    try (simpl; lia); vm_compute; auto.
Defined.

Lemma readout_on_waterline_witness :
  exists x y shapes,
    let width := target_width plain_state in
    let height := target_height plain_state in
    let level := target_water_height plain_state in
    let waterline := y + height - level in
    In (Container x y width height level true "B (Filled)")
       (drawings_of (_render_final_state default_config plain_state)) /\
    In (LevelIndicator x y width height level)
       (drawings_of (_render_final_state default_config plain_state)) /\
    _draw_container (fun _ => 0) (fun _ => 70) default_config
      x y width height level true "B (Filled)" = Done shapes /\
    In (Rectangle (x + 4) waterline (x + width) (y + height)
                  (rgb (water_color default_config)))
       shapes /\
    In (Line (x + width + 30) waterline (x + width + 60) waterline
             (measurement_color default_config) 2)
       (_draw_water_level_indicator default_config x y width height level) /\
    In (Text (x + width + 65) (waterline - 10) (str level ++ "px")
             (measurement_color default_config))
       (_draw_water_level_indicator default_config x y width height level).
Proof.
  apply (readout_on_waterline (fun _ => 0) (fun _ => 70)
           default_config plain_state); simpl; lia.
Defined.

(** ** Task assembly *)






(** ** From the configuration to the canvas *)

(** X23 (generated scenes fit the canvas): on a well-formed configuration
    whose widths are at least 4, whose container height is at most 2^53
    and whose canvas is at least [2 * max_container_width + 90] wide and
    [container_height + 10] high, every container of the end images of
    every generated state is painted without refusal, each of its walls
    and its water rectangle inside the canvas.  The default configuration
    is one. *)
Theorem generated_scene_fits_canvas (wave : Z -> Z) (text_width : string -> Z)
    config tape st tape'
    x y width height water_height show_measurements label :
  well_formed config ->
  4 <= min_container_width config ->
  container_height config <= 2 ^ 53 ->
  2 * max_container_width config + 90 <= fst (image_size config) ->
  container_height config + 10 <= snd (image_size config) ->
  _generate_task_data config tape = Done (st, tape') ->
  In (Container x y width height water_height show_measurements label)
     (drawings_of (_render_initial_state config st)
      ++ drawings_of (_render_final_state config st)) ->
  exists shapes,
    _draw_container wave text_width config x y width height
      water_height show_measurements label = Done shapes /\
    Forall (rectangle_within (image_size config)) shapes.
Proof.
  intros Hwf Hmin Hsize Hacross Hdown Hgen Hc.
  destruct (derived_levels _ _ _ _ Hwf Hsize Hgen) as (Hsh & Hth & Hs & Ht).
  pose proof (_generate_task_data_Done _ _ _ _ Hgen) as (d & Hd & Hst).
  pose proof (sample_draws_Done _ _ _ _ Hd) as (Hsw & Htw & _).
  apply derive_state_geometry in Hst as (Ws & Wt & _).
  unfold _render_initial_state, _render_final_state in Hc.
  destruct (image_size config) as [W H]. cbn [fst snd] in *.
  pose proof (Z.div_mod
                (W - (source_width st + target_width st + 80))
                2 ltac:(lia)) as Ex.
  pose proof (Z.mod_pos_bound
                (W - (source_width st + target_width st + 80))
                2 ltac:(lia)) as Bx.
  pose proof (Z.div_mod (H - source_height st) 2 ltac:(lia)) as Ey.
  pose proof (Z.mod_pos_bound (H - source_height st) 2 ltac:(lia)) as By.
  apply in_app_iff in Hc. cbn [drawings_of In] in Hc.
  destruct Hc as [[Hc | [Hc | [Hc | [Hc | []]]]]
                 | [Hc | [Hc | [Hc | []]]]];
    try discriminate;
    injection Hc as <- <- <- <- <- _ _;
    (apply container_within; lia).
Qed.

Lemma generated_scene_fits_canvas_witness :
  exists shapes,
    _draw_container (fun _ => 0) (fun _ => 70) default_config
      133 156 100 200 110 true "A (Source)" = Done shapes /\
    Forall (rectangle_within (image_size default_config)) shapes.
Proof.
  apply (generated_scene_fits_canvas (fun _ => 0) (fun _ => 70)
           default_config plain_tape plain_state []
           133 156 100 200 110 true "A (Source)").
  - exact default_config_well_formed.
  - simpl. lia.
  - simpl. lia.
  - simpl. lia.
  - simpl. lia.
  - vm_compute. reflexivity.
  - vm_compute. auto.
Defined.

(** ** Ease-out against linear time *)

(** Strictly between the ends of a transition of at most 2^26 + 1
    frames, consecutive linear progress values are far enough from 0 and
    1 for [x * (1 - x)] to dominate every rounding error. *)
Lemma linear_progress_margin (n i : Z) :
  2 <= n <= 2 ^ 26 + 1 -> 0 < i < n - 1 ->
  let x := (inject_Z i / inject_Z (n - 1))%Q in
  (0 <= x)%Q /\ (x <= 1)%Q /\ (1 # 2 ^ 27 <= x * (1 - x))%Q.
Proof.
  intros Hn Hi x.
  assert (P : (0 < inject_Z (n - 1))%Q) by (rewrite <- (Zlt_Qlt 0); lia).
  assert (E : (x * (1 - x)
               == inject_Z (i * (n - 1 - i))
                  / inject_Z ((n - 1) * (n - 1)))%Q).
  { unfold x.
    replace (n - 1 - i) with ((n - 1) + - i) by lia.
    rewrite !inject_Z_mult, inject_Z_plus, inject_Z_opp.
    set (qi := inject_Z i). set (qn := inject_Z (n - 1)) in *.
    field. lra. }
  assert (P2 : (0 < inject_Z ((n - 1) * (n - 1)))%Q)
    by (rewrite <- (Zlt_Qlt 0); nia).
  split; [|split].
  - unfold x. apply Qle_shift_div_l; [assumption|].
    rewrite Qmult_0_l, <- (Zle_Qle 0). lia.
  - unfold x. apply Qle_shift_div_r; [assumption|].
    rewrite Qmult_1_l, <- Zle_Qle. lia.
  - rewrite E. apply Qle_shift_div_l; [assumption|].
    assert (Z0 : (n - 1) * (n - 1) <= 2 ^ 27 * (i * (n - 1 - i))) by nia.
    rewrite Zle_Qle in Z0.
    rewrite (inject_Z_mult (2 ^ 27) (i * (n - 1 - i))) in Z0.
    change (inject_Z (2 ^ 27)) with 134217728%Q in Z0.
    change (1 # 2 ^ 27)%Q with (1 # 134217728)%Q.
    set (a := inject_Z ((n - 1) * (n - 1))) in *.
    set (b := inject_Z (i * (n - 1 - i))) in *. lra.
Qed.

(** The float ease-out stays ahead of its argument by a margin. *)
Lemma ease_out_gain (x : Q) :
  (0 <= x)%Q -> (x <= 1)%Q -> (1 # 2 ^ 27 <= x * (1 - x))%Q ->
  (x + (1 # 2 ^ 28) <= fsub 1 (fsquare (fsub 1 (fl x))))%Q.
Proof.
  intros X0 X1 M. unfold fsub, fsquare.
  change (1 # 2 ^ 27)%Q with (1 # 134217728)%Q in M.
  change (1 # 2 ^ 28)%Q with (1 # 268435456)%Q.
  destruct (fl_error_nonneg x X0) as [P0 _].
  assert (P1 : (fl x <= 1)%Q) by (apply fl_below; [apply representable_1 | lra]).
  change (1 # 2 ^ 53)%Q with (1 # 9007199254740992)%Q in P0.
  set (p := fl x) in *.
  assert (Pl : (x - (1 # 9007199254740992) <= p)%Q) by nra.
  destruct (fl_error_nonneg (1 - p) ltac:(lra)) as [_ S1].
  assert (S0 : (0 <= fl (1 - p))%Q) by (apply fl_nonneg; lra).
  assert (S2 : (fl (1 - p) <= 1)%Q)
    by (apply fl_below; [apply representable_1 | lra]).
  change (1 # 2 ^ 53)%Q with (1 # 9007199254740992)%Q in S1.
  set (s := fl (1 - p)) in *.
  assert (Su : (s <= 1 - x + (2 # 9007199254740992))%Q) by nra.
  assert (SS : (0 <= s * s)%Q) by nra.
  assert (SS1 : (s * s <= 1)%Q) by nra.
  destruct (fl_error_nonneg (s * s) SS) as [_ Q1].
  assert (Q0 : (0 <= fl (s * s))%Q) by (now apply fl_nonneg).
  assert (Q2 : (fl (s * s) <= 1)%Q)
    by (apply fl_below; [apply representable_1 | assumption]).
  change (1 # 2 ^ 53)%Q with (1 # 9007199254740992)%Q in Q1.
  set (q := fl (s * s)) in *.
  assert (Qu : (q <= (1 - x) * (1 - x) + (6 # 9007199254740992))%Q).
  { assert (A : (s * s <= (1 - x + (2 # 9007199254740992))
                          * (1 - x + (2 # 9007199254740992)))%Q) by nra.
    nra. }
  destruct (fl_error_nonneg (1 - q) ltac:(lra)) as [E0 _].
  change (1 # 2 ^ 53)%Q with (1 # 9007199254740992)%Q in E0.
  set (e := fl (1 - q)) in *.
  nra.
Qed.

(** X16 (ease-out runs ahead of linear time): with water heights between
    0 and 2^53 and at most 2^26 + 1 transition frames, at every
    transition frame the target shows at least, and the source at most,
    what pouring at constant speed would give at linear progress
    [i / (animation_frames - 1)], computed exactly. *)
Theorem ease_out_ahead_of_linear config hold_frames animation_frames
    first_image final_image task_data i :
  0 <= source_water_height task_data <= 2 ^ 53 ->
  0 <= target_water_height task_data <= 2 ^ 53 ->
  2 <= animation_frames <= 2 ^ 26 + 1 -> 0 <= i < animation_frames ->
  exists frames frame source_shown target_shown,
    video_frames config hold_frames animation_frames
      first_image final_image task_data = Done frames /\
    nth_error frames (Z.to_nat hold_frames + Z.to_nat i) = Some frame /\
    water_heights frame = Some (source_shown, target_shown) /\
    source_shown
    <= int (inject_Z (source_water_height task_data)
            * (1 - inject_Z i / inject_Z (animation_frames - 1))) /\
    int (inject_Z (target_water_height task_data)
         * (inject_Z i / inject_Z (animation_frames - 1)))
    <= target_shown.
Proof.
  intros Hs Ht Hn Hi.
  destruct (transition_frame_heights config hold_frames animation_frames
              first_image final_image task_data i ltac:(lia) Hi)
    as (frames & frame & F & N & _ & W).
  exists frames, frame. do 2 eexists.
  split; [exact F|]. split; [exact N|]. split; [exact W|].
  assert (Pn : (0 < inject_Z (animation_frames - 1))%Q)
    by (rewrite <- (Zlt_Qlt 0); lia).
  destruct (Z.eq_dec i 0) as [->|Hi0].
  { destruct (shown_at_start (source_water_height task_data)
                (eased animation_frames 0) ltac:(lia)
                (eased_first animation_frames)) as [-> _].
    destruct (shown_at_start (target_water_height task_data)
                (eased animation_frames 0) ltac:(lia)
                (eased_first animation_frames)) as [_ ->].
    split.
    - rewrite <- (int_inject (source_water_height task_data)) at 1.
      apply int_le. change (inject_Z 0) with 0%Q. unfold Qdiv.
      rewrite Qmult_0_l. setoid_replace (1 - 0)%Q with 1%Q by ring.
      rewrite Qmult_1_r. apply Qle_refl.
    - rewrite <- (int_inject 0) at 2. apply int_le.
      change (inject_Z 0) with 0%Q. unfold Qdiv.
      rewrite Qmult_0_l, Qmult_0_r. apply Qle_refl. }
  destruct (Z.eq_dec i (animation_frames - 1)) as [->|Hi1].
  { destruct (shown_at_end (source_water_height task_data)
                (eased animation_frames (animation_frames - 1)) ltac:(lia)
                (eased_last animation_frames ltac:(lia))) as [-> _].
    destruct (shown_at_end (target_water_height task_data)
                (eased animation_frames (animation_frames - 1)) ltac:(lia)
                (eased_last animation_frames ltac:(lia))) as [_ ->].
    assert (E : (inject_Z (animation_frames - 1)
                 / inject_Z (animation_frames - 1) == 1)%Q)
      by (field; lra).
    split.
    - rewrite <- (int_inject 0) at 1. apply int_le. rewrite E.
      change (inject_Z 0) with 0%Q. lra.
    - rewrite <- (int_inject (target_water_height task_data)) at 2.
      apply int_le. rewrite E. lra. }
  destruct (linear_progress_margin animation_frames i Hn ltac:(lia))
    as (X0 & X1 & M).
  pose proof (ease_out_gain _ X0 X1 M) as G.
  fold (quotient i (animation_frames - 1)) in G.
  fold (eased animation_frames i) in G.
  destruct (eased_monotone animation_frames i i ltac:(lia) ltac:(lia)
              ltac:(lia)) as (E0 & _ & E1).
  change (1 # 2 ^ 28)%Q with (1 # 268435456)%Q in G.
  pose proof (to_float_exact (source_water_height task_data) ltac:(lia)) as Es.
  pose proof (to_float_exact (target_water_height task_data) ltac:(lia)) as Et.
  assert (Ps : (0 <= inject_Z (source_water_height task_data))%Q)
    by (rewrite <- (Zle_Qle 0); lia).
  assert (Pt : (0 <= inject_Z (target_water_height task_data))%Q)
    by (rewrite <- (Zle_Qle 0); lia).
  set (x := (inject_Z i / inject_Z (animation_frames - 1))%Q) in *.
  set (e := eased animation_frames i) in *.
  split.
  - apply int_le. unfold fmul, fsub.
    destruct (fl_error_nonneg (1 - e) ltac:(lra)) as [_ W1].
    assert (W0 : (0 <= fl (1 - e))%Q) by (apply fl_nonneg; lra).
    assert (W2 : (fl (1 - e) <= 1)%Q)
      by (apply fl_below; [apply representable_1 | lra]).
    change (1 # 2 ^ 53)%Q with (1 # 9007199254740992)%Q in W1.
    set (w := fl (1 - e)) in *.
    set (S := to_float (source_water_height task_data)) in *.
    set (S' := inject_Z (source_water_height task_data)) in *.
    destruct (fl_error_nonneg (S * w) ltac:(nra)) as [_ V].
    change (1 # 2 ^ 53)%Q with (1 # 9007199254740992)%Q in V.
    set (v := fl (S * w)) in *.
    assert (A : (w + w * (1 # 9007199254740992) <= 1 - x)%Q) by nra.
    nra.
  - apply int_le. unfold fmul.
    set (T := to_float (target_water_height task_data)) in *.
    set (T' := inject_Z (target_water_height task_data)) in *.
    destruct (fl_error_nonneg (T * e) ltac:(nra)) as [V _].
    change (1 # 2 ^ 53)%Q with (1 # 9007199254740992)%Q in V.
    set (v := fl (T * e)) in *.
    assert (A : (x <= e - e * (1 # 9007199254740992))%Q) by nra.
    nra.
Qed.

Lemma ease_out_ahead_of_linear_witness :
  exists frames frame source_shown target_shown,
    video_frames default_config 5 30
      plain_first_image plain_final_image plain_state = Done frames /\
    nth_error frames (Z.to_nat 5 + Z.to_nat 12) = Some frame /\
    water_heights frame = Some (source_shown, target_shown) /\
    source_shown
    <= int (inject_Z (source_water_height plain_state)
            * (1 - inject_Z 12 / inject_Z (30 - 1))) /\
    int (inject_Z (target_water_height plain_state)
         * (inject_Z 12 / inject_Z (30 - 1)))
    <= target_shown.
Proof.
  apply (ease_out_ahead_of_linear default_config 5 30
           plain_first_image plain_final_image plain_state 12);
    simpl; lia.
Defined.
